(** * Arrival sequencing for AEP: a shallow embedding of [Depenedencias.py]

    The simulation core of the repository (class [Avion], class [Fila], the
    Poisson arrival generator and the disruption helpers) is embedded as
    executable Rocq definitions, and the properties stated for it are
    settled against these definitions.

    Modelling conventions.

    - Python floats are exact rationals ([Q]); [float('inf')] is the extra
      value [Infinito] of type [Tiempo].  Rounding, overflow and NaN are
      outside the model.
    - Python ints are [Z].
    - Aircraft are mutable objects shared between the queue, the lists
      returned by the queue's methods and the caller.  They live in a store
      [Memoria], a total map from references to aircraft records, and every
      list of aircraft of the source is a list of references.  A method that
      mutates aircraft takes the store and returns the new one.
    - The random sources of numpy are arguments: the successive values they
      return during a call.
    - A Python exception is the [Lanza] result of type [Resultado]. *)

From Stdlib Require Import QArith ZArith List Bool Lia Lqa.
From Stdlib Require Import Permutation Sorted.
From Stdlib Require String.
Import ListNotations.

Open Scope Q_scope.

(** ** Numbers *)

Definition Qlt_bool (x y : Q) : bool := negb (Qle_bool y x).

(** A float that may be [float('inf')]. *)
Inductive Tiempo : Type :=
| Finito (q : Q)
| Infinito.

(** [t < q] and [t >= q] for a possibly infinite [t] and a finite [q]. *)
Definition tiempo_lt_bool (t : Tiempo) (q : Q) : bool :=
  match t with
  | Finito x => Qlt_bool x q
  | Infinito => false
  end.

Definition tiempo_ge_bool (t : Tiempo) (q : Q) : bool :=
  match t with
  | Finito x => Qle_bool q x
  | Infinito => true
  end.

Definition tiempo_le_bool (t : Tiempo) (q : Q) : bool :=
  match t with
  | Finito x => Qle_bool x q
  | Infinito => false
  end.

Definition tiempo_mas (t u : Tiempo) : Tiempo :=
  match t, u with
  | Finito x, Finito y => Finito (x + y)
  | _, _ => Infinito
  end.

(** Python's [int(x)] on a float: truncation towards zero. *)
Definition int_de_float (q : Q) : Z := Z.quot (Qnum q) (Z.pos (Qden q)).

(** Python's [max(a, b)] on two floats: [b] when [b > a], otherwise [a]. *)
Definition max_py (a b : Q) : Q := if Qlt_bool a b then b else a.

(** ** Global parameters (distance in nm, speed in knots, time in minutes) *)

Definition DISTANCIA_INICIAL : Q := 100.
Definition VEL_MARCHA_ATRAS : Q := 200.
Definition GAP_MIN : Q := 4.
Definition GAP_BUFFER : Q := 5.
Definition GAP_REINSERCION : Q := 10.
Definition DT : Q := 1.

(** ** Exceptions *)

Inductive Excepcion : Type :=
| ZeroDivisionError
| ValueError.

Inductive Resultado (A : Type) : Type :=
| Normal (a : A)
| Lanza (e : Excepcion).

Arguments Normal {A} a.
Arguments Lanza {A} e.

Definition ligar {A B : Type} (m : Resultado A) (k : A -> Resultado B)
  : Resultado B :=
  match m with
  | Normal a => k a
  | Lanza e => Lanza e
  end.

Notation "x <- m ;; k" := (ligar m (fun x => k))
  (at level 61, m at next level, right associativity).

(** A [for] loop whose body may raise: the first exception ends the loop. *)
Fixpoint para_cada {S X : Type} (cuerpo : S -> X -> Resultado S)
  (l : list X) (s : S) : Resultado S :=
  match l with
  | [] => Normal s
  | x :: l' => s' <- cuerpo s x ;; para_cada cuerpo l' s'
  end.

(** ** Class [Avion] *)

Inductive Estado : Type :=
| en_vuelo
| marcha_atras
| aterrizado
| desviado.

Definition Estado_eqb (e f : Estado) : bool :=
  match e, f with
  | en_vuelo, en_vuelo => true
  | marcha_atras, marcha_atras => true
  | aterrizado, aterrizado => true
  | desviado, desviado => true
  | _, _ => false
  end.

(** One entry of [historial_posiciones]. *)
Record Registro : Type := mkRegistro {
  reg_minuto : Z;
  reg_pos : Q;
  reg_vel : Q;
  reg_estado : Estado;
  reg_gap_adelante : option Tiempo;
  reg_lead_id : option Z;
  reg_gap_atras : option Tiempo;
  reg_tail_id : option Z
}.

Record Avion : Type := mkAvion {
  num : Z;
  tiempo_radar : Z;
  posicion : Q;
  estado : Estado;
  velocidad_actual : Q;
  gap_adelante : option Tiempo;
  lead_id : option Z;
  gap_atras : option Tiempo;
  tail_id : option Z;
  atraso : Z;
  MarchaAt : Z;
  historial_posiciones : list Registro
}.

(** Attribute assignments. *)
Definition con_posicion (a : Avion) (p : Q) : Avion :=
  mkAvion (num a) (tiempo_radar a) p (estado a) (velocidad_actual a)
    (gap_adelante a) (lead_id a) (gap_atras a) (tail_id a)
    (atraso a) (MarchaAt a) (historial_posiciones a).

Definition con_estado (a : Avion) (e : Estado) : Avion :=
  mkAvion (num a) (tiempo_radar a) (posicion a) e (velocidad_actual a)
    (gap_adelante a) (lead_id a) (gap_atras a) (tail_id a)
    (atraso a) (MarchaAt a) (historial_posiciones a).

Definition con_velocidad (a : Avion) (v : Q) : Avion :=
  mkAvion (num a) (tiempo_radar a) (posicion a) (estado a) v
    (gap_adelante a) (lead_id a) (gap_atras a) (tail_id a)
    (atraso a) (MarchaAt a) (historial_posiciones a).

Definition con_adelante (a : Avion) (l : option Z) (g : option Tiempo) : Avion :=
  mkAvion (num a) (tiempo_radar a) (posicion a) (estado a) (velocidad_actual a)
    g l (gap_atras a) (tail_id a)
    (atraso a) (MarchaAt a) (historial_posiciones a).

Definition con_atras (a : Avion) (t : option Z) (g : option Tiempo) : Avion :=
  mkAvion (num a) (tiempo_radar a) (posicion a) (estado a) (velocidad_actual a)
    (gap_adelante a) (lead_id a) g t
    (atraso a) (MarchaAt a) (historial_posiciones a).

Definition con_historial (a : Avion) (h : list Registro) : Avion :=
  mkAvion (num a) (tiempo_radar a) (posicion a) (estado a) (velocidad_actual a)
    (gap_adelante a) (lead_id a) (gap_atras a) (tail_id a)
    (atraso a) (MarchaAt a) h.

(** [velocidad_permitida]: the pair [(vel_max, vel_min)] of the band of a
    distance to AEP. *)
Definition velocidad_permitida (d : Q) : Q * Q :=
  if Qlt_bool 100 d then (500, 300)
  else if Qlt_bool 50 d then (300, 250)
  else if Qlt_bool 15 d then (250, 200)
  else if Qlt_bool 5 d then (200, 150)
  else (150, 120).

Definition vel_max_actual (a : Avion) : Q := fst (velocidad_permitida (posicion a)).
Definition vel_min_actual (a : Avion) : Q := snd (velocidad_permitida (posicion a)).

(** [Avion.__init__]. *)
Definition Avion_init (n : Z) (t : Z) (distancia_inicial : Q) : Avion :=
  let v := fst (velocidad_permitida distancia_inicial) in
  mkAvion n t distancia_inicial en_vuelo v None None None None 0%Z 0%Z
    [ mkRegistro (t - 1)%Z distancia_inicial v en_vuelo None None None None ].

(** The snapshot that [registrar_estado] appends. *)
Definition instantanea (a : Avion) (minuto : Z) (vel : option Q) : Registro :=
  mkRegistro minuto (posicion a)
    (match vel with None => velocidad_actual a | Some v => v end)
    (estado a) (gap_adelante a) (lead_id a) (gap_atras a) (tail_id a).

Definition registrar_estado (a : Avion) (minuto : Z) (vel : option Q) : Avion :=
  con_historial a (historial_posiciones a ++ [instantanea a minuto vel]).

Definition avanzar_minuto (a : Avion) (minuto : Z) (dt : Q) : Avion :=
  match estado a with
  | aterrizado | desviado => registrar_estado a minuto (Some 0)
  | marcha_atras => registrar_estado a minuto None
  | en_vuelo =>
      let vel := velocidad_actual a in
      let avance := vel / 60 * dt in
      let a1 := con_posicion a (max_py 0 (posicion a - avance)) in
      if Qle_bool (posicion a1) 0
      then registrar_estado (con_estado (con_posicion a1 0) aterrizado) minuto (Some 0)
      else registrar_estado a1 minuto (Some vel)
  end.

(** The bound of the loop of [calcular_tiempo_esperado]. *)
Definition MAX_ITERACIONES : Z := 100000.

(** How the loop of [calcular_tiempo_esperado] ends: by the [return
    float('inf')] inside it, or by leaving the [while] with the distance
    left and the minutes counted. *)
Inductive FinBucle : Type :=
| RetornaInf
| SaleBucle (d : Q) (tiempo_total : Z).

(** The [while d > 0 and it < 100000] loop; [restantes] is [100000 - it]. *)
Fixpoint bucle_tiempo_esperado (restantes : nat) (d : Q) (tiempo_total : Z)
  : FinBucle :=
  match restantes with
  | O => SaleBucle d tiempo_total
  | S k =>
      if Qlt_bool 0 d then
        let vel_max := fst (velocidad_permitida d) in
        let avance := vel_max / 60 in
        if Qle_bool avance 0 then RetornaInf
        else bucle_tiempo_esperado k (d - avance) (tiempo_total + 1)%Z
      else SaleBucle d tiempo_total
  end.

Definition tiempo_esperado_desde (d : Q) : Tiempo :=
  match bucle_tiempo_esperado (Z.to_nat MAX_ITERACIONES) d 0%Z with
  | RetornaInf => Infinito
  | SaleBucle _ tiempo_total => Finito (inject_Z tiempo_total)
  end.

(** [calcular_tiempo_esperado] with [distancia=None]. *)
Definition calcular_tiempo_esperado (a : Avion) : Tiempo :=
  tiempo_esperado_desde (posicion a).

Definition marcar_desviado (a : Avion) : Avion :=
  con_velocidad (con_estado a desviado) 0.

Definition iniciar_marcha_atras (a : Avion) : Avion :=
  con_estado a marcha_atras.

(** ** The store of aircraft objects *)

Definition Ref : Type := nat.

Definition Memoria : Type := Ref -> Avion.

(** Assignment to the object behind a reference. *)
Definition escribir (h : Memoria) (r : Ref) (a : Avion) : Memoria :=
  fun r' => if Nat.eqb r' r then a else h r'.

(** ** Sorting *)

(** [list.sort] is stable; so is this insertion sort for a total [leb]. *)
Fixpoint insertar_ordenado {A : Type} (leb : A -> A -> bool) (x : A)
  (l : list A) : list A :=
  match l with
  | [] => [x]
  | y :: l' => if leb x y then x :: l else y :: insertar_ordenado leb x l'
  end.

Fixpoint ordenar_por {A : Type} (leb : A -> A -> bool) (l : list A) : list A :=
  match l with
  | [] => []
  | x :: l' => insertar_ordenado leb x (ordenar_por leb l')
  end.

(** Order of the keys [a.posicion]. *)
Definition clave_posicion_leb (h : Memoria) (r s : Ref) : bool :=
  Qle_bool (posicion (h r)) (posicion (h s)).

(** Order of the keys [(a.posicion, a.num)]: tuples compare lexicographically. *)
Definition clave_posicion_num_leb (h : Memoria) (r s : Ref) : bool :=
  Qlt_bool (posicion (h r)) (posicion (h s))
  || (Qeq_bool (posicion (h r)) (posicion (h s))
      && Z.leb (num (h r)) (num (h s))).

(** ** Class [Fila] *)

Record Fila : Type := mkFila {
  nombre : String.string;
  aviones : list Ref
}.

Definition Fila_init (nombre : String.string) : Fila := mkFila nombre [].

Definition ordenar (h : Memoria) (f : Fila) : Fila :=
  mkFila (nombre f) (ordenar_por (clave_posicion_leb h) (aviones f)).

Definition insertar (h : Memoria) (f : Fila) (avion : Ref) : Fila :=
  ordenar h (mkFila (nombre f) (aviones f ++ [avion])).

(** [obtener_todos] sorts the queue and returns a copy of its list. *)
Definition obtener_todos (h : Memoria) (f : Fila) : Fila * list Ref :=
  let f' := ordenar h f in (f', aviones f').

(** The run-level counters of the dict [resultados]. *)
Record Resultados : Type := mkResultados {
  aterrizados : Z;
  desviados : Z;
  congestion : Z
}.

Definition inicializar_resultados : Resultados := mkResultados 0 0 0.

Definition mas_congestion (res : Resultados) : Resultados :=
  mkResultados (aterrizados res) (desviados res) (congestion res + 1).

Definition mas_desviados (res : Resultados) : Resultados :=
  mkResultados (aterrizados res) (desviados res + 1) (congestion res).

(** One iteration of the loop of [actualizar_gaps], at index [i] of the
    sorted list [avs] of length [n].  Only the four gap attributes of
    [avs[i]] are assigned. *)
Definition cuerpo_gaps (avs : list Ref) (n : nat) (h : Memoria) (i : nat)
  : Memoria :=
  let r := nth i avs O in
  let h1 :=
    if Nat.eqb i 0 then escribir h r (con_adelante (h r) None None)
    else
      let lead := nth (i - 1) avs O in
      let distancia_gap := posicion (h r) - posicion (h lead) in
      if Qlt_bool 0 (velocidad_actual (h lead))
      then escribir h r (con_adelante (h r) (Some (num (h lead)))
             (Some (Finito (distancia_gap / velocidad_actual (h lead) * 60))))
      else escribir h r (con_adelante (h r) (Some (num (h lead)))
             (Some Infinito)) in
  if Nat.eqb i (n - 1) then escribir h1 r (con_atras (h1 r) None None)
  else
    let tail := nth (i + 1) avs O in
    let distancia_gap := posicion (h1 tail) - posicion (h1 r) in
    if Qlt_bool 0 (velocidad_actual (h1 r))
    then escribir h1 r (con_atras (h1 r) (Some (num (h1 tail)))
           (Some (Finito (distancia_gap / velocidad_actual (h1 r) * 60))))
    else escribir h1 r (con_atras (h1 r) (Some (num (h1 tail)))
           (Some Infinito)).

Definition actualizar_gaps (h : Memoria) (f : Fila) : Memoria * Fila :=
  let avs := ordenar_por (clave_posicion_num_leb h) (aviones f) in
  let n := length avs in
  (fold_left (cuerpo_gaps avs n) (seq 0 n) h, mkFila (nombre f) avs).

(** The state of the loop of [actualizar_velocidades]: the store, the
    counters, and the lists [en_vuelo_activos] and [marcha_atras]. *)
Record EstadoVelocidades : Type := mkEstadoVelocidades {
  ev_memoria : Memoria;
  ev_resultados : Resultados;
  ev_en_vuelo_activos : list Ref;
  ev_marcha_atras : list Ref
}.

(** One iteration of the loop of [actualizar_velocidades]. *)
Definition cuerpo_velocidades (s : EstadoVelocidades) (r : Ref)
  : EstadoVelocidades :=
  let h := ev_memoria s in
  let res := ev_resultados s in
  let avion := h r in
  if Estado_eqb (estado avion) marcha_atras then
    mkEstadoVelocidades h res (ev_en_vuelo_activos s) (ev_marcha_atras s ++ [r])
  else
    let gap := gap_adelante avion in
    let vel_max := vel_max_actual avion in
    let vel_min := vel_min_actual avion in
    let sube :=
      if Qlt_bool (velocidad_actual avion) vel_max
      then con_velocidad avion vel_max else avion in
    match gap with
    | None =>
        mkEstadoVelocidades (escribir h r (con_estado sube en_vuelo)) res
          (ev_en_vuelo_activos s ++ [r]) (ev_marcha_atras s)
    | Some g =>
        if tiempo_lt_bool g GAP_MIN then
          let vel_reducida := velocidad_actual avion - 20 in
          if Qlt_bool vel_reducida vel_min then
            mkEstadoVelocidades
              (escribir h r
                 (con_estado (con_velocidad avion (- VEL_MARCHA_ATRAS)) marcha_atras))
              res (ev_en_vuelo_activos s) (ev_marcha_atras s ++ [r])
          else
            mkEstadoVelocidades
              (escribir h r (con_estado (con_velocidad avion vel_reducida) en_vuelo))
              (mas_congestion res)
              (ev_en_vuelo_activos s ++ [r]) (ev_marcha_atras s)
        else if tiempo_ge_bool g GAP_BUFFER then
          mkEstadoVelocidades (escribir h r (con_estado sube en_vuelo)) res
            (ev_en_vuelo_activos s ++ [r]) (ev_marcha_atras s)
        else
          mkEstadoVelocidades (escribir h r (con_estado avion en_vuelo)) res
            (ev_en_vuelo_activos s ++ [r]) (ev_marcha_atras s)
    end.

(** [actualizar_velocidades]; [resultados=None] starts fresh counters. *)
Definition actualizar_velocidades (h : Memoria) (f : Fila)
  (resultados : option Resultados) : EstadoVelocidades :=
  let res := match resultados with
             | None => mkResultados 0 0 0
             | Some res => res
             end in
  fold_left cuerpo_velocidades (aviones f) (mkEstadoVelocidades h res [] []).

(** ** Arrival generator *)

(** The first loop of [generar_vuelos_poisson]: continuous arrival times.
    [exponencial k escala] is what the [k]-th call of
    [np.random.exponential(escala)] returns.  The loop ends when the draws
    let it; [None] is a run that is still looping when the fuel is spent. *)
Fixpoint bucle_poisson (combustible : nat) (exponencial : nat -> Q -> Q)
  (lambda_min : Q) (total_min : Z) (k : nat) (tiempo : Tiempo)
  (tiempos_reales : list Q) : option (list Q) :=
  match combustible with
  | O => None
  | S c =>
      if tiempo_lt_bool tiempo (inject_Z total_min) then
        let delta :=
          if Qlt_bool 0 lambda_min
          then Finito (exponencial k (1 / lambda_min)) else Infinito in
        let k' := if Qlt_bool 0 lambda_min then S k else k in
        let tiempo' := tiempo_mas tiempo delta in
        bucle_poisson c exponencial lambda_min total_min k' tiempo'
          (match tiempo' with
           | Finito t =>
               if Qlt_bool t (inject_Z total_min)
               then tiempos_reales ++ [t] else tiempos_reales
           | Infinito => tiempos_reales
           end)
      else Some tiempos_reales
  end.

(** [while minuto in ocupados and minuto < total_min: minuto += 1].  The
    loop ends within [total_min - minuto] iterations, which is what [n]
    counts down from. *)
Fixpoint desplazar (n : nat) (ocupados : list Z) (total_min minuto : Z) : Z :=
  match n with
  | O => minuto
  | S n' =>
      if existsb (Z.eqb minuto) ocupados && (minuto <? total_min)%Z
      then desplazar n' ocupados total_min (minuto + 1)%Z
      else minuto
  end.

(** One iteration of the second loop; the state is
    [(tiempos_enteros, ocupados)], the set as the list of its elements. *)
Definition cuerpo_enteros (total_min : Z) (s : list Z * list Z) (t : Q)
  : list Z * list Z :=
  let minuto0 := int_de_float t in
  let minuto :=
    desplazar (Z.to_nat (total_min - minuto0)) (snd s) total_min minuto0 in
  if (minuto <? total_min)%Z
  then (fst s ++ [minuto], minuto :: snd s)
  else s.

Definition generar_vuelos_poisson (combustible : nat)
  (exponencial : nat -> Q -> Q) (lambda_hora duracion_horas : Q)
  : option (list Z) :=
  let lambda_min := lambda_hora / 60 in
  let total_min := int_de_float (duracion_horas * 60) in
  match bucle_poisson combustible exponencial lambda_min total_min O
          (Finito 0) [] with
  | None => None
  | Some tiempos_reales =>
      let tiempos_enteros :=
        fst (fold_left (cuerpo_enteros total_min) tiempos_reales ([], [])) in
      Some (ordenar_por Z.leb tiempos_enteros)
  end.

(** [enumerate(l)] counting from [i]. *)
Fixpoint enumerar {A : Type} (i : Z) (l : list A) : list (Z * A) :=
  match l with
  | [] => []
  | x :: l' => (i, x) :: enumerar (i + 1)%Z l'
  end.

Definition crear_aviones (combustible : nat) (exponencial : nat -> Q -> Q)
  (lambda_hora duracion_horas distancia_inicial : Q) : option (list Avion) :=
  match generar_vuelos_poisson combustible exponencial lambda_hora
          duracion_horas with
  | None => None
  | Some tiempos =>
      Some (map (fun it => Avion_init (fst it + 1)%Z (snd it) distancia_inicial)
              (enumerar 0%Z tiempos))
  end.

(** ** Feasibility check, kinematics and disruptions *)

Record EstadoFiltro : Type := mkEstadoFiltro {
  ef_memoria : Memoria;
  ef_resultados : Resultados;
  ef_aviones_validos : list Ref
}.

Definition cuerpo_filtrar (minuto : Z) (duracion_horas : Q)
  (s : EstadoFiltro) (r : Ref) : EstadoFiltro :=
  let h := ef_memoria s in
  let tiempo_llegada_min :=
    tiempo_mas (Finito (inject_Z minuto)) (calcular_tiempo_esperado (h r)) in
  if tiempo_le_bool tiempo_llegada_min (duracion_horas * 60)
  then mkEstadoFiltro h (ef_resultados s) (ef_aviones_validos s ++ [r])
  else mkEstadoFiltro (escribir h r (marcar_desviado (h r)))
         (mas_desviados (ef_resultados s)) (ef_aviones_validos s).

Definition filtrar_aviones_a_tiempo (h : Memoria) (fila_en_vuelo : Fila)
  (minuto : Z) (duracion_horas : Q) (resultados : Resultados)
  : EstadoFiltro * Fila :=
  let ft := obtener_todos h fila_en_vuelo in
  (fold_left (cuerpo_filtrar minuto duracion_horas) (snd ft)
     (mkEstadoFiltro h resultados []),
   fst ft).

(** One iteration of the loop of [avanzar_aviones_un_minuto]. *)
Definition cuerpo_avanzar (minuto : Z) (dt : Q) (s : Memoria * Resultados)
  (r : Ref) : Memoria * Resultados :=
  let h := fst s in
  let res := snd s in
  let avance_nm_por_min := VEL_MARCHA_ATRAS / 60 in
  let avion := h r in
  match estado avion with
  | en_vuelo => (escribir h r (avanzar_minuto avion minuto dt), res)
  | marcha_atras =>
      let a1 := con_posicion avion (posicion avion + avance_nm_por_min * dt) in
      if Qlt_bool DISTANCIA_INICIAL (posicion a1)
      then (escribir h r
              (registrar_estado (con_velocidad (con_estado a1 desviado) 0)
                 minuto None),
            mas_desviados res)
      else (escribir h r (registrar_estado a1 minuto None), res)
  | _ => s
  end.

Definition avanzar_aviones_un_minuto (h : Memoria) (activos : list Ref)
  (minuto : Z) (dt : Q) (resultados : option Resultados)
  : Memoria * Resultados :=
  let res := match resultados with
             | None => mkResultados 0 0 0
             | Some res => res
             end in
  fold_left (cuerpo_avanzar minuto dt) activos (h, res).

(** One iteration of the loop of [cerrar_AEP].  [rand k] is what the [k]-th
    call of [np.random.rand()] returns; the state carries the number of
    draws made.  Dividing a float by zero raises [ZeroDivisionError]. *)
Definition cuerpo_cerrar (prob_interrupcion : Q) (rand : nat -> Q)
  (s : Memoria * nat) (r : Ref) : Resultado (Memoria * nat) :=
  let h := fst s in
  let k := snd s in
  let avion := h r in
  match estado avion with
  | en_vuelo =>
      if Qeq_bool (velocidad_actual avion) 0 then Lanza ZeroDivisionError
      else
        let tiempo_estimado_min :=
          posicion avion / velocidad_actual avion * 60 in
        if Qle_bool tiempo_estimado_min 1 then
          if Qlt_bool (rand k) prob_interrupcion
          then Normal
                 (escribir h r
                    (con_velocidad (con_estado avion marcha_atras)
                       (- VEL_MARCHA_ATRAS)),
                  S k)
          else Normal (h, S k)
        else Normal (h, k)
  | _ => Normal (h, k)
  end.

Definition cerrar_AEP (h : Memoria) (aviones : list Ref)
  (prob_interrupcion : Q) (rand : nat -> Q) (k : nat)
  : Resultado (Memoria * nat) :=
  para_cada (cuerpo_cerrar prob_interrupcion rand) aviones (h, k).

(** [Horario_Tormenta]; [randint low high] is what
    [np.random.randint(low, high)] returns. *)
Definition Horario_Tormenta (randint : Z -> Z -> Z) (tiempo_horas : Q)
  : Resultado (list Z) :=
  let max_minuto := int_de_float (tiempo_horas * 60) in
  if (max_minuto <? 30)%Z then Lanza ValueError
  else
    let inicio := randint 0%Z (max_minuto - 30 + 1)%Z in
    Normal (map (fun i => (inicio + Z.of_nat i)%Z) (seq 0 30)).

(** ** Predicates used in the statements *)

(** Comparisons of a possibly infinite time with a float. *)
Definition tiempo_lt (t : Tiempo) (q : Q) : Prop :=
  match t with
  | Finito x => x < q
  | Infinito => False
  end.

Definition tiempo_ge (t : Tiempo) (q : Q) : Prop :=
  match t with
  | Finito x => q <= x
  | Infinito => True
  end.

(** A time that is not negative. *)
Definition tiempo_no_negativo (t : Tiempo) : Prop :=
  match t with
  | Finito x => 0 <= x
  | Infinito => True
  end.

(** The aircraft that the speed-control pass slows down by 20 knots: not
    reversing, gap ahead under [GAP_MIN], and the reduced speed not under
    the band minimum. *)
Definition reduce_20_nudos (a : Avion) : bool :=
  negb (Estado_eqb (estado a) marcha_atras)
  && match gap_adelante a with
     | None => false
     | Some g =>
         tiempo_lt_bool g GAP_MIN
         && negb (Qlt_bool (velocidad_actual a - 20) (vel_min_actual a))
     end.

(** The aircraft that one tick of [avanzar_aviones_un_minuto] diverts: in
    reverse flight, and past [DISTANCIA_INICIAL] after the tick. *)
Definition sale_del_radar (dt : Q) (a : Avion) : bool :=
  Estado_eqb (estado a) marcha_atras
  && Qlt_bool DISTANCIA_INICIAL (posicion a + VEL_MARCHA_ATRAS / 60 * dt).

(** The aircraft that [filtrar_aviones_a_tiempo] diverts at [minuto] for a
    horizon of [duracion_horas]. *)
Definition llega_tarde (minuto : Z) (duracion_horas : Q) (a : Avion) : bool :=
  negb (tiempo_le_bool
          (tiempo_mas (Finito (inject_Z minuto)) (calcular_tiempo_esperado a))
          (duracion_horas * 60)).

(** [n] successive calls of [avanzar_minuto], for the minutes [ms]. *)
Definition avanzar_minutos (a : Avion) (ms : list Z) (dt : Q) : Avion :=
  fold_left (fun a m => avanzar_minuto a m dt) ms a.

(** The continuous arrival time after [n] draws of scale [escala]. *)
Fixpoint suma_llegadas (exponencial : nat -> Q -> Q) (escala : Q) (n : nat)
  : Q :=
  match n with
  | O => 0
  | S k => suma_llegadas exponencial escala k + exponencial k escala
  end.

(** The order of the keys [(a.posicion, a.num)] of two objects of a store. *)
Definition clave_le (h : Memoria) (r s : Ref) : Prop :=
  posicion (h r) < posicion (h s)
  \/ (posicion (h r) == posicion (h s) /\ (num (h r) <= num (h s))%Z).

(** Two aircraft records that differ at most in the four gap attributes. *)
Definition salvo_gaps (a b : Avion) : Prop :=
  num a = num b /\ tiempo_radar a = tiempo_radar b /\
  posicion a = posicion b /\ estado a = estado b /\
  velocidad_actual a = velocidad_actual b /\
  atraso a = atraso b /\ MarchaAt a = MarchaAt b /\
  historial_posiciones a = historial_posiciones b.


(** ** Reachable stores

    The stores that the operations of the module produce: from freshly
    created aircraft, by creating further aircraft, by the methods of
    [Avion], by the passes of [Fila] and by the per-tick helpers.  Entry
    ranges and tick sizes are not negative. *)
Inductive accesible : Memoria -> Prop :=
| acc_inicial (h : Memoria) :
    (forall r, exists n t d, 0 <= d /\ h r = Avion_init n t d) ->
    accesible h
| acc_crear (h : Memoria) (r : Ref) (n t : Z) (d : Q) :
    accesible h -> 0 <= d -> accesible (escribir h r (Avion_init n t d))
| acc_registrar_estado (h : Memoria) (r : Ref) (m : Z) (v : option Q) :
    accesible h -> accesible (escribir h r (registrar_estado (h r) m v))
| acc_avanzar_minuto (h : Memoria) (r : Ref) (m : Z) (dt : Q) :
    accesible h -> 0 <= dt ->
    accesible (escribir h r (avanzar_minuto (h r) m dt))
| acc_marcar_desviado (h : Memoria) (r : Ref) :
    accesible h -> accesible (escribir h r (marcar_desviado (h r)))
| acc_iniciar_marcha_atras (h : Memoria) (r : Ref) :
    accesible h -> accesible (escribir h r (iniciar_marcha_atras (h r)))
| acc_actualizar_gaps (h : Memoria) (f : Fila) :
    accesible h -> accesible (fst (actualizar_gaps h f))
| acc_actualizar_velocidades (h : Memoria) (f : Fila)
    (res : option Resultados) :
    accesible h -> accesible (ev_memoria (actualizar_velocidades h f res))
| acc_filtrar (h : Memoria) (f : Fila) (m : Z) (d : Q) (res : Resultados) :
    accesible h ->
    accesible (ef_memoria (fst (filtrar_aviones_a_tiempo h f m d res)))
| acc_avanzar_aviones (h : Memoria) (l : list Ref) (m : Z) (dt : Q)
    (res : option Resultados) :
    accesible h -> 0 <= dt ->
    accesible (fst (avanzar_aviones_un_minuto h l m dt res))
| acc_cerrar_AEP (h : Memoria) (l : list Ref) (p : Q) (rand : nat -> Q)
    (k : nat) (h' : Memoria) (k' : nat) :
    accesible h -> cerrar_AEP h l p rand k = Normal (h', k') ->
    accesible h'.

(** ** Example objects *)

(** An aircraft at 120 nm flying at 200 knots with no leader. *)
Definition avion_lejano : Avion :=
  con_velocidad (Avion_init 1 0 120) 200.

(** An aircraft at 10 nm flying at 160 knots, three minutes behind its
    leader. *)
Definition avion_apretado : Avion :=
  con_adelante (con_velocidad (Avion_init 2 3 10) 160) (Some 1%Z)
    (Some (Finito 3)).

Definition memoria_ejemplo : Memoria :=
  fun r => match r with
           | O => avion_lejano
           | _ => avion_apretado
           end.

Definition fila_ejemplo : Fila := mkFila String.EmptyString [0%nat; 1%nat].

(** A lone aircraft that entered at 100 nm and has flown eleven minutes. *)
Definition avion_descendido : Avion :=
  avanzar_minutos (Avion_init 1 0 DISTANCIA_INICIAL)
    (map Z.of_nat (seq 0 11)) DT.

(** An aircraft in reverse flight at 95 nm. *)
Definition avion_en_reversa : Avion :=
  con_velocidad (con_estado (con_posicion (Avion_init 1 0 DISTANCIA_INICIAL) 95)
                   marcha_atras)
    (- VEL_MARCHA_ATRAS).

(** Two ticks of reverse flight for that aircraft, alone in the list. *)
Definition memoria_reversa : Memoria := fun _ => avion_en_reversa.

Definition primer_tick : Memoria * Resultados :=
  avanzar_aviones_un_minuto memoria_reversa [0%nat] 0 1 None.

Definition segundo_tick : Memoria * Resultados :=
  avanzar_aviones_un_minuto (fst primer_tick) [0%nat] 1 1
    (Some (snd primer_tick)).

(** An aircraft that entered at 50 nm and was put in reverse flight at
    once, and one tick for it, alone in the list. *)
Definition avion_entrada_corta : Avion :=
  iniciar_marcha_atras (Avion_init 1 0 50).

Definition tick_entrada_corta : Memoria * Resultados :=
  avanzar_aviones_un_minuto (fun _ => avion_entrada_corta) [0%nat] 0 1 None.

(** An aircraft that entered at 150 nm, flew one minute and was then put in
    reverse flight, and one tick for it, alone in the list. *)
Definition avion_entrada_larga : Avion :=
  iniciar_marcha_atras (avanzar_minuto (Avion_init 2 0 150) 0 DT).

Definition tick_entrada_larga : Memoria * Resultados :=
  avanzar_aviones_un_minuto (fun _ => avion_entrada_larga) [0%nat] 1 1 None.

(** A leader at 80 nm and, behind a reference that [marcar_desviado] has
    been called on, an aircraft at 100 nm that is still in the queue. *)
Definition memoria_con_desviado : Memoria :=
  escribir
    (fun r => match r with
              | O => Avion_init 1 0 80
              | _ => Avion_init 2 0 DISTANCIA_INICIAL
              end)
    1%nat (marcar_desviado (Avion_init 2 0 DISTANCIA_INICIAL)).

(** An aircraft a million nautical miles out. *)
Definition avion_remoto : Avion :=
  con_posicion (Avion_init 1 0 DISTANCIA_INICIAL) 1000000.

(** ** Further methods of [Fila] *)

(** [list.remove(x)] on a list that contains [x]: the first occurrence
    goes.  Objects compare by identity. *)
Fixpoint quitar_primero (x : Ref) (l : list Ref) : list Ref :=
  match l with
  | [] => []
  | y :: l' => if Nat.eqb y x then l' else y :: quitar_primero x l'
  end.

Definition eliminar (h : Memoria) (f : Fila) (avion : Ref) : Fila :=
  ordenar h
    (mkFila (nombre f)
       (if existsb (fun y => Nat.eqb y avion) (aviones f)
        then quitar_primero avion (aviones f)
        else aviones f)).

(** [obtener_primero] sorts the queue and returns its first aircraft, or
    [None] when the queue is empty. *)
Definition obtener_primero (h : Memoria) (f : Fila) : Fila * option Ref :=
  let f' := ordenar h f in
  (f', match aviones f' with
       | [] => None
       | r :: _ => Some r
       end).

(** [len(fila)]. *)
Definition Fila_len (f : Fila) : nat := length (aviones f).

(** The order of the keys [a.posicion] of two objects of a store. *)
Definition posicion_le (h : Memoria) (r s : Ref) : Prop :=
  posicion (h r) <= posicion (h s).

(** [n] as a float. *)
Definition Q_de_nat (n : nat) : Q := inject_Z (Z.of_nat n).

(** ** Flight at the band maximum *)

(** One minute of flight for an aircraft that is first set to the maximum
    speed of its band, and a flight of several such minutes. *)
Definition minuto_a_velocidad_maxima (a : Avion) (m : Z) : Avion :=
  avanzar_minuto (con_velocidad a (vel_max_actual a)) m DT.

Definition vuelo_a_velocidad_maxima (a : Avion) (ms : list Z) : Avion :=
  fold_left minuto_a_velocidad_maxima ms a.

(** ** Further predicates *)

(** The aircraft that the speed-control pass returns in the list
    [marcha_atras]: already reversing, or sent around because 20 knots
    less would be under the band minimum. *)
Definition queda_en_marcha_atras (a : Avion) : bool :=
  Estado_eqb (estado a) marcha_atras
  || match gap_adelante a with
     | None => false
     | Some g =>
         tiempo_lt_bool g GAP_MIN
         && Qlt_bool (velocidad_actual a - 20) (vel_min_actual a)
     end.

(** Two aircraft records that differ at most in state and speed. *)
Definition salvo_estado_y_velocidad (a b : Avion) : Prop :=
  num a = num b /\ tiempo_radar a = tiempo_radar b /\
  posicion a = posicion b /\
  gap_adelante a = gap_adelante b /\ lead_id a = lead_id b /\
  gap_atras a = gap_atras b /\ tail_id a = tail_id b /\
  atraso a = atraso b /\ MarchaAt a = MarchaAt b /\
  historial_posiciones a = historial_posiciones b.

(** A flying aircraft with speed zero. *)
Definition en_vuelo_parado (a : Avion) : Prop :=
  estado a = en_vuelo /\ velocidad_actual a == 0.

(** What a wind interruption makes of an aircraft. *)
Definition interrumpido (a : Avion) : Avion :=
  con_velocidad (con_estado a marcha_atras) (- VEL_MARCHA_ATRAS).

(** An aircraft before and after a wind check that returns: untouched, or
    flying within a minute of the threshold and interrupted. *)
Definition por_el_viento (a a' : Avion) : Prop :=
  a' = a \/
  (estado a = en_vuelo /\
   posicion a / velocidad_actual a * 60 <= 1 /\
   a' = interrumpido a).

(** Identity kept and history only extended, from [a] to [a']. *)
Definition historial_crece (a a' : Avion) : Prop :=
  num a' = num a /\ tiempo_radar a' = tiempo_radar a /\
  exists nuevos,
    historial_posiciones a' = historial_posiciones a ++ nuevos.

(** One mutating operation of the module on the store. *)
Inductive paso : Memoria -> Memoria -> Prop :=
| paso_registrar_estado (h : Memoria) (r : Ref) (m : Z) (v : option Q) :
    paso h (escribir h r (registrar_estado (h r) m v))
| paso_avanzar_minuto (h : Memoria) (r : Ref) (m : Z) (dt : Q) :
    paso h (escribir h r (avanzar_minuto (h r) m dt))
| paso_marcar_desviado (h : Memoria) (r : Ref) :
    paso h (escribir h r (marcar_desviado (h r)))
| paso_iniciar_marcha_atras (h : Memoria) (r : Ref) :
    paso h (escribir h r (iniciar_marcha_atras (h r)))
| paso_actualizar_gaps (h : Memoria) (f : Fila) :
    paso h (fst (actualizar_gaps h f))
| paso_actualizar_velocidades (h : Memoria) (f : Fila)
    (res : option Resultados) :
    paso h (ev_memoria (actualizar_velocidades h f res))
| paso_filtrar (h : Memoria) (f : Fila) (m : Z) (d : Q) (res : Resultados) :
    paso h (ef_memoria (fst (filtrar_aviones_a_tiempo h f m d res)))
| paso_avanzar_aviones (h : Memoria) (l : list Ref) (m : Z) (dt : Q)
    (res : option Resultados) :
    paso h (fst (avanzar_aviones_un_minuto h l m dt res))
| paso_cerrar_AEP (h : Memoria) (l : list Ref) (p : Q) (rand : nat -> Q)
    (k : nat) (h' : Memoria) (k' : nat) :
    cerrar_AEP h l p rand k = Normal (h', k') -> paso h h'.

(** A flying aircraft that has been stopped. *)
Definition avion_parado : Avion :=
  con_estado (marcar_desviado avion_lejano) en_vuelo.

(** * Properties *)

(** ** Comparisons *)

Lemma Qlt_bool_iff (x y : Q) : Qlt_bool x y = true <-> x < y.
Proof.
  unfold Qlt_bool. rewrite negb_true_iff.
  destruct (Qle_bool y x) eqn:E.
  - apply Qle_bool_iff in E. split; [discriminate | intro; lra].
  - split; [intros _ | reflexivity].
    destruct (Qlt_le_dec x y) as [Hlt | Hle]; [exact Hlt |].
    apply Qle_bool_iff in Hle. congruence.
Qed.

Lemma Qlt_bool_false (x y : Q) : Qlt_bool x y = false <-> y <= x.
Proof.
  unfold Qlt_bool. rewrite negb_false_iff. apply Qle_bool_iff.
Qed.

Lemma Qle_bool_false (x y : Q) : Qle_bool x y = false <-> y < x.
Proof.
  rewrite <- Qlt_bool_iff. unfold Qlt_bool.
  destruct (Qle_bool x y); simpl; split; congruence.
Qed.

Lemma tiempo_lt_bool_iff (t : Tiempo) (q : Q) :
  tiempo_lt_bool t q = true <-> tiempo_lt t q.
Proof.
  destruct t; simpl; [apply Qlt_bool_iff | split; [discriminate | tauto]].
Qed.

Lemma tiempo_ge_bool_iff (t : Tiempo) (q : Q) :
  tiempo_ge_bool t q = true <-> tiempo_ge t q.
Proof.
  destruct t; simpl; [apply Qle_bool_iff | tauto].
Qed.

(** Turns the boolean tests of the hypotheses into inequalities. *)
Ltac a_desigualdades :=
  repeat match goal with
    | H : Qlt_bool _ _ = true |- _ => apply Qlt_bool_iff in H
    | H : Qlt_bool _ _ = false |- _ => apply Qlt_bool_false in H
    | H : Qle_bool _ _ = true |- _ => apply Qle_bool_iff in H
    | H : Qle_bool _ _ = false |- _ => apply Qle_bool_false in H
    | H : tiempo_lt_bool _ _ = true |- _ => apply tiempo_lt_bool_iff in H
    | H : tiempo_ge_bool _ _ = true |- _ => apply tiempo_ge_bool_iff in H
    end.

Lemma Estado_eqb_eq (e f : Estado) : Estado_eqb e f = true <-> e = f.
Proof. destruct e, f; simpl; split; congruence. Qed.

Lemma Estado_eqb_neq (e f : Estado) : Estado_eqb e f = false <-> e <> f.
Proof. destruct e, f; simpl; split; congruence. Qed.

(** ** Speed bands *)

Lemma velocidad_permitida_positiva (d : Q) :
  120 <= snd (velocidad_permitida d) /\
  snd (velocidad_permitida d) < fst (velocidad_permitida d) /\
  fst (velocidad_permitida d) <= 500.
Proof.
  unfold velocidad_permitida.
  repeat match goal with
    | |- context [if ?b then _ else _] => destruct b
    end; simpl; lra.
Qed.

(** ** The store *)

Lemma escribir_mismo (h : Memoria) (r : Ref) (a : Avion) : escribir h r a r = a.
Proof. unfold escribir. now rewrite Nat.eqb_refl. Qed.

Lemma escribir_otro (h : Memoria) (r r' : Ref) (a : Avion) :
  r' <> r -> escribir h r a r' = h r'.
Proof.
  intro Hne. unfold escribir.
  destruct (Nat.eqb r' r) eqn:E; [apply Nat.eqb_eq in E; contradiction | reflexivity].
Qed.

Lemma con_estado_mismo (a : Avion) : con_estado a (estado a) = a.
Proof. now destruct a. Qed.

(** ** Loops over the store

    A loop of the source visits a list of references and, at each one,
    mutates at most the object it visits, by a rule that reads this object
    only.  Such loops are folds of a body with the two properties assumed
    below; when no object is listed twice, each listed object ends as one
    iteration leaves it. *)
Section BucleSobreMemoria.

Variable St : Type.
Variable mem : St -> Memoria.
Variable cuerpo : St -> Ref -> St.

Hypothesis cuerpo_marco :
  forall s r r', r' <> r -> mem (cuerpo s r) r' = mem s r'.
Hypothesis cuerpo_local :
  forall s1 s2 r, mem s1 r = mem s2 r ->
                  mem (cuerpo s1 r) r = mem (cuerpo s2 r) r.

Lemma bucle_fuera (l : list Ref) : forall s r,
  ~ In r l -> mem (fold_left cuerpo l s) r = mem s r.
Proof.
  induction l as [| x l IH]; intros s r Hr; simpl; [reflexivity |].
  rewrite IH by (intro; apply Hr; now right).
  apply cuerpo_marco. intro; apply Hr; now left.
Qed.

Lemma bucle_dentro (l : list Ref) : forall s r,
  NoDup l -> In r l ->
  mem (fold_left cuerpo l s) r = mem (cuerpo s r) r.
Proof.
  induction l as [| x l IH]; intros s r Hnd Hin; [destruct Hin |].
  inversion Hnd as [| ? ? Hx Hl]; subst. simpl.
  destruct Hin as [-> | Hin].
  - now apply bucle_fuera.
  - rewrite IH by assumption.
    apply cuerpo_local, cuerpo_marco. intros ->. contradiction.
Qed.

(** A property of all the objects of the store that every iteration
    keeps is kept by the loop. *)
Variable P : Avion -> Prop.
Hypothesis cuerpo_conserva :
  forall s r, (forall r', P (mem s r')) -> forall r', P (mem (cuerpo s r) r').


(** A counter that an iteration increments when the visited object
    satisfies [evento] counts the listed objects that satisfy it at the
    start. *)
Variable cuenta : St -> Z.
Variable evento : Avion -> bool.
Hypothesis cuerpo_cuenta :
  forall s r, cuenta (cuerpo s r)
              = (cuenta s + if evento (mem s r) then 1 else 0)%Z.

Lemma bucle_cuenta (l : list Ref) : forall s,
  NoDup l ->
  cuenta (fold_left cuerpo l s)
  = (cuenta s + Z.of_nat (length (filter (fun r => evento (mem s r)) l)))%Z.
Proof.
  induction l as [| x l IH]; intros s Hnd; simpl; [lia |].
  inversion Hnd as [| ? ? Hx Hl]; subst.
  rewrite IH by assumption. rewrite cuerpo_cuenta.
  assert (Hf : filter (fun r => evento (mem (cuerpo s x) r)) l
               = filter (fun r => evento (mem s r)) l).
  { apply filter_ext_in. intros r Hr.
    rewrite cuerpo_marco; [reflexivity | intros ->; contradiction]. }
  rewrite Hf. destruct (evento (mem s x)); simpl length; lia.
Qed.

(** A list to which an iteration appends the visited reference when its
    object satisfies [elegido] collects, in order, the listed references
    whose objects satisfy it at the start. *)
Variable lista : St -> list Ref.
Variable elegido : Avion -> bool.
Hypothesis cuerpo_lista :
  forall s r, lista (cuerpo s r)
              = if elegido (mem s r) then lista s ++ [r] else lista s.

Lemma bucle_lista (l : list Ref) : forall s,
  NoDup l ->
  lista (fold_left cuerpo l s)
  = lista s ++ filter (fun r => elegido (mem s r)) l.
Proof.
  induction l as [| x l IH]; intros s Hnd; simpl; [now rewrite app_nil_r |].
  inversion Hnd as [| ? ? Hx Hl]; subst.
  rewrite IH by assumption. rewrite cuerpo_lista.
  assert (Hf : filter (fun r => elegido (mem (cuerpo s x) r)) l
               = filter (fun r => elegido (mem s r)) l).
  { apply filter_ext_in. intros r Hr.
    rewrite cuerpo_marco; [reflexivity | intros ->; contradiction]. }
  rewrite Hf. destruct (elegido (mem s x)); [| reflexivity].
  now rewrite <- app_assoc.
Qed.

End BucleSobreMemoria.

(** ** Speed control: [Fila.actualizar_velocidades] *)

Lemma cuerpo_velocidades_marco (s : EstadoVelocidades) (r r' : Ref) :
  r' <> r -> ev_memoria (cuerpo_velocidades s r) r' = ev_memoria s r'.
Proof.
  intro Hne. unfold cuerpo_velocidades.
  repeat match goal with
    | |- context [match ?b with _ => _ end] => destruct b
    end; simpl; try reflexivity; now apply escribir_otro.
Qed.

Lemma cuerpo_velocidades_local (s1 s2 : EstadoVelocidades) (r : Ref) :
  ev_memoria s1 r = ev_memoria s2 r ->
  ev_memoria (cuerpo_velocidades s1 r) r = ev_memoria (cuerpo_velocidades s2 r) r.
Proof.
  intro He. unfold cuerpo_velocidades. rewrite He.
  repeat match goal with
    | |- context [match ?b with _ => _ end] => destruct b
    end; simpl; rewrite ?escribir_mismo; congruence.
Qed.

Lemma cuerpo_velocidades_cuenta (s : EstadoVelocidades) (r : Ref) :
  congestion (ev_resultados (cuerpo_velocidades s r))
  = (congestion (ev_resultados s)
     + if reduce_20_nudos (ev_memoria s r) then 1 else 0)%Z.
Proof.
  unfold cuerpo_velocidades, reduce_20_nudos.
  destruct (Estado_eqb (estado (ev_memoria s r)) marcha_atras); simpl; [lia |].
  destruct (gap_adelante (ev_memoria s r)) as [g |]; simpl; [| lia].
  destruct (tiempo_lt_bool g GAP_MIN); simpl.
  - destruct (Qlt_bool _ _); simpl; lia.
  - destruct (tiempo_ge_bool g GAP_BUFFER); simpl; lia.
Qed.

(** What one pass does to an aircraft listed once in the queue is what one
    iteration of the loop does to it in the initial store. *)
Lemma actualizar_velocidades_en (h : Memoria) (f : Fila)
  (resultados : option Resultados) (r : Ref) :
  NoDup (aviones f) -> In r (aviones f) ->
  forall res evs mas,
    ev_memoria (actualizar_velocidades h f resultados) r
    = ev_memoria (cuerpo_velocidades (mkEstadoVelocidades h res evs mas) r) r.
Proof.
  intros Hnd Hin res evs mas. unfold actualizar_velocidades.
  rewrite (bucle_dentro _ ev_memoria cuerpo_velocidades
             cuerpo_velocidades_marco cuerpo_velocidades_local) by assumption.
  now apply cuerpo_velocidades_local.
Qed.

Lemma marcha_atras_crece (l : list Ref) : forall s x,
  In x (ev_marcha_atras s) ->
  In x (ev_marcha_atras (fold_left cuerpo_velocidades l s)).
Proof.
  induction l as [| y l IH]; intros s x Hx; simpl; [exact Hx |].
  apply IH. unfold cuerpo_velocidades.
  repeat match goal with
    | |- context [match ?b with _ => _ end] => destruct b
    end; simpl; try assumption; apply in_or_app; now left.
Qed.

Lemma marcha_atras_recogido (l : list Ref) : forall s r,
  In r l -> estado (ev_memoria s r) = marcha_atras ->
  In r (ev_marcha_atras (fold_left cuerpo_velocidades l s)).
Proof.
  induction l as [| y l IH]; intros s r Hin He; [destruct Hin |].
  simpl. destruct (Nat.eq_dec y r) as [-> | Hne].
  - apply marcha_atras_crece. unfold cuerpo_velocidades. rewrite He. simpl.
    apply in_or_app. right. now left.
  - destruct Hin as [-> | Hin]; [contradiction |].
    apply IH; [assumption |].
    rewrite cuerpo_velocidades_marco by congruence. exact He.
Qed.

(** C1. One pass of the speed-control policy acts on a flying aircraft of the
    queue by cases on its gap ahead [g].  With no leader, or with
    [g >= 5.0], the speed is raised to the band maximum of the current
    position when it is below it, and nothing else changes.  With
    [4.0 <= g < 5.0] the aircraft is unchanged.  With [g < 4.0] the speed
    drops by exactly 20 knots when the result is not under the band minimum
    (the state stays [en_vuelo]), and otherwise the speed becomes [-200] and
    the state [marcha_atras].  The congestion counter grows by one for each
    aircraft slowed by 20 knots.  A gap of exactly 4.0 leaves the aircraft
    unchanged, a gap of exactly 5.0 goes through the accelerate rule.  The
    queue holds each aircraft once. *)
Theorem C1_politica_de_velocidad (h : Memoria) (f : Fila)
  (resultados : option Resultados) (r : Ref) :
  NoDup (aviones f) -> In r (aviones f) -> estado (h r) = en_vuelo ->
  let s := actualizar_velocidades h f resultados in
  let a := h r in
  let a' := ev_memoria s r in
  let vel_max := vel_max_actual a in
  let vel_min := vel_min_actual a in
  (* no leader, or the buffer is reached *)
  ((gap_adelante a = None \/
    exists g, gap_adelante a = Some g /\ tiempo_ge g GAP_BUFFER) ->
   (velocidad_actual a < vel_max -> a' = con_velocidad a vel_max) /\
   (vel_max <= velocidad_actual a -> a' = a)) /\
  (* between the hard minimum and the buffer *)
  (forall g, gap_adelante a = Some (Finito g) ->
             GAP_MIN <= g -> g < GAP_BUFFER -> a' = a) /\
  (* under the hard minimum *)
  (forall g, gap_adelante a = Some (Finito g) -> g < GAP_MIN ->
     (vel_min <= velocidad_actual a - 20 ->
      a' = con_velocidad a (velocidad_actual a - 20)) /\
     (velocidad_actual a - 20 < vel_min ->
      a' = con_estado (con_velocidad a (- VEL_MARCHA_ATRAS)) marcha_atras)) /\
  (* the congestion counter *)
  congestion (ev_resultados s)
  = (match resultados with None => 0 | Some res => congestion res end
     + Z.of_nat (length (filter (fun x => reduce_20_nudos (h x)) (aviones f))))%Z /\
  (* the two boundaries *)
  (forall g, gap_adelante a = Some (Finito g) -> g == 4 -> a' = a) /\
  (forall g, gap_adelante a = Some (Finito g) -> g == 5 ->
     (velocidad_actual a < vel_max -> a' = con_velocidad a vel_max) /\
     (vel_max <= velocidad_actual a -> a' = a)).
Proof.
  intros Hnd Hin He s a a' vel_max vel_min.
  change (estado a = en_vuelo) in He.
  assert (Ha' : a' = ev_memoria
                  (cuerpo_velocidades
                     (mkEstadoVelocidades h inicializar_resultados [] []) r) r)
    by (apply actualizar_velocidades_en; assumption).
  assert (Hsube : forall g, gap_adelante a = None \/
                       (gap_adelante a = Some g /\ tiempo_ge g GAP_BUFFER) ->
            (velocidad_actual a < vel_max -> a' = con_velocidad a vel_max) /\
            (vel_max <= velocidad_actual a -> a' = a)).
  { intros g Hg. rewrite Ha'. unfold cuerpo_velocidades. simpl ev_memoria.
    fold a. rewrite He. simpl Estado_eqb. cbv iota.
    fold vel_max.
    assert (Hcomun :
      (velocidad_actual a < vel_max ->
       con_estado (if Qlt_bool (velocidad_actual a) vel_max
                   then con_velocidad a vel_max else a) en_vuelo
       = con_velocidad a vel_max) /\
      (vel_max <= velocidad_actual a ->
       con_estado (if Qlt_bool (velocidad_actual a) vel_max
                   then con_velocidad a vel_max else a) en_vuelo = a)).
    { split; intro Hv.
      - apply Qlt_bool_iff in Hv. rewrite Hv.
        unfold con_estado, con_velocidad; simpl. now rewrite He.
      - apply Qlt_bool_false in Hv. rewrite Hv.
        rewrite <- He. apply con_estado_mismo. }
    destruct Hg as [Hg | [Hg Hge]]; rewrite Hg.
    - cbn [ev_memoria]; rewrite escribir_mismo. exact Hcomun.
    - apply tiempo_ge_bool_iff in Hge.
      destruct (tiempo_lt_bool g GAP_MIN) eqn:Hlt.
      + exfalso. a_desigualdades. destruct g; simpl in *; unfold GAP_MIN, GAP_BUFFER in *; [lra | tauto].
      + rewrite Hge. cbn [ev_memoria]; rewrite escribir_mismo. exact Hcomun. }
  assert (Hmedio : forall g, gap_adelante a = Some (Finito g) ->
                     GAP_MIN <= g -> g < GAP_BUFFER -> a' = a).
  { intros g Hg H4 H5. rewrite Ha'. unfold cuerpo_velocidades. simpl ev_memoria.
    fold a. rewrite He, Hg. simpl Estado_eqb. cbv iota. simpl tiempo_lt_bool.
    simpl tiempo_ge_bool.
    apply Qlt_bool_false in H4. rewrite H4.
    apply Qle_bool_false in H5. rewrite H5.
    cbn [ev_memoria]; rewrite escribir_mismo. rewrite <- He. apply con_estado_mismo. }
  split; [| split; [| split; [| split; [| split]]]].
  - intros [Hg | [g Hg]]; [apply (Hsube Infinito) | apply (Hsube g)]; tauto.
  - exact Hmedio.
  - intros g Hg H4. rewrite Ha'. unfold cuerpo_velocidades. simpl ev_memoria.
    fold a. rewrite He, Hg. simpl Estado_eqb. cbv iota. simpl tiempo_lt_bool.
    apply Qlt_bool_iff in H4. rewrite H4. fold vel_min.
    split; intro Hv.
    + apply Qlt_bool_false in Hv. rewrite Hv. cbn [ev_memoria]; rewrite escribir_mismo.
      unfold con_estado, con_velocidad; simpl. now rewrite He.
    + apply Qlt_bool_iff in Hv. rewrite Hv. cbn [ev_memoria]. now rewrite escribir_mismo.
  - subst s. unfold actualizar_velocidades.
    rewrite (bucle_cuenta _ ev_memoria cuerpo_velocidades
               cuerpo_velocidades_marco (fun s => congestion (ev_resultados s))
               reduce_20_nudos cuerpo_velocidades_cuenta) by assumption.
    now destruct resultados.
  - intros g Hg H4. apply (Hmedio g Hg); unfold GAP_MIN, GAP_BUFFER; lra.
  - intros g Hg H5. apply (Hsube (Finito g)). right. split; [exact Hg |].
    simpl. unfold GAP_BUFFER. lra.
Qed.

Lemma C1_testigo :
  NoDup (aviones fila_ejemplo) /\
  In 0%nat (aviones fila_ejemplo) /\
  estado (memoria_ejemplo 0%nat) = en_vuelo /\
  ev_memoria (actualizar_velocidades memoria_ejemplo fila_ejemplo None) 0%nat
  = con_velocidad avion_lejano 500.
Proof.
  assert (Hnd : NoDup (aviones fila_ejemplo)).
  { simpl. repeat constructor; simpl; intuition discriminate. }
  assert (Hin : In 0%nat (aviones fila_ejemplo)) by (simpl; now left).
  assert (He : estado (memoria_ejemplo 0%nat) = en_vuelo) by reflexivity.
  split; [exact Hnd | split; [exact Hin | split; [exact He |]]].
  destruct (C1_politica_de_velocidad memoria_ejemplo fila_ejemplo None 0%nat
              Hnd Hin He) as [Hsube _].
  apply Hsube; [now left | vm_compute; reflexivity].
Defined.

(** Why the queue must hold each aircraft once: the loop visits a repeated
    object twice, and an aircraft three minutes behind its leader at 200
    knots then loses 40 knots in one pass. *)
Example actualizar_velocidades_avion_repetido :
  let a := con_velocidad avion_apretado 200 in
  let s := actualizar_velocidades (fun _ => a)
             (mkFila String.EmptyString [0%nat; 0%nat]) None in
  velocidad_actual (ev_memoria s 0%nat) == 160 /\
  congestion (ev_resultados s) = 2%Z.
Proof. vm_compute. split; reflexivity. Qed.

(** C2. The pass does not clamp a speed above the band maximum: a lone
    aircraft that entered at 100 nm at 300 knots and flew eleven minutes is
    at 45 nm, where the band maximum is 250 knots, still at 300 knots; after
    one pass of [actualizar_velocidades] it is flying at 300 knots, above
    the maximum of its band. *)
Theorem C2_velocidad_sobre_el_maximo :
  let h : Memoria := fun _ => avion_descendido in
  let f := mkFila String.EmptyString [0%nat] in
  let a' := ev_memoria (actualizar_velocidades h f None) 0%nat in
  estado avion_descendido = en_vuelo /\
  posicion avion_descendido == 45 /\
  velocidad_actual avion_descendido == 300 /\
  gap_adelante avion_descendido = None /\
  estado a' = en_vuelo /\
  vel_max_actual a' == 250 /\
  velocidad_actual a' == 300 /\
  vel_max_actual a' < velocidad_actual a'.
Proof.
  vm_compute. repeat split; reflexivity.
Qed.

(** C10. [actualizar_velocidades] leaves an aircraft in state [marcha_atras]
    as it is and collects it in the returned list [marcha_atras].  Any other
    aircraft of the queue, also one that is [aterrizado] or [desviado], ends
    in state [en_vuelo] or [marcha_atras], so a terminal state is lost; its
    position is kept, and its speed may change: with no leader and a speed
    under the band maximum it is raised to this maximum.  The queue holds
    each aircraft once. *)
Theorem C10_marco_de_actualizar_velocidades (h : Memoria) (f : Fila)
  (resultados : option Resultados) (r : Ref) :
  NoDup (aviones f) -> In r (aviones f) ->
  let s := actualizar_velocidades h f resultados in
  let a := h r in
  let a' := ev_memoria s r in
  (estado a = marcha_atras -> a' = a /\ In r (ev_marcha_atras s)) /\
  (estado a <> marcha_atras ->
     (estado a' = en_vuelo \/ estado a' = marcha_atras) /\
     posicion a' = posicion a /\
     (estado a = aterrizado \/ estado a = desviado -> estado a' <> estado a) /\
     (gap_adelante a = None -> velocidad_actual a < vel_max_actual a ->
      a' = con_estado (con_velocidad a (vel_max_actual a)) en_vuelo)).
Proof.
  intros Hnd Hin s a a'.
  assert (Ha' : a' = ev_memoria
                  (cuerpo_velocidades
                     (mkEstadoVelocidades h inicializar_resultados [] []) r) r)
    by (apply actualizar_velocidades_en; assumption).
  split.
  - intro He. split.
    + rewrite Ha'. unfold cuerpo_velocidades. cbn [ev_memoria].
      fold a. rewrite He. reflexivity.
    + subst s. unfold actualizar_velocidades.
      apply marcha_atras_recogido; assumption.
  - intro Hne.
    assert (Hb : Estado_eqb (estado a) marcha_atras = false)
      by now apply Estado_eqb_neq.
    assert (Hcasos :
      (estado a' = en_vuelo \/ estado a' = marcha_atras) /\
      posicion a' = posicion a).
    { rewrite Ha'. unfold cuerpo_velocidades. cbn [ev_memoria].
      fold a. rewrite Hb.
      repeat match goal with
        | |- context [match ?b with _ => _ end] => destruct b
        end; cbn [ev_memoria]; rewrite escribir_mismo; simpl; tauto. }
    destruct Hcasos as [Hest Hpos].
    split; [exact Hest | split; [exact Hpos | split]].
    + intros [Ht | Ht]; rewrite Ht; destruct Hest as [-> | ->]; discriminate.
    + intros Hg Hv. rewrite Ha'. unfold cuerpo_velocidades. cbn [ev_memoria].
      fold a. rewrite Hb, Hg.
      apply Qlt_bool_iff in Hv. rewrite Hv.
      cbn [ev_memoria]. now rewrite escribir_mismo.
Qed.

Lemma C10_testigo :
  NoDup (aviones fila_ejemplo) /\
  In 1%nat (aviones fila_ejemplo) /\
  estado (ev_memoria
            (actualizar_velocidades
               (escribir memoria_ejemplo 1%nat (marcar_desviado avion_apretado))
               fila_ejemplo None) 1%nat)
  <> desviado.
Proof.
  assert (Hnd : NoDup (aviones fila_ejemplo)).
  { simpl. repeat constructor; simpl; intuition discriminate. }
  assert (Hin : In 1%nat (aviones fila_ejemplo)) by (simpl; tauto).
  split; [exact Hnd | split; [exact Hin |]].
  destruct (C10_marco_de_actualizar_velocidades
              (escribir memoria_ejemplo 1%nat (marcar_desviado avion_apretado))
              fila_ejemplo None 1%nat Hnd Hin) as [_ Hotro].
  destruct Hotro as (_ & _ & Hterminal & _); [discriminate |].
  apply Hterminal. now right.
Defined.

(** ** Sorting *)

Section Ordenacion.

Variable A : Type.
Variable leb : A -> A -> bool.
Hypothesis leb_total : forall x y, leb x y = true \/ leb y x = true.

Local Abbreviation R := (fun x y : A => leb x y = true).

Lemma insertar_ordenado_perm (x : A) (l : list A) :
  Permutation (x :: l) (insertar_ordenado leb x l).
Proof.
  induction l as [| y l IH]; simpl; [apply Permutation_refl |].
  destruct (leb x y); [apply Permutation_refl |].
  eapply perm_trans; [apply perm_swap | now apply perm_skip].
Qed.

Lemma ordenar_por_perm (l : list A) : Permutation l (ordenar_por leb l).
Proof.
  induction l as [| x l IH]; simpl; [constructor |].
  eapply perm_trans; [apply perm_skip, IH | apply insertar_ordenado_perm].
Qed.

Lemma insertar_ordenado_HdRel (a x : A) (l : list A) :
  HdRel R a l -> R a x -> HdRel R a (insertar_ordenado leb x l).
Proof.
  intros Hl Hx. destruct l as [| y l]; simpl; [now constructor |].
  destruct (leb x y); constructor; [exact Hx | now inversion Hl].
Qed.

Lemma insertar_ordenado_Sorted (x : A) (l : list A) :
  Sorted R l -> Sorted R (insertar_ordenado leb x l).
Proof.
  induction l as [| y l IH]; intro Hs; simpl.
  - repeat constructor.
  - destruct (leb x y) eqn:E.
    + constructor; [exact Hs | now constructor].
    + inversion Hs as [| ? ? Hs' Hhd]; subst.
      constructor; [now apply IH |].
      apply insertar_ordenado_HdRel; [exact Hhd |].
      destruct (leb_total x y) as [H | H]; [congruence | exact H].
Qed.

Lemma ordenar_por_Sorted (l : list A) : Sorted R (ordenar_por leb l).
Proof.
  induction l as [| x l IH]; simpl; [constructor |].
  now apply insertar_ordenado_Sorted.
Qed.

End Ordenacion.

Lemma Sorted_implica (A : Type) (R R' : A -> A -> Prop) (l : list A) :
  (forall x y, R x y -> R' x y) -> Sorted R l -> Sorted R' l.
Proof.
  intros Himp Hs. induction Hs as [| x l Hs IH Hhd]; constructor.
  - exact IH.
  - destruct Hhd; constructor. now apply Himp.
Qed.

(** ** Gaps: [Fila.actualizar_gaps] *)

Lemma clave_posicion_num_leb_iff (h : Memoria) (r s : Ref) :
  clave_posicion_num_leb h r s = true <-> clave_le h r s.
Proof.
  unfold clave_posicion_num_leb, clave_le.
  rewrite orb_true_iff, andb_true_iff, Qlt_bool_iff, Qeq_bool_iff, Z.leb_le.
  tauto.
Qed.

Lemma clave_posicion_num_leb_total (h : Memoria) (r s : Ref) :
  clave_posicion_num_leb h r s = true \/ clave_posicion_num_leb h s r = true.
Proof.
  rewrite !clave_posicion_num_leb_iff. unfold clave_le.
  destruct (Qlt_le_dec (posicion (h r)) (posicion (h s))) as [H | H]; [tauto |].
  destruct (Qlt_le_dec (posicion (h s)) (posicion (h r))) as [H' | H']; [tauto |].
  assert (posicion (h r) == posicion (h s)) by lra.
  assert (posicion (h s) == posicion (h r)) by lra.
  destruct (Z.le_ge_cases (num (h r)) (num (h s))); tauto.
Qed.

Lemma clave_le_trans (h : Memoria) (r s t : Ref) :
  clave_le h r s -> clave_le h s t -> clave_le h r t.
Proof.
  unfold clave_le. intros [H1 | [H1 N1]] [H2 | [H2 N2]].
  - left; lra.
  - left; lra.
  - left; lra.
  - right; split; [lra | lia].
Qed.

Lemma salvo_gaps_refl (a : Avion) : salvo_gaps a a.
Proof. unfold salvo_gaps; tauto. Qed.

Lemma salvo_gaps_trans (a b c : Avion) :
  salvo_gaps a b -> salvo_gaps b c -> salvo_gaps a c.
Proof. unfold salvo_gaps; intuition congruence. Qed.

(** An iteration assigns only gap attributes, and only at index [i]. *)
Lemma cuerpo_gaps_otro (avs : list Ref) (n : nat) (h : Memoria) (i : nat)
  (r : Ref) :
  r <> nth i avs O -> cuerpo_gaps avs n h i r = h r.
Proof.
  intro Hne. unfold cuerpo_gaps.
  repeat match goal with
    | |- context [if ?b then _ else _] => destruct b
    end; rewrite !escribir_otro by assumption; reflexivity.
Qed.

Lemma cuerpo_gaps_salvo_gaps (avs : list Ref) (n : nat) (h : Memoria)
  (i : nat) (r : Ref) :
  salvo_gaps (cuerpo_gaps avs n h i r) (h r).
Proof.
  destruct (Nat.eq_dec r (nth i avs O)) as [-> | Hne].
  - unfold cuerpo_gaps.
    repeat match goal with
      | |- context [if ?b then _ else _] => destruct b
      end; rewrite !escribir_mismo; unfold salvo_gaps; simpl; tauto.
  - rewrite cuerpo_gaps_otro by assumption. apply salvo_gaps_refl.
Qed.

Lemma escribir_con_adelante_datos (h : Memoria) (r x : Ref) (l : option Z)
  (g : option Tiempo) :
  posicion (escribir h r (con_adelante (h r) l g) x) = posicion (h x) /\
  num (escribir h r (con_adelante (h r) l g) x) = num (h x) /\
  velocidad_actual (escribir h r (con_adelante (h r) l g) x)
  = velocidad_actual (h x).
Proof.
  unfold escribir. destruct (Nat.eqb x r) eqn:E.
  - apply Nat.eqb_eq in E. subst x. simpl. tauto.
  - tauto.
Qed.

(** The object that an iteration leaves at its index: the one that was
    there, with the four gap attributes computed from the positions, speeds
    and ids in the store. *)
Lemma cuerpo_gaps_en (avs : list Ref) (n : nat) (h : Memoria) (i : nat) :
  let r := nth i avs O in
  let lead := nth (i - 1) avs O in
  let tail := nth (i + 1) avs O in
  cuerpo_gaps avs n h i r
  = con_atras
      (con_adelante (h r)
         (if Nat.eqb i 0 then None else Some (num (h lead)))
         (if Nat.eqb i 0 then None
          else Some (if Qlt_bool 0 (velocidad_actual (h lead))
                     then Finito ((posicion (h r) - posicion (h lead))
                                  / velocidad_actual (h lead) * 60)
                     else Infinito)))
      (if Nat.eqb i (n - 1) then None else Some (num (h tail)))
      (if Nat.eqb i (n - 1) then None
       else Some (if Qlt_bool 0 (velocidad_actual (h r))
                  then Finito ((posicion (h tail) - posicion (h r))
                               / velocidad_actual (h r) * 60)
                  else Infinito)).
Proof.
  intros r lead tail. unfold cuerpo_gaps. fold r lead tail.
  set (l := if Nat.eqb i 0 then None else Some (num (h lead))).
  set (g := if Nat.eqb i 0 then None
            else Some (if Qlt_bool 0 (velocidad_actual (h lead))
                       then Finito ((posicion (h r) - posicion (h lead))
                                    / velocidad_actual (h lead) * 60)
                       else Infinito)).
  assert (H1 : (if Nat.eqb i 0 then escribir h r (con_adelante (h r) None None)
                else if Qlt_bool 0 (velocidad_actual (h lead))
                     then escribir h r
                            (con_adelante (h r) (Some (num (h lead)))
                               (Some (Finito ((posicion (h r) - posicion (h lead))
                                              / velocidad_actual (h lead) * 60))))
                     else escribir h r
                            (con_adelante (h r) (Some (num (h lead)))
                               (Some Infinito)))
               = escribir h r (con_adelante (h r) l g)).
  { subst l g. destruct (Nat.eqb i 0); [reflexivity |].
    destruct (Qlt_bool 0 (velocidad_actual (h lead))); reflexivity. }
  rewrite H1.
  destruct (escribir_con_adelante_datos h r tail l g) as (Hp & Hn & _).
  destruct (escribir_con_adelante_datos h r r l g) as (Hp' & _ & Hv').
  rewrite Hp, Hn, Hp', Hv'.
  destruct (Nat.eqb i (n - 1)); [| destruct (Qlt_bool 0 (velocidad_actual (h r)))];
    rewrite !escribir_mismo; reflexivity.
Qed.

(** What an iteration leaves at its index depends on the object there and
    on the non-gap attributes of the neighbours. *)
Lemma cuerpo_gaps_local (avs : list Ref) (n : nat) (h1 h2 : Memoria) (i : nat) :
  (forall r, salvo_gaps (h1 r) (h2 r)) ->
  h1 (nth i avs O) = h2 (nth i avs O) ->
  cuerpo_gaps avs n h1 i (nth i avs O) = cuerpo_gaps avs n h2 i (nth i avs O).
Proof.
  intros Hs He. rewrite !cuerpo_gaps_en.
  destruct (Hs (nth (i - 1) avs O)) as (Hn & _ & Hp & _ & Hv & _).
  destruct (Hs (nth (i + 1) avs O)) as (Hn' & _ & Hp' & _ & _).
  now rewrite He, Hn, Hp, Hv, Hn', Hp'.
Qed.

(** The loop of [actualizar_gaps] after its first [k] iterations, on a list
    without repetition. *)
Lemma bucle_gaps (avs : list Ref) (n : nat) (h0 : Memoria) :
  NoDup avs ->
  forall k, (k <= length avs)%nat ->
    let hk := fold_left (cuerpo_gaps avs n) (seq 0 k) h0 in
    (forall r, salvo_gaps (hk r) (h0 r)) /\
    (forall i, (i < k)%nat ->
               hk (nth i avs O) = cuerpo_gaps avs n h0 i (nth i avs O)) /\
    (forall r, (forall i, (i < k)%nat -> r <> nth i avs O) -> hk r = h0 r).
Proof.
  intros Hnd. induction k as [| k IH]; intro Hk.
  - simpl. split; [| split].
    + intro r. apply salvo_gaps_refl.
    + intros i Hi. lia.
    + reflexivity.
  - rewrite seq_S, fold_left_app. simpl.
    destruct IH as (IH1 & IH2 & IH3); [lia |].
    set (hk := fold_left (cuerpo_gaps avs n) (seq 0 k) h0) in *.
    assert (Hdist : forall i, (i < k)%nat -> nth i avs O <> nth k avs O).
    { intros i Hi He.
      rewrite (NoDup_nth avs O) in Hnd.
      specialize (Hnd i k ltac:(lia) ltac:(lia) He). lia. }
    split; [| split].
    + intro r. eapply salvo_gaps_trans; [apply cuerpo_gaps_salvo_gaps | apply IH1].
    + intros i Hi. destruct (Nat.eq_dec i k) as [-> | Hne].
      * apply cuerpo_gaps_local; [exact IH1 |].
        apply IH3. intros i Hi' He. now apply (Hdist i Hi').
      * rewrite cuerpo_gaps_otro by (apply Hdist; lia).
        apply IH2. lia.
    + intros r Hr. rewrite cuerpo_gaps_otro by (apply Hr; lia).
      apply IH3. intros i Hi. apply Hr. lia.
Qed.

(** C3. [actualizar_gaps] sorts the queue in ascending order of
    [(posicion, num)] and changes only gap attributes.  In the sorted queue
    the first aircraft has no [lead_id] and no [gap_adelante], the last has
    no [tail_id] and no [gap_atras]; an aircraft with a leader has the
    leader's id and [gap_adelante = (own position - leader's position) /
    leader's speed * 60] when the leader's speed is positive, infinity
    otherwise; an aircraft with a follower has the follower's id and
    [gap_atras = (follower's position - own position) / own speed * 60] when
    its own speed is positive, infinity otherwise.  The queue holds each
    aircraft once. *)
Theorem C3_gaps_por_vecinos (h : Memoria) (f : Fila) :
  NoDup (aviones f) ->
  let h' := fst (actualizar_gaps h f) in
  let avs := aviones (snd (actualizar_gaps h f)) in
  Permutation (aviones f) avs /\
  StronglySorted (clave_le h) avs /\
  (forall r, salvo_gaps (h' r) (h r)) /\
  (forall r, nth_error avs 0 = Some r ->
     lead_id (h' r) = None /\ gap_adelante (h' r) = None) /\
  (forall r, nth_error avs (length avs - 1) = Some r ->
     tail_id (h' r) = None /\ gap_atras (h' r) = None) /\
  (forall i lead r,
     nth_error avs i = Some lead -> nth_error avs (S i) = Some r ->
     lead_id (h' r) = Some (num (h lead)) /\
     (0 < velocidad_actual (h lead) ->
      gap_adelante (h' r)
      = Some (Finito ((posicion (h r) - posicion (h lead))
                      / velocidad_actual (h lead) * 60))) /\
     (velocidad_actual (h lead) <= 0 ->
      gap_adelante (h' r) = Some Infinito)) /\
  (forall i r tail,
     nth_error avs i = Some r -> nth_error avs (S i) = Some tail ->
     tail_id (h' r) = Some (num (h tail)) /\
     (0 < velocidad_actual (h r) ->
      gap_atras (h' r)
      = Some (Finito ((posicion (h tail) - posicion (h r))
                      / velocidad_actual (h r) * 60))) /\
     (velocidad_actual (h r) <= 0 ->
      gap_atras (h' r) = Some Infinito)).
Proof.
  intros Hnd h' avs.
  assert (Hperm : Permutation (aviones f) avs)
    by apply ordenar_por_perm.
  assert (Hnd' : NoDup avs) by (eapply Permutation_NoDup; eassumption).
  destruct (bucle_gaps avs (length avs) h Hnd' (length avs) (le_n _))
    as (Hsalvo & Hen & _).
  change (fold_left (cuerpo_gaps avs (length avs)) (seq 0 (length avs)) h)
    with h' in Hsalvo, Hen.
  assert (Hnth : forall i r, nth_error avs i = Some r ->
            (i < length avs)%nat /\
            h' r = cuerpo_gaps avs (length avs) h i (nth i avs O) /\
            nth i avs O = r).
  { intros i r Hi.
    assert (Hlt : (i < length avs)%nat)
      by (apply nth_error_Some; congruence).
    assert (Hr : nth i avs O = r) by now apply nth_error_nth.
    split; [exact Hlt | split; [| exact Hr]].
    rewrite <- Hr at 1. now apply Hen. }
  split; [exact Hperm |].
  split.
  { apply Sorted_StronglySorted.
    - intros x y z. apply clave_le_trans.
    - eapply Sorted_implica;
        [| apply (ordenar_por_Sorted _ _ (clave_posicion_num_leb_total h))].
      intros x y. apply clave_posicion_num_leb_iff. }
  split; [exact Hsalvo |].
  split; [| split; [| split]].
  - intros r Hr. destruct (Hnth _ _ Hr) as (_ & -> & _).
    rewrite cuerpo_gaps_en. simpl. tauto.
  - intros r Hr. destruct (Hnth _ _ Hr) as (_ & -> & _).
    rewrite cuerpo_gaps_en. rewrite Nat.eqb_refl. simpl. tauto.
  - intros i lead r Hl Hr.
    destruct (Hnth _ _ Hr) as (_ & -> & Hr').
    destruct (Hnth _ _ Hl) as (_ & _ & Hl').
    rewrite cuerpo_gaps_en.
    replace (S i - 1)%nat with i by lia. rewrite Hl', Hr'.
    cbn [Nat.eqb lead_id gap_adelante con_atras con_adelante].
    split; [reflexivity | split; intro Hv].
    + apply Qlt_bool_iff in Hv. now rewrite Hv.
    + apply Qlt_bool_false in Hv. now rewrite Hv.
  - intros i r tail Hr Ht.
    destruct (Hnth _ _ Hr) as (_ & -> & Hr').
    destruct (Hnth _ _ Ht) as (Hlt & _ & Ht').
    rewrite cuerpo_gaps_en.
    replace (i + 1)%nat with (S i) by lia. rewrite Ht', Hr'.
    assert (Hlast : Nat.eqb i (length avs - 1) = false)
      by (apply Nat.eqb_neq; lia).
    rewrite Hlast.
    cbn [tail_id gap_atras con_atras con_adelante].
    split; [reflexivity | split; intro Hv].
    + apply Qlt_bool_iff in Hv. now rewrite Hv.
    + apply Qlt_bool_false in Hv. now rewrite Hv.
Qed.

Lemma C3_testigo :
  NoDup (aviones fila_ejemplo) /\
  lead_id (fst (actualizar_gaps memoria_ejemplo fila_ejemplo) 0%nat) = Some 2%Z.
Proof.
  assert (Hnd : NoDup (aviones fila_ejemplo)).
  { simpl. repeat constructor; simpl; intuition discriminate. }
  split; [exact Hnd |].
  destruct (C3_gaps_por_vecinos memoria_ejemplo fila_ejemplo Hnd)
    as (_ & _ & _ & _ & _ & Hlead & _).
  destruct (Hlead 0%nat 1%nat 0%nat eq_refl eq_refl) as [H _].
  exact H.
Defined.

(** ** Kinematics: [Avion.avanzar_minuto] and the reachable stores *)



















(** Why the statement below is about reachable stores: [avanzar_minuto] on
    its own moves a flying aircraft away when its speed is negative, a
    state that no operation of the module produces. *)
Example avanzar_minuto_velocidad_negativa :
  let a := con_velocidad (Avion_init 1 0 50) (- VEL_MARCHA_ATRAS) in
  estado a = en_vuelo /\ posicion a < posicion (avanzar_minuto a 0 DT).
Proof. vm_compute. split; reflexivity. Qed.



(** ** Reverse flight: [avanzar_aviones_un_minuto] *)

Lemma cuerpo_avanzar_marco (m : Z) (dt : Q) (s : Memoria * Resultados)
  (r r' : Ref) :
  r' <> r -> fst (cuerpo_avanzar m dt s r) r' = fst s r'.
Proof.
  intro Hne. unfold cuerpo_avanzar.
  destruct (estado (fst s r)); try reflexivity.
  - cbn [fst]. now apply escribir_otro.
  - destruct (Qlt_bool _ _); cbn [fst]; now apply escribir_otro.
Qed.

Lemma cuerpo_avanzar_local (m : Z) (dt : Q) (s1 s2 : Memoria * Resultados)
  (r : Ref) :
  fst s1 r = fst s2 r ->
  fst (cuerpo_avanzar m dt s1 r) r = fst (cuerpo_avanzar m dt s2 r) r.
Proof.
  intro He. unfold cuerpo_avanzar. rewrite He.
  destruct (estado (fst s2 r)); try assumption.
  - cbn [fst]. now rewrite !escribir_mismo.
  - cbn [posicion con_posicion].
    destruct (Qlt_bool _ _); cbn [fst]; now rewrite !escribir_mismo.
Qed.

Lemma cuerpo_avanzar_cuenta (m : Z) (dt : Q) (s : Memoria * Resultados)
  (r : Ref) :
  desviados (snd (cuerpo_avanzar m dt s r))
  = (desviados (snd s) + if sale_del_radar dt (fst s r) then 1 else 0)%Z.
Proof.
  unfold cuerpo_avanzar, sale_del_radar.
  destruct (estado (fst s r)); simpl; try lia.
  destruct (Qlt_bool _ _); simpl; lia.
Qed.

(** C5, as amended.  One tick of [avanzar_aviones_un_minuto] moves an
    aircraft in state [marcha_atras] away by exactly
    [VEL_MARCHA_ATRAS / 60 * dt] nm.  When the new position exceeds the
    fixed range [DISTANCIA_INICIAL] of the module (100 nm, the default entry
    range), whatever range the aircraft itself entered at, the aircraft
    becomes [desviado] with speed 0, and otherwise it stays [marcha_atras]
    with its speed; the tick adds to the counter of diverted aircraft the
    number of aircraft it diverts.  The list holds each aircraft once. *)
Theorem C5_marcha_atras_y_desvio (h : Memoria) (activos : list Ref)
  (minuto : Z) (dt : Q) (resultados : option Resultados) (r : Ref) :
  NoDup activos -> In r activos -> estado (h r) = marcha_atras ->
  let s := avanzar_aviones_un_minuto h activos minuto dt resultados in
  let a := h r in
  let a' := fst s r in
  posicion a' = posicion a + VEL_MARCHA_ATRAS / 60 * dt /\
  (DISTANCIA_INICIAL < posicion a' ->
   estado a' = desviado /\ velocidad_actual a' = 0) /\
  (posicion a' <= DISTANCIA_INICIAL ->
   estado a' = marcha_atras /\ velocidad_actual a' = velocidad_actual a) /\
  desviados (snd s)
  = (match resultados with None => 0 | Some res => desviados res end
     + Z.of_nat (length (filter (fun x => sale_del_radar dt (h x)) activos)))%Z.
Proof.
  intros Hnd Hin He s a a'.
  assert (Ha' : a' = fst (cuerpo_avanzar minuto dt (h, inicializar_resultados) r) r).
  { subst a' s. unfold avanzar_aviones_un_minuto.
    rewrite (bucle_dentro _ fst (cuerpo_avanzar minuto dt)
               (cuerpo_avanzar_marco minuto dt)
               (cuerpo_avanzar_local minuto dt)) by assumption.
    now apply cuerpo_avanzar_local. }
  unfold cuerpo_avanzar in Ha'. cbn [fst snd] in Ha'. fold a in Ha'.
  change (estado a = marcha_atras) in He. rewrite He in Ha'.
  cbn [posicion con_posicion] in Ha'.
  split; [| split; [| split]].
  - rewrite Ha'. destruct (Qlt_bool _ _); cbn [fst];
      rewrite escribir_mismo; reflexivity.
  - rewrite Ha'. destruct (Qlt_bool _ _) eqn:E; cbn [fst];
      rewrite escribir_mismo; simpl; intro Hp; [tauto |].
    a_desigualdades. lra.
  - rewrite Ha'. destruct (Qlt_bool _ _) eqn:E; cbn [fst];
      rewrite escribir_mismo; simpl; intro Hp; [| tauto].
    a_desigualdades. lra.
  - subst s. unfold avanzar_aviones_un_minuto.
    rewrite (bucle_cuenta _ fst (cuerpo_avanzar minuto dt)
               (cuerpo_avanzar_marco minuto dt)
               (fun s => desviados (snd s)) (sale_del_radar dt)
               (cuerpo_avanzar_cuenta minuto dt)) by assumption.
    now destruct resultados.
Qed.

Lemma C5_testigo :
  NoDup [0%nat] /\ In 0%nat [0%nat] /\
  estado (memoria_reversa 0%nat) = marcha_atras /\
  estado (fst primer_tick 0%nat) = marcha_atras /\
  estado (fst segundo_tick 0%nat) = desviado /\
  velocidad_actual (fst segundo_tick 0%nat) = 0 /\
  desviados (snd segundo_tick) = 1%Z.
Proof.
  assert (Hnd : NoDup [0%nat]) by (repeat constructor; simpl; tauto).
  assert (Hin : In 0%nat [0%nat]) by (simpl; tauto).
  assert (He0 : estado (memoria_reversa 0%nat) = marcha_atras) by reflexivity.
  destruct (C5_marcha_atras_y_desvio memoria_reversa [0%nat] 0 1 None 0%nat
              Hnd Hin He0)
    as (Hp1 & _ & Hsigue & Hc1).
  fold primer_tick in Hp1, Hsigue, Hc1.
  assert (He1 : estado (fst primer_tick 0%nat) = marcha_atras).
  { apply Hsigue. rewrite Hp1. vm_compute. discriminate. }
  destruct (C5_marcha_atras_y_desvio (fst primer_tick) [0%nat] 1 1
              (Some (snd primer_tick)) 0%nat Hnd Hin He1)
    as (Hp2 & Hsale & _ & Hc2).
  fold segundo_tick in Hp2, Hsale, Hc2.
  assert (Hfuera : DISTANCIA_INICIAL < posicion (fst segundo_tick 0%nat)).
  { rewrite Hp2, Hp1. vm_compute. reflexivity. }
  destruct (Hsale Hfuera) as [He2 Hv2].
  split; [exact Hnd | split; [exact Hin | split; [exact He0 |]]].
  split; [exact He1 | split; [exact He2 | split; [exact Hv2 |]]].
  rewrite Hc2, Hc1. vm_compute. reflexivity.
Defined.

(** C5 as stated fails: the loop compares with the constant
    [DISTANCIA_INICIAL], not with the range the aircraft entered at, which
    an aircraft does not keep.  An aircraft that entered at 50 nm and
    reverses from there is past its entry range after one tick (53.33 nm)
    and is still [marcha_atras], not diverted and not counted; one that
    entered at 150 nm and reverses from 141.67 nm is [desviado] with speed 0
    and counted after one tick, at 145 nm, short of its entry range. *)
Lemma C5_contraejemplo :
  ((posicion (Avion_init 1 0 50) = 50) /\
   (estado avion_entrada_corta = marcha_atras) /\
   (50 < posicion (fst tick_entrada_corta 0%nat)) /\
   (estado (fst tick_entrada_corta 0%nat) = marcha_atras) /\
   (estado (fst tick_entrada_corta 0%nat) <> desviado) /\
   (desviados (snd tick_entrada_corta) = 0%Z)) /\
  ((posicion (Avion_init 2 0 150) = 150) /\
   (estado avion_entrada_larga = marcha_atras) /\
   (posicion (fst tick_entrada_larga 0%nat) <= 150) /\
   (estado (fst tick_entrada_larga 0%nat) = desviado) /\
   (velocidad_actual (fst tick_entrada_larga 0%nat) = 0) /\
   (desviados (snd tick_entrada_larga) = 1%Z)).
Proof.
  split.
  - split; [reflexivity |]. split; [reflexivity |].
    split; [vm_compute; reflexivity |]. split; [reflexivity |].
    split; [| reflexivity].
    intro H. vm_compute in H. discriminate H.
  - split; [reflexivity |]. split; [reflexivity |].
    split; [vm_compute; discriminate |]. split; [reflexivity |].
    split; reflexivity.
Qed.

(** ** Arrival generator: [generar_vuelos_poisson] and [crear_aviones] *)

Lemma int_de_float_no_negativo (q : Q) : 0 <= q -> (0 <= int_de_float q)%Z.
Proof.
  intro Hq. unfold int_de_float. apply Z.quot_pos; [| lia].
  unfold Qle in Hq. simpl in Hq. lia.
Qed.

Lemma int_de_float_cota (q : Q) :
  (0 < int_de_float q)%Z -> inject_Z (int_de_float q) <= q.
Proof.
  unfold int_de_float. destruct q as [n d]. simpl. intro Hpos.
  assert (Hn : (0 <= n)%Z).
  { destruct (Z.lt_ge_cases n 0) as [Hneg | Hge]; [| exact Hge].
    pose proof (Z.quot_opp_l n (Z.pos d) ltac:(lia)) as Ho.
    pose proof (Z.quot_pos (- n) (Z.pos d) ltac:(lia) ltac:(lia)). lia. }
  unfold Qle, inject_Z. simpl.
  pose proof (Z.mul_quot_le n (Z.pos d) Hn ltac:(lia)). lia.
Qed.

Section PrimerBucle.

Variable exponencial : nat -> Q -> Q.
Variable lambda_min : Q.
Variable total_min : Z.

(** With no arrivals per minute the first draw is infinite and the loop
    ends with what it had. *)
Lemma bucle_poisson_sin_tasa (c : nat) (k : nat) (tiempo : Tiempo)
  (acc : list Q) :
  lambda_min <= 0 ->
  bucle_poisson (S (S c)) exponencial lambda_min total_min k tiempo acc
  = Some acc.
Proof.
  intro Hl. apply Qlt_bool_false in Hl.
  cbn [bucle_poisson]. rewrite Hl.
  destruct (tiempo_lt_bool tiempo (inject_Z total_min)); [| reflexivity].
  destruct tiempo; reflexivity.
Qed.

Hypothesis tasa_positiva : 0 < lambda_min.

(** The loop ends as soon as the draws add up to the horizon. *)
Lemma bucle_poisson_termina (n : nat) :
  inject_Z total_min <= suma_llegadas exponencial (1 / lambda_min) n ->
  forall d k c acc,
    (k + d = n)%nat -> (d < c)%nat ->
    exists l,
      bucle_poisson c exponencial lambda_min total_min k
        (Finito (suma_llegadas exponencial (1 / lambda_min) k)) acc
      = Some l.
Proof.
  intro Hn.
  assert (Htasa : Qlt_bool 0 lambda_min = true) by now apply Qlt_bool_iff.
  induction d as [| d IH]; intros k c acc Hk Hc;
    (destruct c as [| c]; [lia |]); cbn [bucle_poisson tiempo_lt_bool].
  - replace k with n by lia.
    apply Qlt_bool_false in Hn. rewrite Hn. now exists acc.
  - destruct (Qlt_bool _ (inject_Z total_min)); [| now exists acc].
    rewrite Htasa. cbn [tiempo_mas].
    apply (IH (S k)); lia.
Qed.

Hypothesis sorteo_no_negativo : forall k s, 0 <= exponencial k s.

(** The accepted times are not negative and lie before the horizon. *)
Lemma bucle_poisson_cotas (c : nat) : forall k tiempo acc l,
  tiempo_no_negativo tiempo ->
  Forall (fun t => 0 <= t /\ t < inject_Z total_min) acc ->
  bucle_poisson c exponencial lambda_min total_min k tiempo acc = Some l ->
  Forall (fun t => 0 <= t /\ t < inject_Z total_min) l.
Proof.
  assert (Htasa : Qlt_bool 0 lambda_min = true) by now apply Qlt_bool_iff.
  induction c as [| c IH]; intros k tiempo acc l Ht Hacc Hrun;
    cbn [bucle_poisson] in Hrun; [discriminate |].
  destruct (tiempo_lt_bool tiempo (inject_Z total_min));
    [| now inversion Hrun; subst].
  rewrite Htasa in Hrun.
  destruct tiempo as [x |]; cbn [tiempo_mas] in Hrun.
  - simpl in Ht. pose proof (sorteo_no_negativo k (1 / lambda_min)) as Hd.
    apply IH in Hrun; [exact Hrun | simpl; lra |].
    destruct (Qlt_bool (x + exponencial k (1 / lambda_min)) _) eqn:E;
      [| exact Hacc].
    apply Forall_app. split; [exact Hacc |].
    constructor; [| constructor]. a_desigualdades. lra.
  - apply IH in Hrun; [exact Hrun | exact I | exact Hacc].
Qed.

End PrimerBucle.

(** The collision loop moves forward to a minute that is free whenever it
    is still before the horizon. *)
Lemma desplazar_libre (ocupados : list Z) (total_min : Z) (n : nat) :
  forall minuto,
    (total_min - minuto <= Z.of_nat n)%Z ->
    (minuto <= desplazar n ocupados total_min minuto)%Z /\
    ((desplazar n ocupados total_min minuto < total_min)%Z ->
     ~ In (desplazar n ocupados total_min minuto) ocupados).
Proof.
  induction n as [| n IH]; intros minuto Hn; cbn [desplazar].
  - split; lia.
  - destruct (existsb (Z.eqb minuto) ocupados) eqn:Hex; cbn [andb].
    + destruct (Z.ltb_spec minuto total_min) as [Hlt | Hge].
      * destruct (IH (minuto + 1)%Z ltac:(lia)) as [Hle Hlibre].
        split; [lia | exact Hlibre].
      * split; lia.
    + split; [lia |]. intros _ Hin.
      assert (Hsome : existsb (Z.eqb minuto) ocupados = true).
      { apply existsb_exists. exists minuto. split; [exact Hin | apply Z.eqb_refl]. }
      congruence.
Qed.

(** What the second loop keeps true of [(tiempos_enteros, ocupados)]. *)
Lemma cuerpo_enteros_conserva (total_min : Z) (s : list Z * list Z) (t : Q) :
  0 <= t ->
  NoDup (fst s) /\ (forall x, In x (fst s) <-> In x (snd s)) /\
  Forall (fun m => (0 <= m < total_min)%Z) (fst s) ->
  NoDup (fst (cuerpo_enteros total_min s t)) /\
  (forall x, In x (fst (cuerpo_enteros total_min s t))
             <-> In x (snd (cuerpo_enteros total_min s t))) /\
  Forall (fun m => (0 <= m < total_min)%Z) (fst (cuerpo_enteros total_min s t)).
Proof.
  intros Ht (Hnd & Hoc & Hran). unfold cuerpo_enteros.
  pose proof (int_de_float_no_negativo t Ht) as H0.
  destruct (desplazar_libre (snd s) total_min
              (Z.to_nat (total_min - int_de_float t)) (int_de_float t)
              ltac:(lia)) as [Hle Hlibre].
  set (minuto := desplazar _ _ _ _) in *.
  destruct (Z.ltb_spec minuto total_min) as [Hlt | Hge];
    [| split; [exact Hnd | split; [exact Hoc | exact Hran]]].
  cbn [fst snd]. specialize (Hlibre Hlt). split; [| split].
  - apply NoDup_app; [exact Hnd | repeat constructor; simpl; tauto |].
    intros x Hx [<- | []]. apply Hlibre. now apply Hoc.
  - intro x. rewrite in_app_iff. simpl. rewrite Hoc. tauto.
  - apply Forall_app. split; [exact Hran |]. constructor; [lia | constructor].
Qed.

Lemma bucle_enteros_conserva (total_min : Z) (tiempos_reales : list Q) :
  forall s,
    Forall (fun t => 0 <= t) tiempos_reales ->
    NoDup (fst s) /\ (forall x, In x (fst s) <-> In x (snd s)) /\
    Forall (fun m => (0 <= m < total_min)%Z) (fst s) ->
    NoDup (fst (fold_left (cuerpo_enteros total_min) tiempos_reales s)) /\
    Forall (fun m => (0 <= m < total_min)%Z)
      (fst (fold_left (cuerpo_enteros total_min) tiempos_reales s)).
Proof.
  induction tiempos_reales as [| t l IH]; intros s Hpos Hinv; cbn [fold_left].
  - tauto.
  - inversion Hpos as [| ? ? Ht Hl]; subst.
    apply IH; [exact Hl |]. now apply cuerpo_enteros_conserva.
Qed.

Lemma Z_leb_total (x y : Z) : (x <=? y)%Z = true \/ (y <=? x)%Z = true.
Proof. rewrite !Z.leb_le. lia. Qed.

(** A sorted list of integers without repetition is strictly increasing. *)
Lemma ordenada_sin_repetir (l : list Z) :
  Sorted (fun x y => (x <=? y)%Z = true) l -> NoDup l ->
  StronglySorted Z.lt l.
Proof.
  intros Hs Hnd.
  assert (Hss : StronglySorted Z.le l).
  { apply Sorted_StronglySorted; [intros x y z; apply Z.le_trans |].
    eapply Sorted_implica; [| exact Hs]. intros x y. apply Z.leb_le. }
  clear Hs. induction Hss as [| x l Hss IH Hall]; constructor.
  - apply IH. now inversion Hnd.
  - inversion Hnd as [| ? ? Hx _]; subst.
    rewrite Forall_forall in *. intros y Hy.
    specialize (Hall y Hy).
    assert (x <> y) by (intros ->; contradiction). lia.
Qed.

Lemma enumerar_nth {A : Type} (l : list A) : forall i j x,
  nth_error l j = Some x ->
  nth_error (enumerar i l) j = Some ((i + Z.of_nat j)%Z, x).
Proof.
  induction l as [| y l IH]; intros i j x Hj; destruct j; try discriminate.
  - simpl in *. inversion Hj; subst. f_equal. f_equal. lia.
  - simpl in *. rewrite (IH (i + 1)%Z j x Hj). f_equal. f_equal. lia.
Qed.

Lemma enumerar_length {A : Type} (l : list A) : forall i,
  length (enumerar i l) = length l.
Proof. induction l; intro i; simpl; [reflexivity | now rewrite IHl]. Qed.

(** C6. With an arrival rate of zero the generator returns the empty
    sequence.  With a positive rate, when the exponential draws are not
    negative and add up to the horizon after finitely many draws, the
    generator returns, and what it returns is a strictly increasing sequence
    of integer minutes without repetition, all in [[0, H * 60)];
    [crear_aviones] then builds one aircraft per minute, in this order, the
    [i]-th (from 0) with id [i + 1] and that minute as its
    [tiempo_radar]. *)
Theorem C6_generador_de_arribos (exponencial : nat -> Q -> Q)
  (lambda_hora duracion_horas distancia_inicial : Q) :
  (lambda_hora == 0 ->
   forall c, generar_vuelos_poisson (S (S c)) exponencial lambda_hora
               duracion_horas = Some []) /\
  (0 < lambda_hora ->
   (forall k s, 0 <= exponencial k s) ->
   (exists n, duracion_horas * 60
              <= suma_llegadas exponencial (1 / (lambda_hora / 60)) n) ->
   exists c0, forall c, (c0 <= c)%nat ->
     exists tiempos aviones,
       generar_vuelos_poisson c exponencial lambda_hora duracion_horas
       = Some tiempos /\
       StronglySorted Z.lt tiempos /\
       NoDup tiempos /\
       Forall (fun m => (0 <= m)%Z /\ inject_Z m < duracion_horas * 60)
         tiempos /\
       crear_aviones c exponencial lambda_hora duracion_horas distancia_inicial
       = Some aviones /\
       length aviones = length tiempos /\
       forall i t, nth_error tiempos i = Some t ->
                   nth_error aviones i
                   = Some (Avion_init (Z.of_nat i + 1) t distancia_inicial)).
Proof.
  split.
  - intros Hl c. unfold generar_vuelos_poisson.
    rewrite bucle_poisson_sin_tasa; [reflexivity |].
    apply Qle_shift_div_r; lra.
  - intros Hl Hdraws [n Hn].
    set (lambda_min := lambda_hora / 60).
    set (total_min := int_de_float (duracion_horas * 60)).
    assert (Htasa : 0 < lambda_min)
      by (subst lambda_min; apply Qlt_shift_div_l; lra).
    assert (Hfin : exists n',
               inject_Z total_min
               <= suma_llegadas exponencial (1 / lambda_min) n').
    { destruct (Z.lt_ge_cases 0 total_min) as [Hpos | Hneg].
      - exists n. pose proof (int_de_float_cota _ Hpos). fold total_min in H.
        fold lambda_min in Hn. lra.
      - exists O. simpl.
        assert (inject_Z total_min <= inject_Z 0)
          by (rewrite <- Zle_Qle; lia).
        exact H. }
    destruct Hfin as [n' Hn'].
    exists (S n'). intros c Hc.
    destruct (bucle_poisson_termina exponencial lambda_min total_min Htasa n'
                Hn' n' O c [] ltac:(lia) ltac:(lia)) as [reales Hreales].
    change (Finito (suma_llegadas exponencial (1 / lambda_min) 0))
      with (Finito 0) in Hreales.
    assert (Hcotas : Forall (fun t => 0 <= t /\ t < inject_Z total_min) reales).
    { eapply (bucle_poisson_cotas exponencial lambda_min total_min Htasa Hdraws);
        [| | exact Hreales]; [simpl; lra | constructor]. }
    destruct (bucle_enteros_conserva total_min reales ([], []))
      as [Hnd Hran].
    { eapply Forall_impl; [| exact Hcotas]. simpl. tauto. }
    { simpl. split; [constructor | split; [tauto | constructor]]. }
    set (enteros := fst (fold_left (cuerpo_enteros total_min) reales ([], [])))
      in *.
    set (tiempos := ordenar_por Z.leb enteros).
    assert (Hperm : Permutation enteros tiempos) by apply ordenar_por_perm.
    assert (Hgen : generar_vuelos_poisson c exponencial lambda_hora
                     duracion_horas = Some tiempos).
    { unfold generar_vuelos_poisson. fold lambda_min total_min.
      now rewrite Hreales. }
    assert (Hnd' : NoDup tiempos) by (eapply Permutation_NoDup; eassumption).
    exists tiempos,
      (map (fun it => Avion_init (fst it + 1)%Z (snd it) distancia_inicial)
         (enumerar 0%Z tiempos)).
    split; [exact Hgen |].
    split; [apply ordenada_sin_repetir;
            [apply ordenar_por_Sorted, Z_leb_total | exact Hnd'] |].
    split; [exact Hnd' |].
    split.
    { eapply Permutation_Forall; [exact Hperm |].
      eapply Forall_impl; [| exact Hran].
      intros m [H0 Hlt]. split; [exact H0 |].
      pose proof (int_de_float_cota (duracion_horas * 60)) as Hcota.
      fold total_min in Hcota. specialize (Hcota ltac:(lia)).
      assert (inject_Z m < inject_Z total_min) by (rewrite <- Zlt_Qlt; lia).
      lra. }
    split; [unfold crear_aviones; now rewrite Hgen |].
    split; [now rewrite length_map, enumerar_length |].
    intros i t Hi.
    rewrite nth_error_map, (enumerar_nth tiempos 0%Z i t Hi).
    reflexivity.
Qed.

Lemma C6_testigo :
  0 < 20 /\
  (forall (k : nat) (s : Q), 0 <= (fun _ _ => 25) k s) /\
  (exists n, 1 * 60 <= suma_llegadas (fun _ _ => 25) (1 / (20 / 60)) n) /\
  exists c0, forall c, (c0 <= c)%nat ->
    exists tiempos,
      generar_vuelos_poisson c (fun _ _ => 25) 20 1 = Some tiempos /\
      StronglySorted Z.lt tiempos.
Proof.
  assert (H1 : 0 < 20) by reflexivity.
  assert (H2 : forall (k : nat) (s : Q), 0 <= (fun _ _ => 25) k s)
    by (intros; discriminate).
  assert (H3 : exists n,
             1 * 60 <= suma_llegadas (fun _ _ => 25) (1 / (20 / 60)) n)
    by (exists 3%nat; vm_compute; discriminate).
  split; [exact H1 | split; [exact H2 | split; [exact H3 |]]].
  destruct (proj2 (C6_generador_de_arribos (fun _ _ => 25) 20 1
                     DISTANCIA_INICIAL) H1 H2 H3) as [c0 Hc0].
  exists c0. intros c Hc.
  destruct (Hc0 c Hc) as (tiempos & avs & Hgen & Hsorted & _).
  exists tiempos. split; assumption.
Defined.

(** ** Wind: [cerrar_AEP] *)

(** C7. The wind check divides by the current speed without a guard.  An
    aircraft that [marcar_desviado] stopped (speed 0) and that is still in
    the queue four minutes behind its leader gets a finite gap from
    [actualizar_gaps], is put back to [en_vuelo] by [actualizar_velocidades]
    with its speed 0 untouched, and [cerrar_AEP] on the queue then raises
    [ZeroDivisionError], whatever the wind probability and the draws.  The
    store is one that the operations of the module reach. *)
Theorem C7_division_por_cero_en_cerrar_AEP :
  let hf := actualizar_gaps memoria_con_desviado fila_ejemplo in
  let s := actualizar_velocidades (fst hf) (snd hf) None in
  let h := ev_memoria s in
  accesible h /\
  gap_adelante (fst hf 1%nat) = Some (Finito (20 / 300 * 60)) /\
  estado (h 1%nat) = en_vuelo /\
  velocidad_actual (h 1%nat) == 0 /\
  forall prob_interrupcion rand k,
    cerrar_AEP h (aviones (snd hf)) prob_interrupcion rand k
    = Lanza ZeroDivisionError.
Proof.
  intros hf s h. split; [| split; [| split; [| split]]].
  - subst h s hf. apply acc_actualizar_velocidades, acc_actualizar_gaps.
    unfold memoria_con_desviado.
    set (h0 := fun r : Ref => match r with
                              | O => Avion_init 1 0 80
                              | _ => Avion_init 2 0 DISTANCIA_INICIAL
                              end).
    change (Avion_init 2 0 DISTANCIA_INICIAL) with (h0 1%nat).
    apply acc_marcar_desviado, acc_inicial.
    intros [| r]; simpl.
    + exists 1%Z, 0%Z, 80. split; [discriminate | reflexivity].
    + exists 2%Z, 0%Z, DISTANCIA_INICIAL. split; [discriminate | reflexivity].
  - vm_compute. reflexivity.
  - vm_compute. reflexivity.
  - vm_compute. reflexivity.
  - intros prob_interrupcion rand k. vm_compute. reflexivity.
Qed.

(** ** Time to land and feasibility: [calcular_tiempo_esperado],
    [filtrar_aviones_a_tiempo] *)

(** The advance per minute at the band maximum is positive and at most
    [500 / 60] nm. *)
Lemma avance_por_minuto (d : Q) :
  0 < fst (velocidad_permitida d) / 60 /\
  fst (velocidad_permitida d) / 60 <= 25 # 3.
Proof.
  unfold velocidad_permitida.
  repeat match goal with
    | |- context [if ?b then _ else _] => destruct b
    end; simpl; split; unfold Qlt, Qle; simpl; lia.
Qed.

(** The loop never takes its [return float('inf')]; it counts at most one
    minute per iteration, exactly one while distance is left, and it covers
    at most [25 / 3] nm per minute counted. *)
Lemma bucle_tiempo_esperado_sale (n : nat) : forall d t,
  exists d' t',
    bucle_tiempo_esperado n d t = SaleBucle d' t' /\
    (t <= t' <= t + Z.of_nat n)%Z /\
    (0 < d' -> t' = (t + Z.of_nat n)%Z) /\
    d - inject_Z (t' - t) * (25 # 3) <= d'.
Proof.
  induction n as [| n IH]; intros d t; cbn [bucle_tiempo_esperado].
  - exists d, t. split; [reflexivity |]. split; [lia |]. split; [intros _; lia |].
    replace (t - t)%Z with 0%Z by lia. change (inject_Z 0) with 0. lra.
  - destruct (Qlt_bool 0 d) eqn:Hd.
    + destruct (avance_por_minuto d) as [Hpos Hmax].
      apply Qle_bool_false in Hpos. rewrite Hpos.
      destruct (IH (d - fst (velocidad_permitida d) / 60) (t + 1)%Z)
        as (d' & t' & Hrun & Ht & Hresto & Hcota).
      exists d', t'. split; [exact Hrun |].
      split; [lia |]. split; [intro H; rewrite (Hresto H); lia |].
      replace (t' - t)%Z with ((t' - (t + 1)) + 1)%Z by lia.
      rewrite inject_Z_plus. change (inject_Z 1) with 1. lra.
    + exists d, t. split; [reflexivity |]. split; [lia |].
      a_desigualdades. split; [intro; lra |].
      replace (t - t)%Z with 0%Z by lia. change (inject_Z 0) with 0. lra.
Qed.

Lemma tiempo_esperado_desde_finito (d : Q) :
  exists t, tiempo_esperado_desde d = Finito (inject_Z t) /\
            (0 <= t <= MAX_ITERACIONES)%Z.
Proof.
  unfold tiempo_esperado_desde.
  destruct (bucle_tiempo_esperado_sale (Z.to_nat MAX_ITERACIONES) d 0)
    as (d' & t' & Hrun & Ht & _).
  rewrite Hrun. exists t'. split; [reflexivity |].
  unfold MAX_ITERACIONES in *. lia.
Qed.

Lemma cuerpo_filtrar_marco (m : Z) (d : Q) (s : EstadoFiltro) (r r' : Ref) :
  r' <> r -> ef_memoria (cuerpo_filtrar m d s r) r' = ef_memoria s r'.
Proof.
  intro Hne. unfold cuerpo_filtrar.
  destruct (tiempo_le_bool _ _); cbn [ef_memoria]; [reflexivity |].
  now apply escribir_otro.
Qed.

Lemma cuerpo_filtrar_local (m : Z) (d : Q) (s1 s2 : EstadoFiltro) (r : Ref) :
  ef_memoria s1 r = ef_memoria s2 r ->
  ef_memoria (cuerpo_filtrar m d s1 r) r = ef_memoria (cuerpo_filtrar m d s2 r) r.
Proof.
  intro He. unfold cuerpo_filtrar. rewrite He.
  destruct (tiempo_le_bool _ _); cbn [ef_memoria]; [exact He |].
  now rewrite !escribir_mismo.
Qed.

Lemma cuerpo_filtrar_cuenta (m : Z) (d : Q) (s : EstadoFiltro) (r : Ref) :
  desviados (ef_resultados (cuerpo_filtrar m d s r))
  = (desviados (ef_resultados s)
     + if llega_tarde m d (ef_memoria s r) then 1 else 0)%Z.
Proof.
  unfold cuerpo_filtrar, llega_tarde.
  destruct (tiempo_le_bool _ _); simpl; lia.
Qed.

Lemma cuerpo_filtrar_lista (m : Z) (d : Q) (s : EstadoFiltro) (r : Ref) :
  ef_aviones_validos (cuerpo_filtrar m d s r)
  = if negb (llega_tarde m d (ef_memoria s r))
    then ef_aviones_validos s ++ [r] else ef_aviones_validos s.
Proof.
  unfold cuerpo_filtrar, llega_tarde.
  destruct (tiempo_le_bool _ _); reflexivity.
Qed.

Lemma filter_length_perm {A : Type} (f : A -> bool) (l l' : list A) :
  Permutation l l' -> length (filter f l) = length (filter f l').
Proof.
  induction 1 as [| x l l' _ IH | x y l | l l' l'' _ IH1 _ IH2]; simpl.
  - reflexivity.
  - destruct (f x); simpl; congruence.
  - destruct (f x), (f y); reflexivity.
  - congruence.
Qed.

Lemma cuerpo_filtrar_en (m : Z) (d : Q) (s : EstadoFiltro) (r : Ref) :
  ef_memoria (cuerpo_filtrar m d s r) r
  = if llega_tarde m d (ef_memoria s r)
    then marcar_desviado (ef_memoria s r) else ef_memoria s r.
Proof.
  unfold cuerpo_filtrar, llega_tarde.
  destruct (tiempo_le_bool _ _); cbn [ef_memoria negb]; [reflexivity |].
  apply escribir_mismo.
Qed.

Lemma llega_tarde_finito (m : Z) (d : Q) (a : Avion) (t : Z) :
  calcular_tiempo_esperado a = Finito (inject_Z t) ->
  llega_tarde m d a = negb (Qle_bool (inject_Z m + inject_Z t) (d * 60)).
Proof. unfold llega_tarde. intros ->. reflexivity. Qed.

(** When the loop reaches its bound with distance left, it has counted
    [MAX_ITERACIONES] minutes. *)
Lemma bucle_tiempo_esperado_agotado (d : Q) : forall d' t',
  bucle_tiempo_esperado (Z.to_nat MAX_ITERACIONES) d 0 = SaleBucle d' t' ->
  0 < d' -> t' = MAX_ITERACIONES.
Proof.
  intros d' t' Hrun Hd'.
  destruct (bucle_tiempo_esperado_sale (Z.to_nat MAX_ITERACIONES) d 0)
    as (d'' & t'' & Hrun' & _ & Hresto & _).
  rewrite Hrun in Hrun'. inversion Hrun'; subst d'' t''.
  rewrite (Hresto Hd'). rewrite Z2Nat.id; [reflexivity | discriminate].
Qed.

(** C8, on the code.  The estimate of [calcular_tiempo_esperado] is never
    infinite: it is a count of minutes between 0 and 100000, and when the
    loop reaches its bound with distance left the estimate is the finite
    count 100000.  [filtrar_aviones_a_tiempo] admits an aircraft of the
    queue, unchanged, when the current minute plus the estimate is at most
    [duracion_horas * 60], and otherwise marks it [desviado] and leaves it
    out; the counter of diverted aircraft grows by the number of aircraft
    marked.  The queue holds each aircraft once. *)
Theorem C8_estimacion_y_filtro (h : Memoria) (fila : Fila) (minuto : Z)
  (duracion_horas : Q) (resultados : Resultados) (r : Ref) :
  NoDup (aviones fila) -> In r (aviones fila) ->
  let s := fst (filtrar_aviones_a_tiempo h fila minuto duracion_horas
                  resultados) in
  (exists t,
     calcular_tiempo_esperado (h r) = Finito (inject_Z t) /\
     (0 <= t <= MAX_ITERACIONES)%Z /\
     (inject_Z minuto + inject_Z t <= duracion_horas * 60 ->
      In r (ef_aviones_validos s) /\ ef_memoria s r = h r) /\
     (duracion_horas * 60 < inject_Z minuto + inject_Z t ->
      ~ In r (ef_aviones_validos s) /\
      ef_memoria s r = marcar_desviado (h r))) /\
  (forall d' t',
     bucle_tiempo_esperado (Z.to_nat MAX_ITERACIONES) (posicion (h r)) 0
     = SaleBucle d' t' ->
     0 < d' -> t' = MAX_ITERACIONES) /\
  desviados (ef_resultados s)
  = (desviados resultados
     + Z.of_nat (length (filter (fun x => llega_tarde minuto duracion_horas (h x))
                           (aviones fila))))%Z.
Proof.
  intros Hnd Hin s.
  set (todos := ordenar_por (clave_posicion_leb h) (aviones fila)).
  assert (Hperm : Permutation (aviones fila) todos) by apply ordenar_por_perm.
  assert (Hnd' : NoDup todos) by (eapply Permutation_NoDup; eassumption).
  assert (Hin' : In r todos) by (eapply Permutation_in; eassumption).
  subst s. unfold filtrar_aviones_a_tiempo, obtener_todos, ordenar.
  cbn [fst snd aviones]. fold todos.
  set (s := fold_left (cuerpo_filtrar minuto duracion_horas) todos
              (mkEstadoFiltro h resultados [])).
  assert (Hmem : ef_memoria s r
                 = if llega_tarde minuto duracion_horas (h r)
                   then marcar_desviado (h r) else h r).
  { subst s.
    rewrite (bucle_dentro _ ef_memoria (cuerpo_filtrar minuto duracion_horas)
               (cuerpo_filtrar_marco minuto duracion_horas)
               (cuerpo_filtrar_local minuto duracion_horas)) by assumption.
    apply cuerpo_filtrar_en. }
  assert (Hval : ef_aviones_validos s
                 = filter (fun x => negb (llega_tarde minuto duracion_horas (h x)))
                     todos).
  { subst s.
    apply (bucle_lista _ ef_memoria (cuerpo_filtrar minuto duracion_horas)
             (cuerpo_filtrar_marco minuto duracion_horas)
             ef_aviones_validos
             (fun a => negb (llega_tarde minuto duracion_horas a))
             (cuerpo_filtrar_lista minuto duracion_horas)).
    assumption. }
  split; [| split].
  - destruct (tiempo_esperado_desde_finito (posicion (h r))) as (t & Ht & Hr).
    exists t. split; [exact Ht |]. split; [exact Hr |].
    pose proof (llega_tarde_finito minuto duracion_horas (h r) _ Ht) as Htarde.
    split; intro Hcmp.
    + apply Qle_bool_iff in Hcmp. rewrite Hcmp in Htarde.
      rewrite Htarde in Hmem. split; [| exact Hmem].
      rewrite Hval. apply filter_In. split; [exact Hin' |].
      rewrite Htarde. reflexivity.
    + apply Qle_bool_false in Hcmp. rewrite Hcmp in Htarde.
      rewrite Htarde in Hmem. split; [| exact Hmem].
      rewrite Hval. intro Hf. apply filter_In in Hf.
      rewrite Htarde in Hf. destruct Hf as [_ Hf]. discriminate Hf.
  - apply bucle_tiempo_esperado_agotado.
  - subst s.
    rewrite (bucle_cuenta _ ef_memoria (cuerpo_filtrar minuto duracion_horas)
               (cuerpo_filtrar_marco minuto duracion_horas)
               (fun s => desviados (ef_resultados s))
               (llega_tarde minuto duracion_horas)
               (cuerpo_filtrar_cuenta minuto duracion_horas)) by assumption.
    cbn [ef_memoria ef_resultados].
    rewrite (filter_length_perm _ _ _ Hperm). reflexivity.
Qed.

(** C8 as stated fails: from 1 000 000 nm the loop of
    [calcular_tiempo_esperado] uses up its 100000 iterations with distance
    left, and the estimate is then the finite count 100000, not infinity. *)
Lemma C8_contraejemplo :
  (exists d',
     bucle_tiempo_esperado (Z.to_nat MAX_ITERACIONES) (posicion avion_remoto) 0
     = SaleBucle d' MAX_ITERACIONES /\ 0 < d') /\
  calcular_tiempo_esperado avion_remoto = Finito (inject_Z MAX_ITERACIONES) /\
  calcular_tiempo_esperado avion_remoto <> Infinito.
Proof.
  set (a := avion_remoto).
  destruct (bucle_tiempo_esperado_sale (Z.to_nat MAX_ITERACIONES)
              (posicion a) 0) as (d' & t' & Hrun & Ht & Hresto & Hcota).
  assert (Hn : Z.of_nat (Z.to_nat MAX_ITERACIONES) = MAX_ITERACIONES)
    by (apply Z2Nat.id; discriminate).
  rewrite Hn in *.
  assert (Hd' : 0 < d').
  { assert (Hq : inject_Z (t' - 0) <= inject_Z MAX_ITERACIONES)
      by (rewrite <- Zle_Qle; lia).
    change (inject_Z MAX_ITERACIONES) with 100000 in Hq.
    change (posicion a) with 1000000 in Hcota. lra. }
  assert (Ht' : t' = MAX_ITERACIONES) by (rewrite (Hresto Hd'); lia).
  subst t'.
  assert (Hest : calcular_tiempo_esperado a = Finito (inject_Z MAX_ITERACIONES)).
  { unfold calcular_tiempo_esperado, tiempo_esperado_desde. now rewrite Hrun. }
  split; [exists d'; split; assumption |].
  split; [exact Hest | rewrite Hest; discriminate].
Qed.

Lemma C8_testigo :
  NoDup (aviones fila_ejemplo) /\
  In 0%nat (aviones fila_ejemplo) /\
  In 0%nat
    (ef_aviones_validos
       (fst (filtrar_aviones_a_tiempo memoria_ejemplo fila_ejemplo 0 1
               inicializar_resultados))).
Proof.
  assert (Hnd : NoDup (aviones fila_ejemplo)).
  { simpl. repeat constructor; simpl; intuition discriminate. }
  assert (Hin : In 0%nat (aviones fila_ejemplo)) by (simpl; now left).
  split; [exact Hnd | split; [exact Hin |]].
  destruct (C8_estimacion_y_filtro memoria_ejemplo fila_ejemplo 0 1
              inicializar_resultados 0%nat Hnd Hin)
    as [(t & Ht & _ & Hadmite & _) _].
  apply Hadmite.
  assert (Hev : calcular_tiempo_esperado (memoria_ejemplo 0%nat)
                = Finito (inject_Z 25)) by (vm_compute; reflexivity).
  rewrite Hev in Ht. injection Ht as Ht. rewrite <- Ht.
  vm_compute. discriminate.
Defined.

(** ** Storm window: [Horario_Tormenta] *)

Lemma int_de_float_bajo (q : Q) (n : Z) :
  (0 < n)%Z -> q < inject_Z n -> (int_de_float q < n)%Z.
Proof.
  intros Hn Hq.
  destruct (Z.lt_ge_cases 0 (int_de_float q)) as [Hpos | Hneg]; [| lia].
  pose proof (int_de_float_cota q Hpos) as Hc.
  rewrite Zlt_Qlt. lra.
Qed.

Lemma int_de_float_alto (q : Q) (n : Z) :
  inject_Z n <= q -> (n <= int_de_float q)%Z.
Proof.
  unfold int_de_float. destruct q as [a d]. unfold Qle, inject_Z. simpl.
  intro H. apply Z.quot_le_lower_bound; lia.
Qed.

Section Tormenta.

(** [np.random.randint(low, high)] returns an integer of [[low, high)]. *)
Variable randint : Z -> Z -> Z.
Hypothesis randint_en_rango :
  forall low high, (low < high)%Z -> (low <= randint low high < high)%Z.

(** C9. For a horizon shorter than 30 minutes [Horario_Tormenta] raises
    [ValueError].  For a horizon of at least 30 minutes it returns the 30
    consecutive integer minutes that start at the minute drawn, all of
    them in [[0, tiempo_horas * 60)]; for a horizon of 60 minutes they lie
    in [[0, 60)]. *)
Theorem C9_ventana_de_tormenta (tiempo_horas : Q) :
  (tiempo_horas * 60 < 30 ->
   Horario_Tormenta randint tiempo_horas = Lanza ValueError) /\
  (30 <= tiempo_horas * 60 ->
   exists inicio,
     Horario_Tormenta randint tiempo_horas
     = Normal (map (fun i => (inicio + Z.of_nat i)%Z) (seq 0 30)) /\
     length (map (fun i => (inicio + Z.of_nat i)%Z) (seq 0 30)) = 30%nat /\
     Forall (fun m => (0 <= m)%Z /\ inject_Z m < tiempo_horas * 60)
       (map (fun i => (inicio + Z.of_nat i)%Z) (seq 0 30)) /\
     (tiempo_horas * 60 == 60 ->
      Forall (fun m => (0 <= m < 60)%Z)
        (map (fun i => (inicio + Z.of_nat i)%Z) (seq 0 30)))).
Proof.
  unfold Horario_Tormenta.
  set (max_minuto := int_de_float (tiempo_horas * 60)).
  split.
  - intro Hcorto.
    assert (Hlt : (max_minuto < 30)%Z)
      by (apply int_de_float_bajo; [lia | exact Hcorto]).
    apply Z.ltb_lt in Hlt. now rewrite Hlt.
  - intro Hlargo.
    assert (Hge : (30 <= max_minuto)%Z)
      by (apply int_de_float_alto; exact Hlargo).
    assert (Hb : (max_minuto <? 30)%Z = false) by (apply Z.ltb_ge; exact Hge).
    rewrite Hb.
    set (inicio := randint 0%Z (max_minuto - 30 + 1)%Z).
    destruct (randint_en_rango 0%Z (max_minuto - 30 + 1)%Z ltac:(lia))
      as [Hlo Hhi].
    fold inicio in Hlo, Hhi.
    assert (Hcota : inject_Z max_minuto <= tiempo_horas * 60)
      by (apply int_de_float_cota; fold max_minuto; lia).
    assert (Hrango : Forall (fun m => (inicio <= m < inicio + 30)%Z)
                       (map (fun i => (inicio + Z.of_nat i)%Z) (seq 0 30))).
    { apply Forall_map, Forall_forall. intros i Hi.
      apply in_seq in Hi. lia. }
    exists inicio. split; [reflexivity |].
    split; [now rewrite length_map, length_seq |].
    split.
    + eapply Forall_impl; [| exact Hrango]. intros m Hm.
      cbv beta in Hm. split; [lia |].
      assert (inject_Z m < inject_Z max_minuto) by (rewrite <- Zlt_Qlt; lia).
      lra.
    + intro H60.
      assert (Hmax : (max_minuto <= 60)%Z).
      { rewrite Zle_Qle. change (inject_Z 60) with 60. lra. }
      eapply Forall_impl; [| exact Hrango]. intros m Hm.
      cbv beta in Hm. lia.
Qed.

End Tormenta.

Lemma C9_testigo :
  (forall low high, (low < high)%Z -> (low <= (fun l _ => l) low high < high)%Z) /\
  30 <= 1 * 60 /\
  exists inicio,
    Horario_Tormenta (fun l _ => l) 1
    = Normal (map (fun i => (inicio + Z.of_nat i)%Z) (seq 0 30)).
Proof.
  assert (Hr : forall low high : Z,
             (low < high)%Z -> (low <= (fun l _ => l) low high < high)%Z)
    by (intros low high Hlt; simpl; lia).
  assert (H30 : 30 <= 1 * 60) by discriminate.
  split; [exact Hr | split; [exact H30 |]].
  destruct (proj2 (C9_ventana_de_tormenta (fun l _ => l) Hr 1) H30)
    as (inicio & Hrun & _).
  exists inicio. exact Hrun.
Defined.

(** * Further properties of the module *)

(** ** Speed bands: [Avion.velocidad_permitida] *)

Lemma velocidad_permitida_Qeq (d d' : Q) :
  d == d' -> velocidad_permitida d = velocidad_permitida d'.
Proof.
  intro He. unfold velocidad_permitida.
  assert (Hc : forall c, Qlt_bool c d = Qlt_bool c d').
  { intro c. unfold Qlt_bool. f_equal.
    destruct (Qle_bool d c) eqn:E1, (Qle_bool d' c) eqn:E2; try reflexivity;
      a_desigualdades; lra. }
  now rewrite !Hc.
Qed.

(** X1. The speed bands grow with the distance: an aircraft farther out is
    allowed a maximum and a minimum at least as high as one closer in.  In
    every band the minimum is positive and below the maximum. *)
Theorem bandas_crecen_con_la_distancia (d d' : Q) :
  d <= d' ->
  fst (velocidad_permitida d) <= fst (velocidad_permitida d') /\
  snd (velocidad_permitida d) <= snd (velocidad_permitida d') /\
  0 < snd (velocidad_permitida d) /\
  snd (velocidad_permitida d) < fst (velocidad_permitida d).
Proof.
  intro Hd. unfold velocidad_permitida.
  destruct (Qlt_bool 100 d) eqn:E1, (Qlt_bool 50 d) eqn:E2,
    (Qlt_bool 15 d) eqn:E3, (Qlt_bool 5 d) eqn:E4,
    (Qlt_bool 100 d') eqn:F1, (Qlt_bool 50 d') eqn:F2,
    (Qlt_bool 15 d') eqn:F3, (Qlt_bool 5 d') eqn:F4;
    a_desigualdades; simpl; try lra.
Qed.

Lemma bandas_crecen_testigo :
  10 <= 60 /\
  fst (velocidad_permitida 10) <= fst (velocidad_permitida 60).
Proof.
  assert (H : 10 <= 60) by discriminate.
  split; [exact H |].
  exact (proj1 (bandas_crecen_con_la_distancia 10 60 H)).
Defined.

(** ** One call of [Avion.avanzar_minuto] *)

Lemma Q_de_nat_S (n : nat) : Q_de_nat (S n) == Q_de_nat n + 1.
Proof.
  unfold Q_de_nat. rewrite Nat2Z.inj_succ. unfold Z.succ.
  rewrite inject_Z_plus. reflexivity.
Qed.

Lemma avanzar_minuto_aterriza (a : Avion) (m : Z) (dt : Q) :
  estado a = en_vuelo ->
  posicion a - velocidad_actual a / 60 * dt <= 0 ->
  avanzar_minuto a m dt
  = registrar_estado
      (con_estado
         (con_posicion
            (con_posicion a
               (max_py 0 (posicion a - velocidad_actual a / 60 * dt))) 0)
         aterrizado)
      m (Some 0).
Proof.
  intros He Hp. unfold avanzar_minuto. rewrite He.
  cbn [posicion con_posicion].
  assert (Hm : max_py 0 (posicion a - velocidad_actual a / 60 * dt) = 0).
  { unfold max_py. apply Qlt_bool_false in Hp. now rewrite Hp. }
  rewrite Hm. reflexivity.
Qed.

Lemma avanzar_minuto_sigue (a : Avion) (m : Z) (dt : Q) :
  estado a = en_vuelo ->
  0 < posicion a - velocidad_actual a / 60 * dt ->
  avanzar_minuto a m dt
  = registrar_estado
      (con_posicion a (posicion a - velocidad_actual a / 60 * dt))
      m (Some (velocidad_actual a)).
Proof.
  intros He Hp. unfold avanzar_minuto. rewrite He.
  cbn [posicion con_posicion].
  assert (Hm : max_py 0 (posicion a - velocidad_actual a / 60 * dt)
               = posicion a - velocidad_actual a / 60 * dt).
  { unfold max_py. apply Qlt_bool_iff in Hp. now rewrite Hp. }
  rewrite Hm. apply Qle_bool_false in Hp. now rewrite Hp.
Qed.

(** ** The estimate of [calcular_tiempo_esperado] *)

Lemma avance_minimo (d : Q) : 5 # 2 <= fst (velocidad_permitida d) / 60.
Proof.
  unfold velocidad_permitida.
  repeat match goal with
    | |- context [if ?b then _ else _] => destruct b
    end; simpl; unfold Qle; simpl; lia.
Qed.

(** The loop covers at least [5 / 2] nm per minute counted, so it either
    ends with no distance left or has used all its iterations. *)
Lemma bucle_tiempo_esperado_cotas (n : nat) : forall d t d' t',
  bucle_tiempo_esperado n d t = SaleBucle d' t' ->
  ((t < t')%Z -> (inject_Z (t' - t) - 1) * (5 # 2) < d) /\
  (d' <= 0 \/ d' <= d - Q_de_nat n * (5 # 2)) /\
  (d <= 0 -> t' = t) /\
  (0 < d -> (0 < n)%nat -> (t < t')%Z).
Proof.
  induction n as [| n IH]; intros d t d' t' Hrun;
    cbn [bucle_tiempo_esperado] in Hrun.
  - inversion Hrun; subst. split; [lia |]. split; [| split; [reflexivity | lia]].
    right. change (Q_de_nat 0) with 0. lra.
  - destruct (Qlt_bool 0 d) eqn:Hd.
    + destruct (avance_por_minuto d) as [Hpos _].
      pose proof (avance_minimo d) as Hmin.
      apply Qle_bool_false in Hpos. rewrite Hpos in Hrun.
      destruct (bucle_tiempo_esperado_sale n
                  (d - fst (velocidad_permitida d) / 60) (t + 1)%Z)
        as (d'' & t'' & Hrun' & Ht & _).
      rewrite Hrun in Hrun'. inversion Hrun'; subst d'' t''.
      destruct (IH _ _ _ _ Hrun) as (H1 & H2 & _).
      a_desigualdades. pose proof (Q_de_nat_S n) as HS.
      split; [| split; [| split; [intro; lra | intros; lia]]].
      * intros _. destruct (Z.eq_dec t' (t + 1)%Z) as [-> | Hne].
        -- replace (t + 1 - t)%Z with 1%Z by lia. change (inject_Z 1) with 1. lra.
        -- specialize (H1 ltac:(lia)).
           replace (t' - t)%Z with ((t' - (t + 1)) + 1)%Z by lia.
           rewrite inject_Z_plus. change (inject_Z 1) with 1. lra.
      * destruct H2 as [H2 | H2]; [now left | right]. rewrite HS. lra.
    + inversion Hrun; subst. a_desigualdades.
      split; [lia |]. split; [now left |]. split; [reflexivity | intro; lra].
Qed.

(** X3. From any distance up to 250000 nm the estimate of
    [calcular_tiempo_esperado] is a whole number of minutes [t]: 0 when the
    aircraft is at or past the threshold, and otherwise positive, at least
    the time at 500 knots ([3 d / 25]) and less than one minute more than
    the time at 150 knots ([2 d / 5 + 1]). *)
Theorem estimacion_entre_cotas (a : Avion) :
  posicion a <= 250000 ->
  exists t,
    calcular_tiempo_esperado a = Finito (inject_Z t) /\
    (posicion a <= 0 -> t = 0%Z) /\
    (0 < posicion a ->
     (0 < t)%Z /\
     posicion a * (3 # 25) <= inject_Z t /\
     (inject_Z t - 1) * (5 # 2) < posicion a).
Proof.
  intro Hd. unfold calcular_tiempo_esperado, tiempo_esperado_desde.
  destruct (bucle_tiempo_esperado_sale (Z.to_nat MAX_ITERACIONES)
              (posicion a) 0) as (d' & t' & Hrun & _ & _ & Hcota).
  destruct (bucle_tiempo_esperado_cotas _ _ _ _ _ Hrun)
    as (H1 & H2 & H3 & H4).
  rewrite Hrun. exists t'. split; [reflexivity |].
  split; [exact H3 |]. intro Hp.
  assert (Hn : (0 < Z.to_nat MAX_ITERACIONES)%nat)
    by (apply (Z2Nat.inj_lt 0); unfold MAX_ITERACIONES; lia).
  specialize (H4 Hp Hn). specialize (H1 H4).
  replace (t' - 0)%Z with t' in * by lia.
  split; [exact H4 | split; [| exact H1]].
  assert (Hq : Q_de_nat (Z.to_nat MAX_ITERACIONES) == 100000).
  { unfold Q_de_nat. rewrite Z2Nat.id by discriminate. reflexivity. }
  rewrite Hq in H2. lra.
Qed.

Lemma estimacion_entre_cotas_testigo :
  posicion avion_lejano <= 250000 /\
  exists t, calcular_tiempo_esperado avion_lejano = Finito (inject_Z t) /\
            (0 < t)%Z.
Proof.
  assert (H : posicion avion_lejano <= 250000) by discriminate.
  split; [exact H |].
  destruct (estimacion_entre_cotas avion_lejano H) as (t & Ht & _ & Hpos).
  exists t. split; [exact Ht |].
  apply Hpos. reflexivity.
Defined.

Lemma vuelo_a_velocidad_maxima_aterrizado (ms : list Z) : forall a,
  estado a = aterrizado ->
  estado (vuelo_a_velocidad_maxima a ms) = aterrizado.
Proof.
  induction ms as [| m ms IH]; intros a He; [exact He |].
  unfold vuelo_a_velocidad_maxima. cbn [fold_left].
  apply IH. unfold minuto_a_velocidad_maxima, avanzar_minuto.
  cbn [estado con_velocidad]. now rewrite He.
Qed.

Lemma minuto_a_velocidad_maxima_aterriza (a : Avion) (m : Z) (d : Q) :
  estado a = en_vuelo -> posicion a == d ->
  d - fst (velocidad_permitida d) / 60 <= 0 ->
  estado (minuto_a_velocidad_maxima a m) = aterrizado.
Proof.
  intros He Hp Hd. unfold minuto_a_velocidad_maxima.
  rewrite avanzar_minuto_aterriza; [reflexivity | exact He |].
  cbn [posicion velocidad_actual con_velocidad]. unfold vel_max_actual, DT.
  rewrite (velocidad_permitida_Qeq _ _ Hp). rewrite Hp. lra.
Qed.

Lemma minuto_a_velocidad_maxima_sigue (a : Avion) (m : Z) (d : Q) :
  estado a = en_vuelo -> posicion a == d ->
  0 < d - fst (velocidad_permitida d) / 60 ->
  estado (minuto_a_velocidad_maxima a m) = en_vuelo /\
  posicion (minuto_a_velocidad_maxima a m)
  == d - fst (velocidad_permitida d) / 60.
Proof.
  intros He Hp Hd. unfold minuto_a_velocidad_maxima.
  rewrite avanzar_minuto_sigue; [| exact He |].
  - cbn [estado posicion velocidad_actual con_velocidad con_posicion
           registrar_estado con_historial].
    split; [exact He |]. unfold vel_max_actual, DT.
    rewrite (velocidad_permitida_Qeq _ _ Hp). rewrite Hp. ring.
  - cbn [posicion velocidad_actual con_velocidad]. unfold vel_max_actual, DT.
    rewrite (velocidad_permitida_Qeq _ _ Hp). rewrite Hp. lra.
Qed.

(** The loop of the estimate and the flight at the band maximum go
    through the same distances. *)
Lemma bucle_tiempo_esperado_es_vuelo (n : nat) : forall d t d' t',
  bucle_tiempo_esperado n d t = SaleBucle d' t' -> d' <= 0 ->
  forall a ms,
    estado a = en_vuelo -> posicion a == d ->
    ((Z.of_nat (length ms) < t' - t)%Z ->
     estado (vuelo_a_velocidad_maxima a ms) = en_vuelo) /\
    ((t' - t <= Z.of_nat (length ms))%Z -> (0 < length ms)%nat ->
     estado (vuelo_a_velocidad_maxima a ms) = aterrizado).
Proof.
  assert (Hparado : forall d a ms,
            estado a = en_vuelo -> posicion a == d -> d <= 0 ->
            (0 < length ms)%nat ->
            estado (vuelo_a_velocidad_maxima a ms) = aterrizado).
  { intros d a [| m ms] He Hp Hd Hlen; [simpl in Hlen; lia |].
    unfold vuelo_a_velocidad_maxima. cbn [fold_left].
    apply vuelo_a_velocidad_maxima_aterrizado.
    apply (minuto_a_velocidad_maxima_aterriza a m d He Hp).
    destruct (avance_por_minuto d). lra. }
  induction n as [| n IH]; intros d t d' t' Hrun Hconv a ms He Hp;
    cbn [bucle_tiempo_esperado] in Hrun.
  - inversion Hrun; subst d' t'. split; [lia |].
    intros _ Hlen. now apply (Hparado d).
  - destruct (Qlt_bool 0 d) eqn:Hd.
    + destruct (avance_por_minuto d) as [Hpos _].
      apply Qle_bool_false in Hpos. rewrite Hpos in Hrun.
      destruct (bucle_tiempo_esperado_cotas _ _ _ _ _ Hrun)
        as (_ & _ & H3 & H4).
      destruct (bucle_tiempo_esperado_sale n
                  (d - fst (velocidad_permitida d) / 60) (t + 1)%Z)
        as (d'' & t'' & Hrun' & Ht & _).
      rewrite Hrun in Hrun'. inversion Hrun'; subst d'' t''.
      destruct ms as [| m ms].
      * split; [intros _; exact He | simpl; lia].
      * unfold vuelo_a_velocidad_maxima. cbn [fold_left length].
        fold (vuelo_a_velocidad_maxima (minuto_a_velocidad_maxima a m) ms).
        destruct (Qlt_le_dec 0 (d - fst (velocidad_permitida d) / 60))
          as [Hsigue | Hllega].
        -- destruct (minuto_a_velocidad_maxima_sigue a m d He Hp Hsigue)
             as [He1 Hp1].
           destruct (IH _ _ _ _ Hrun Hconv _ ms He1 Hp1) as [IH1 IH2].
           assert (Hn : (0 < n)%nat).
           { destruct n; [| lia]. cbn [bucle_tiempo_esperado] in Hrun.
             inversion Hrun; subst. lra. }
           specialize (H4 Hsigue Hn).
           split; [intro; apply IH1; lia | intros; apply IH2; lia].
        -- specialize (H3 Hllega). subst t'.
           split; [lia |]. intros _ _.
           apply vuelo_a_velocidad_maxima_aterrizado.
           now apply (minuto_a_velocidad_maxima_aterriza a m d).
    + inversion Hrun; subst d' t'. split; [lia |].
      intros _ Hlen. a_desigualdades. now apply (Hparado d).
Qed.

(** A finite estimate is the count with which the loop ends. *)
Lemma calcular_tiempo_esperado_bucle (a : Avion) (t : Z) :
  calcular_tiempo_esperado a = Finito (inject_Z t) ->
  exists d',
    bucle_tiempo_esperado (Z.to_nat MAX_ITERACIONES) (posicion a) 0
    = SaleBucle d' t.
Proof.
  unfold calcular_tiempo_esperado, tiempo_esperado_desde.
  destruct (bucle_tiempo_esperado_sale (Z.to_nat MAX_ITERACIONES)
              (posicion a) 0)
    as (d' & t' & Hrun & _).
  rewrite Hrun. cbv beta iota. intro Hest.
  exists d'. unfold inject_Z in Hest. injection Hest as Hest.
  rewrite <- Hest. reflexivity.
Qed.

(** X4. The estimate of [calcular_tiempo_esperado] is the flight time at the
    band maximum: a flying aircraft, up to 250000 nm out, that flies each
    minute at the maximum speed of its current band is still [en_vuelo]
    after fewer minutes than the estimate, and [aterrizado] after that many
    minutes or more. *)
Theorem estimacion_es_vuelo_a_velocidad_maxima (a : Avion) (t : Z)
  (ms : list Z) :
  estado a = en_vuelo -> 0 < posicion a -> posicion a <= 250000 ->
  calcular_tiempo_esperado a = Finito (inject_Z t) ->
  ((Z.of_nat (length ms) < t)%Z ->
   estado (vuelo_a_velocidad_maxima a ms) = en_vuelo) /\
  ((t <= Z.of_nat (length ms))%Z ->
   estado (vuelo_a_velocidad_maxima a ms) = aterrizado).
Proof.
  intros He Hp Hd Hest.
  destruct (calcular_tiempo_esperado_bucle a t Hest) as [d' Hrun].
  destruct (bucle_tiempo_esperado_cotas _ _ _ _ _ Hrun)
    as (_ & H2 & _ & H4).
  assert (Hn : (0 < Z.to_nat MAX_ITERACIONES)%nat)
    by (apply (Z2Nat.inj_lt 0); unfold MAX_ITERACIONES; lia).
  specialize (H4 Hp Hn). clear Hn.
  assert (Hconv : d' <= 0).
  { assert (Hq : Q_de_nat (Z.to_nat MAX_ITERACIONES) == 100000).
    { unfold Q_de_nat. rewrite Z2Nat.id by discriminate. reflexivity. }
    rewrite Hq in H2. destruct H2; lra. }
  destruct (bucle_tiempo_esperado_es_vuelo _ _ _ _ _ Hrun Hconv a ms He
              (Qeq_refl _)) as [H1 H2'].
  clear Hrun H2 Hconv.
  split; intro H; [apply H1; lia | apply H2'; lia].
Qed.

Lemma estimacion_es_vuelo_a_velocidad_maxima_testigo :
  estado avion_lejano = en_vuelo /\
  0 < posicion avion_lejano /\
  posicion avion_lejano <= 250000 /\
  calcular_tiempo_esperado avion_lejano = Finito (inject_Z 25) /\
  estado (vuelo_a_velocidad_maxima avion_lejano (map Z.of_nat (seq 0 24)))
  = en_vuelo.
Proof.
  assert (H1 : estado avion_lejano = en_vuelo) by reflexivity.
  assert (H2 : 0 < posicion avion_lejano) by reflexivity.
  assert (H3 : posicion avion_lejano <= 250000) by discriminate.
  assert (H4 : calcular_tiempo_esperado avion_lejano = Finito (inject_Z 25))
    by (vm_compute; reflexivity).
  split; [exact H1 | split; [exact H2 | split; [exact H3 | split; [exact H4 |]]]].
  destruct (estimacion_es_vuelo_a_velocidad_maxima avion_lejano 25
              (map Z.of_nat (seq 0 24)) H1 H2 H3 H4) as [Hvuela _].
  apply Hvuela. vm_compute. reflexivity.
Defined.

(** ** The ordered queue: [Fila.ordenar], [insertar], [eliminar],
    [obtener_primero] *)

Section OrdenacionEstable.

Variable A : Type.
Variable leb : A -> A -> bool.

Lemma insertar_ordenado_cabeza (x : A) (l : list A) :
  HdRel (fun x y => leb x y = true) x l -> insertar_ordenado leb x l = x :: l.
Proof.
  intro Hhd. destruct l as [| y l]; [reflexivity |].
  simpl. inversion Hhd as [| ? ? Hxy]; subst. now rewrite Hxy.
Qed.

(** Sorting a sorted list changes nothing. *)
Lemma ordenar_por_ordenada (l : list A) :
  Sorted (fun x y => leb x y = true) l -> ordenar_por leb l = l.
Proof.
  induction 1 as [| x l Hs IH Hhd]; [reflexivity |].
  simpl. rewrite IH. now apply insertar_ordenado_cabeza.
Qed.

Lemma insertar_ordenado_length (x : A) (l : list A) :
  length (insertar_ordenado leb x l) = S (length l).
Proof.
  induction l as [| y l IH]; simpl; [reflexivity |].
  destruct (leb x y); simpl; [reflexivity | now rewrite IH].
Qed.

End OrdenacionEstable.

Lemma clave_posicion_leb_total (h : Memoria) (r s : Ref) :
  clave_posicion_leb h r s = true \/ clave_posicion_leb h s r = true.
Proof.
  unfold clave_posicion_leb. rewrite !Qle_bool_iff.
  destruct (Qlt_le_dec (posicion (h r)) (posicion (h s))); [left; lra | now right].
Qed.

Lemma clave_posicion_leb_trans (h : Memoria) (r s t : Ref) :
  clave_posicion_leb h r s = true -> clave_posicion_leb h s t = true ->
  clave_posicion_leb h r t = true.
Proof.
  unfold clave_posicion_leb. rewrite !Qle_bool_iff. intros; lra.
Qed.

Lemma ordenar_Sorted (h : Memoria) (l : list Ref) :
  Sorted (fun r s => clave_posicion_leb h r s = true)
    (ordenar_por (clave_posicion_leb h) l).
Proof. apply ordenar_por_Sorted, clave_posicion_leb_total. Qed.

Lemma ordenar_StronglySorted (h : Memoria) (l : list Ref) :
  StronglySorted (posicion_le h) (ordenar_por (clave_posicion_leb h) l).
Proof.
  apply Sorted_StronglySorted.
  - intros x y z. unfold posicion_le. intros; lra.
  - eapply Sorted_implica; [| apply ordenar_Sorted].
    intros x y. unfold clave_posicion_leb, posicion_le. apply Qle_bool_iff.
Qed.

(** X5. [Fila.ordenar] keeps the aircraft of the queue (each as many times
    as before) and leaves them in ascending order of position; ordering an
    ordered queue changes nothing. *)
Theorem ordenar_es_ordenacion (h : Memoria) (f : Fila) :
  Permutation (aviones f) (aviones (ordenar h f)) /\
  StronglySorted (posicion_le h) (aviones (ordenar h f)) /\
  ordenar h (ordenar h f) = ordenar h f.
Proof.
  split; [apply ordenar_por_perm |].
  split; [apply ordenar_StronglySorted |].
  unfold ordenar. cbn [aviones nombre]. f_equal.
  apply ordenar_por_ordenada, ordenar_Sorted.
Qed.

(** X6. [Fila.insertar] adds the aircraft once to those of the queue and
    leaves the queue in ascending order of position, one longer than
    before. *)
Theorem insertar_en_orden (h : Memoria) (f : Fila) (avion : Ref) :
  Permutation (avion :: aviones f) (aviones (insertar h f avion)) /\
  StronglySorted (posicion_le h) (aviones (insertar h f avion)) /\
  Fila_len (insertar h f avion) = S (Fila_len f).
Proof.
  unfold insertar, ordenar, Fila_len. cbn [aviones nombre].
  assert (Hperm : Permutation (avion :: aviones f)
                    (ordenar_por (clave_posicion_leb h) (aviones f ++ [avion]))).
  { eapply perm_trans; [| apply ordenar_por_perm].
    apply Permutation_cons_append. }
  split; [exact Hperm |].
  split; [apply ordenar_StronglySorted |].
  rewrite <- (Permutation_length Hperm). reflexivity.
Qed.

Lemma existsb_eqb_In (x : Ref) (l : list Ref) :
  existsb (fun y => Nat.eqb y x) l = true <-> In x l.
Proof.
  rewrite existsb_exists. split.
  - intros (y & Hy & He). apply Nat.eqb_eq in He. now subst.
  - intro Hx. exists x. split; [exact Hx | apply Nat.eqb_refl].
Qed.

Lemma quitar_primero_perm (x : Ref) (l : list Ref) :
  In x l -> Permutation l (x :: quitar_primero x l).
Proof.
  induction l as [| y l IH]; intro Hin; [destruct Hin |].
  simpl. destruct (Nat.eqb y x) eqn:E.
  - apply Nat.eqb_eq in E. now subst.
  - destruct Hin as [-> | Hin]; [rewrite Nat.eqb_refl in E; discriminate |].
    eapply perm_trans; [apply perm_skip, IH, Hin | apply perm_swap].
Qed.

(** X7. [Fila.eliminar] takes one occurrence of the aircraft out of the
    queue when it is there and nothing otherwise, and leaves the queue in
    ascending order of position; from a queue that lists each aircraft
    once, the aircraft is gone. *)
Theorem eliminar_quita_uno (h : Memoria) (f : Fila) (avion : Ref) :
  (In avion (aviones f) ->
   Permutation (aviones f) (avion :: aviones (eliminar h f avion))) /\
  (~ In avion (aviones f) ->
   Permutation (aviones f) (aviones (eliminar h f avion))) /\
  StronglySorted (posicion_le h) (aviones (eliminar h f avion)) /\
  (NoDup (aviones f) -> ~ In avion (aviones (eliminar h f avion))).
Proof.
  unfold eliminar, ordenar. cbn [aviones nombre].
  assert (Hsi : In avion (aviones f) ->
                Permutation (aviones f)
                  (avion :: ordenar_por (clave_posicion_leb h)
                              (if existsb (fun y => Nat.eqb y avion) (aviones f)
                               then quitar_primero avion (aviones f)
                               else aviones f))).
  { intro Hin. pose proof (proj2 (existsb_eqb_In avion (aviones f)) Hin) as He.
    rewrite He. eapply perm_trans; [apply quitar_primero_perm, Hin |].
    apply perm_skip, ordenar_por_perm. }
  assert (Hno : ~ In avion (aviones f) ->
                Permutation (aviones f)
                  (ordenar_por (clave_posicion_leb h)
                     (if existsb (fun y => Nat.eqb y avion) (aviones f)
                      then quitar_primero avion (aviones f)
                      else aviones f))).
  { intro Hin.
    destruct (existsb (fun y => Nat.eqb y avion) (aviones f)) eqn:He.
    - apply existsb_eqb_In in He. contradiction.
    - apply ordenar_por_perm. }
  split; [exact Hsi | split; [exact Hno | split]].
  - apply ordenar_StronglySorted.
  - intros Hnd Hin'.
    destruct (in_dec Nat.eq_dec avion (aviones f)) as [Hin | Hin].
    + pose proof (Permutation_NoDup (Hsi Hin) Hnd) as Hnd'.
      inversion Hnd'; contradiction.
    + apply Hin. eapply Permutation_in; [apply Permutation_sym, Hno, Hin |].
      exact Hin'.
Qed.

Lemma eliminar_quita_uno_testigo :
  In 1%nat (aviones fila_ejemplo) /\
  Permutation (aviones fila_ejemplo)
    (1%nat :: aviones (eliminar memoria_ejemplo fila_ejemplo 1%nat)).
Proof.
  assert (Hin : In 1%nat (aviones fila_ejemplo)) by (simpl; tauto).
  split; [exact Hin |].
  exact (proj1 (eliminar_quita_uno memoria_ejemplo fila_ejemplo 1%nat) Hin).
Defined.

(** Taking an aircraft out of a sorted list commutes with the sorted
    insertion of another one. *)
Lemma quitar_primero_insertar_ordenado (h : Memoria) (x a : Ref)
  (l : list Ref) :
  x <> a ->
  Sorted (fun r s => clave_posicion_leb h r s = true) l ->
  quitar_primero a (insertar_ordenado (clave_posicion_leb h) x l)
  = insertar_ordenado (clave_posicion_leb h) x (quitar_primero a l).
Proof.
  intros Hne Hs.
  assert (Hx : Nat.eqb x a = false) by now apply Nat.eqb_neq.
  induction Hs as [| y l Hs IH Hhd]; simpl; [now rewrite Hx |].
  destruct (clave_posicion_leb h x y) eqn:Hxy; simpl; rewrite ?Hx.
  - destruct (Nat.eqb y a) eqn:Hya.
    + symmetry. apply insertar_ordenado_cabeza.
      destruct Hhd as [| z l Hyz]; constructor.
      eapply clave_posicion_leb_trans; eassumption.
    + simpl. now rewrite Hxy.
  - destruct (Nat.eqb y a) eqn:Hya; [reflexivity |].
    simpl. rewrite Hxy. now rewrite IH.
Qed.

Lemma quitar_primero_ordenar (h : Memoria) (a : Ref) (l : list Ref) :
  ~ In a l ->
  quitar_primero a (ordenar_por (clave_posicion_leb h) (l ++ [a]))
  = ordenar_por (clave_posicion_leb h) l.
Proof.
  induction l as [| x l IH]; intro Hin; simpl.
  - now rewrite Nat.eqb_refl.
  - rewrite quitar_primero_insertar_ordenado.
    + rewrite IH; [reflexivity | intro; apply Hin; now right].
    + intros ->. apply Hin. now left.
    + apply ordenar_Sorted.
Qed.

(** X8. Inserting an aircraft that is not in the queue and eliminating it
    again gives the ordered queue back, aircraft for aircraft. *)
Theorem eliminar_deshace_insertar (h : Memoria) (f : Fila) (avion : Ref) :
  ~ In avion (aviones f) ->
  eliminar h (insertar h f avion) avion = ordenar h f.
Proof.
  intro Hin. unfold eliminar, insertar, ordenar. cbn [aviones nombre].
  assert (Hesta : In avion (ordenar_por (clave_posicion_leb h)
                              (aviones f ++ [avion]))).
  { eapply Permutation_in; [apply ordenar_por_perm |].
    apply in_or_app. right. now left. }
  apply existsb_eqb_In in Hesta. rewrite Hesta.
  rewrite quitar_primero_ordenar by exact Hin.
  f_equal. apply ordenar_por_ordenada, ordenar_Sorted.
Qed.

Lemma eliminar_deshace_insertar_testigo :
  ~ In 2%nat (aviones fila_ejemplo) /\
  eliminar memoria_ejemplo (insertar memoria_ejemplo fila_ejemplo 2%nat) 2%nat
  = ordenar memoria_ejemplo fila_ejemplo.
Proof.
  assert (Hin : ~ In 2%nat (aviones fila_ejemplo))
    by (simpl; intuition discriminate).
  split; [exact Hin |].
  exact (eliminar_deshace_insertar memoria_ejemplo fila_ejemplo 2%nat Hin).
Defined.

(** X9. [Fila.obtener_primero] returns [None] exactly for the empty queue,
    and otherwise an aircraft of the queue that no other aircraft of the
    queue is closer to AEP than. *)
Theorem obtener_primero_es_el_mas_cercano (h : Memoria) (f : Fila) :
  (snd (obtener_primero h f) = None <-> aviones f = []) /\
  (forall r, snd (obtener_primero h f) = Some r ->
     In r (aviones f) /\
     forall s, In s (aviones f) -> posicion (h r) <= posicion (h s)).
Proof.
  unfold obtener_primero, ordenar. cbn [snd aviones].
  pose proof (ordenar_por_perm _ (clave_posicion_leb h) (aviones f)) as Hperm.
  pose proof (ordenar_StronglySorted h (aviones f)) as Hs.
  destruct (ordenar_por (clave_posicion_leb h) (aviones f)) as [| x l] eqn:E.
  - split.
    + split; [intros _ | reflexivity].
      now apply Permutation_sym, Permutation_nil in Hperm.
    + intros r Hr. discriminate.
  - split.
    + split; [discriminate |]. intro Hnil. rewrite Hnil in Hperm.
      apply Permutation_nil in Hperm. discriminate.
    + intros r Hr. inversion Hr; subst r.
      split; [eapply Permutation_in; [apply Permutation_sym, Hperm | now left] |].
      intros s Hin. apply (Permutation_in _ Hperm) in Hin.
      inversion Hs as [| ? ? _ Hall]; subst.
      destruct Hin as [<- | Hin]; [lra |].
      rewrite Forall_forall in Hall. exact (Hall s Hin).
Qed.

(** ** More on [Fila.actualizar_gaps] *)

Lemma insertar_ordenado_ext {A : Type} (leb leb' : A -> A -> bool) (x : A)
  (l : list A) :
  (forall y z, leb y z = leb' y z) ->
  insertar_ordenado leb x l = insertar_ordenado leb' x l.
Proof.
  intro He. induction l as [| y l IH]; simpl; [reflexivity |].
  now rewrite He, IH.
Qed.

Lemma ordenar_por_ext {A : Type} (leb leb' : A -> A -> bool) (l : list A) :
  (forall y z, leb y z = leb' y z) ->
  ordenar_por leb l = ordenar_por leb' l.
Proof.
  intro He. induction l as [| x l IH]; simpl; [reflexivity |].
  rewrite IH. now apply insertar_ordenado_ext.
Qed.

Lemma clave_posicion_num_leb_salvo_gaps (h h' : Memoria) :
  (forall r, salvo_gaps (h' r) (h r)) ->
  forall r s, clave_posicion_num_leb h' r s = clave_posicion_num_leb h r s.
Proof.
  intros Hs r s. unfold clave_posicion_num_leb.
  destruct (Hs r) as (Hn & _ & Hp & _), (Hs s) as (Hn' & _ & Hp' & _).
  now rewrite Hn, Hp, Hn', Hp'.
Qed.

(** The store that [actualizar_gaps] leaves, read at the position [i] of
    the sorted queue. *)
Lemma actualizar_gaps_nth (h : Memoria) (f : Fila) :
  NoDup (aviones f) ->
  let avs := ordenar_por (clave_posicion_num_leb h) (aviones f) in
  NoDup avs /\
  (forall r, salvo_gaps (fst (actualizar_gaps h f) r) (h r)) /\
  (forall i, (i < length avs)%nat ->
     fst (actualizar_gaps h f) (nth i avs O)
     = cuerpo_gaps avs (length avs) h i (nth i avs O)) /\
  (forall r, ~ In r avs -> fst (actualizar_gaps h f) r = h r).
Proof.
  intros Hnd avs.
  assert (Hnd' : NoDup avs)
    by (eapply Permutation_NoDup; [apply ordenar_por_perm | exact Hnd]).
  destruct (bucle_gaps avs (length avs) h Hnd' (length avs) (le_n _))
    as (Hsalvo & Hen & Hfuera).
  split; [exact Hnd' | split; [exact Hsalvo | split; [exact Hen |]]].
  intros r Hr. apply Hfuera. intros i Hi He. apply Hr. subst r.
  now apply nth_In.
Qed.

(** Running an iteration again where it has run changes nothing. *)
Lemma cuerpo_gaps_repetido (avs : list Ref) (n : nat) (h h1 : Memoria)
  (i : nat) :
  (forall r, salvo_gaps (h1 r) (h r)) ->
  h1 (nth i avs O) = cuerpo_gaps avs n h i (nth i avs O) ->
  cuerpo_gaps avs n h1 i (nth i avs O) = h1 (nth i avs O).
Proof.
  intros Hs He. rewrite cuerpo_gaps_en.
  destruct (Hs (nth (i - 1) avs O)) as (Hn & _ & Hp & _ & Hv & _).
  destruct (Hs (nth (i + 1) avs O)) as (Hn' & _ & Hp' & _ & _).
  destruct (Hs (nth i avs O)) as (_ & _ & Hp0 & _ & Hv0 & _).
  rewrite Hn, Hp, Hv, Hn', Hp', Hp0, Hv0.
  rewrite He. rewrite cuerpo_gaps_en. reflexivity.
Qed.

(** X10. Recomputing the gaps on an unchanged queue changes nothing: a
    second [actualizar_gaps] right after the first leaves the queue in the
    same order and every aircraft as it was.  The queue holds each aircraft
    once. *)
Theorem actualizar_gaps_idempotente (h : Memoria) (f : Fila) :
  NoDup (aviones f) ->
  let h1 := fst (actualizar_gaps h f) in
  let f1 := snd (actualizar_gaps h f) in
  snd (actualizar_gaps h1 f1) = f1 /\
  forall r, fst (actualizar_gaps h1 f1) r = h1 r.
Proof.
  intros Hnd h1 f1.
  destruct (actualizar_gaps_nth h f Hnd) as (Hnd1 & Hsalvo & Hen & Hfuera).
  set (avs := ordenar_por (clave_posicion_num_leb h) (aviones f)) in *.
  fold h1 in Hsalvo, Hen, Hfuera.
  assert (Hf1 : aviones f1 = avs) by reflexivity.
  assert (Havs : ordenar_por (clave_posicion_num_leb h1) avs = avs).
  { rewrite (ordenar_por_ext _ (clave_posicion_num_leb h))
      by (apply clave_posicion_num_leb_salvo_gaps; exact Hsalvo).
    apply ordenar_por_ordenada.
    apply ordenar_por_Sorted, clave_posicion_num_leb_total. }
  assert (Hnd2 : NoDup (aviones f1)) by (rewrite Hf1; exact Hnd1).
  destruct (actualizar_gaps_nth h1 f1 Hnd2) as (_ & _ & Hen2 & Hfuera2).
  rewrite Hf1, Havs in Hen2, Hfuera2.
  split.
  - unfold actualizar_gaps. cbn [snd]. rewrite Hf1, Havs. reflexivity.
  - intro r. destruct (in_dec Nat.eq_dec r avs) as [Hin | Hout].
    + destruct (In_nth avs r O Hin) as (i & Hi & Hr). subst r.
      rewrite (Hen2 i Hi).
      apply (cuerpo_gaps_repetido avs (length avs) h h1 i Hsalvo).
      now apply Hen.
    + now apply Hfuera2.
Qed.

Lemma actualizar_gaps_idempotente_testigo :
  NoDup (aviones fila_ejemplo) /\
  snd (actualizar_gaps (fst (actualizar_gaps memoria_ejemplo fila_ejemplo))
         (snd (actualizar_gaps memoria_ejemplo fila_ejemplo)))
  = snd (actualizar_gaps memoria_ejemplo fila_ejemplo).
Proof.
  assert (Hnd : NoDup (aviones fila_ejemplo)).
  { simpl. repeat constructor; simpl; intuition discriminate. }
  split; [exact Hnd |].
  exact (proj1 (actualizar_gaps_idempotente memoria_ejemplo fila_ejemplo Hnd)).
Defined.

Lemma Sorted_vecinos {A : Type} (R : A -> A -> Prop) (l : list A) :
  Sorted R l ->
  forall i x y, nth_error l i = Some x -> nth_error l (S i) = Some y -> R x y.
Proof.
  induction 1 as [| z l Hs IH Hhd]; intros i x y Hx Hy.
  - destruct i; discriminate.
  - destruct i as [| i].
    + simpl in Hx, Hy. inversion Hx; subst z.
      destruct l as [| w l]; [discriminate |].
      simpl in Hy. inversion Hy; subst w. now inversion Hhd.
    + simpl in Hx, Hy. now apply (IH i).
Qed.

Lemma gap_no_negativo (p q v : Q) : q <= p -> 0 < v -> 0 <= (p - q) / v * 60.
Proof.
  intros Hp Hv. apply Qmult_le_0_compat; [| lra].
  unfold Qdiv. apply Qmult_le_0_compat; [lra |].
  apply Qinv_le_0_compat. lra.
Qed.

(** X11. After [actualizar_gaps] two neighbours of the sorted queue point at
    each other: the leader's [tail_id] is the follower's id, the follower's
    [lead_id] is the leader's id, and the leader's [gap_atras] is the very
    value of the follower's [gap_adelante] (both divide the distance
    between the two by the leader's speed).  A finite gap is never
    negative.  The queue holds each aircraft once. *)
Theorem gaps_de_dos_vecinos (h : Memoria) (f : Fila) (i : nat)
  (lead r : Ref) :
  NoDup (aviones f) ->
  let h' := fst (actualizar_gaps h f) in
  let avs := aviones (snd (actualizar_gaps h f)) in
  nth_error avs i = Some lead -> nth_error avs (S i) = Some r ->
  tail_id (h' lead) = Some (num (h' r)) /\
  lead_id (h' r) = Some (num (h' lead)) /\
  gap_atras (h' lead) = gap_adelante (h' r) /\
  (forall g, gap_adelante (h' r) = Some (Finito g) -> 0 <= g).
Proof.
  intros Hnd h' avs Hl Hr.
  destruct (actualizar_gaps_nth h f Hnd) as (_ & Hsalvo & Hen & _).
  change (ordenar_por (clave_posicion_num_leb h) (aviones f)) with avs in Hen.
  fold h' in Hsalvo, Hen.
  assert (Hil : (i < length avs)%nat) by (apply nth_error_Some; congruence).
  assert (HiS : (S i < length avs)%nat) by (apply nth_error_Some; congruence).
  assert (Hnl : nth i avs O = lead) by now apply nth_error_nth.
  assert (Hnr : nth (S i) avs O = r) by now apply nth_error_nth.
  pose proof (Hen i Hil) as El. pose proof (Hen (S i) HiS) as Er.
  rewrite cuerpo_gaps_en in El, Er.
  replace (S i - 1)%nat with i in Er by lia.
  replace (i + 1)%nat with (S i) in El by lia.
  rewrite Hnl, Hnr in El, Er.
  assert (Hlast : Nat.eqb i (length avs - 1) = false)
    by (apply Nat.eqb_neq; lia).
  rewrite Hlast in El. cbn [Nat.eqb] in Er.
  assert (Hord : posicion (h lead) <= posicion (h r)).
  { assert (Hc : clave_le h lead r).
    { apply (Sorted_vecinos (clave_le h) avs) with (i := i); try assumption.
      eapply Sorted_implica;
        [| apply (ordenar_por_Sorted _ _ (clave_posicion_num_leb_total h))].
      intros x y. apply clave_posicion_num_leb_iff. }
    destruct Hc as [Hc | [Hc _]]; lra. }
  rewrite El, Er.
  cbn [tail_id lead_id gap_atras gap_adelante num con_atras con_adelante].
  split; [reflexivity | split; [reflexivity | split; [reflexivity |]]].
  intros g Hg. destruct (Qlt_bool 0 (velocidad_actual (h lead))) eqn:Hv;
    [| discriminate].
  injection Hg as <-. apply gap_no_negativo; [exact Hord |].
  now apply Qlt_bool_iff.
Qed.

Lemma gaps_de_dos_vecinos_testigo :
  NoDup (aviones fila_ejemplo) /\
  nth_error (aviones (snd (actualizar_gaps memoria_ejemplo fila_ejemplo))) 0
  = Some 1%nat /\
  nth_error (aviones (snd (actualizar_gaps memoria_ejemplo fila_ejemplo))) 1
  = Some 0%nat /\
  gap_atras (fst (actualizar_gaps memoria_ejemplo fila_ejemplo) 1%nat)
  = gap_adelante (fst (actualizar_gaps memoria_ejemplo fila_ejemplo) 0%nat).
Proof.
  assert (Hnd : NoDup (aviones fila_ejemplo)).
  { simpl. repeat constructor; simpl; intuition discriminate. }
  assert (H0 : nth_error
                 (aviones (snd (actualizar_gaps memoria_ejemplo fila_ejemplo))) 0
               = Some 1%nat) by reflexivity.
  assert (H1 : nth_error
                 (aviones (snd (actualizar_gaps memoria_ejemplo fila_ejemplo))) 1
               = Some 0%nat) by reflexivity.
  split; [exact Hnd | split; [exact H0 | split; [exact H1 |]]].
  destruct (gaps_de_dos_vecinos memoria_ejemplo fila_ejemplo 0%nat 1%nat 0%nat
              Hnd H0 H1) as (_ & _ & Hgap & _).
  exact Hgap.
Defined.

(** ** More on [Fila.actualizar_velocidades] *)

Lemma cuerpo_velocidades_lista_ma (s : EstadoVelocidades) (r : Ref) :
  ev_marcha_atras (cuerpo_velocidades s r)
  = if queda_en_marcha_atras (ev_memoria s r)
    then ev_marcha_atras s ++ [r] else ev_marcha_atras s.
Proof.
  unfold cuerpo_velocidades, queda_en_marcha_atras.
  destruct (Estado_eqb (estado (ev_memoria s r)) marcha_atras);
    [reflexivity |].
  destruct (gap_adelante (ev_memoria s r)) as [g |]; [| reflexivity].
  destruct (tiempo_lt_bool g GAP_MIN); cbn [orb andb].
  - destruct (Qlt_bool _ _); reflexivity.
  - destruct (tiempo_ge_bool g GAP_BUFFER); reflexivity.
Qed.

Lemma cuerpo_velocidades_lista_ev (s : EstadoVelocidades) (r : Ref) :
  ev_en_vuelo_activos (cuerpo_velocidades s r)
  = if negb (queda_en_marcha_atras (ev_memoria s r))
    then ev_en_vuelo_activos s ++ [r] else ev_en_vuelo_activos s.
Proof.
  unfold cuerpo_velocidades, queda_en_marcha_atras.
  destruct (Estado_eqb (estado (ev_memoria s r)) marcha_atras);
    [reflexivity |].
  destruct (gap_adelante (ev_memoria s r)) as [g |]; [| reflexivity].
  destruct (tiempo_lt_bool g GAP_MIN); cbn [orb andb negb].
  - destruct (Qlt_bool _ _); reflexivity.
  - destruct (tiempo_ge_bool g GAP_BUFFER); reflexivity.
Qed.

(** The state in which an iteration leaves the aircraft it visits. *)
Lemma cuerpo_velocidades_estado (s : EstadoVelocidades) (r : Ref) :
  estado (ev_memoria (cuerpo_velocidades s r) r)
  = if queda_en_marcha_atras (ev_memoria s r) then marcha_atras else en_vuelo.
Proof.
  unfold cuerpo_velocidades, queda_en_marcha_atras.
  destruct (Estado_eqb (estado (ev_memoria s r)) marcha_atras) eqn:He.
  - apply Estado_eqb_eq in He. exact He.
  - destruct (gap_adelante (ev_memoria s r)) as [g |];
      [| cbn [ev_memoria]; now rewrite escribir_mismo].
    destruct (tiempo_lt_bool g GAP_MIN); cbn [orb andb].
    + destruct (Qlt_bool (velocidad_actual (ev_memoria s r) - 20) _);
        cbn [ev_memoria]; now rewrite escribir_mismo.
    + destruct (tiempo_ge_bool g GAP_BUFFER);
        cbn [ev_memoria]; now rewrite escribir_mismo.
Qed.

Lemma filter_particion {A : Type} (p : A -> bool) (l : list A) :
  Permutation l (filter (fun x => negb (p x)) l ++ filter p l).
Proof.
  induction l as [| x l IH]; simpl; [constructor |].
  destruct (p x); simpl.
  - now apply Permutation_cons_app.
  - now apply perm_skip.
Qed.

(** X12. The two lists that [actualizar_velocidades] returns split the
    queue: together they hold the aircraft of the queue, each once, and
    after the pass the aircraft of [en_vuelo_activos] are in state
    [en_vuelo] and those of [marcha_atras] in state [marcha_atras].  The
    queue holds each aircraft once. *)
Theorem actualizar_velocidades_reparte_la_fila (h : Memoria) (f : Fila)
  (resultados : option Resultados) :
  NoDup (aviones f) ->
  let s := actualizar_velocidades h f resultados in
  Permutation (aviones f) (ev_en_vuelo_activos s ++ ev_marcha_atras s) /\
  (forall r, In r (ev_en_vuelo_activos s) ->
             estado (ev_memoria s r) = en_vuelo) /\
  (forall r, In r (ev_marcha_atras s) ->
             estado (ev_memoria s r) = marcha_atras).
Proof.
  intros Hnd s.
  assert (Hev : ev_en_vuelo_activos s
                = filter (fun r => negb (queda_en_marcha_atras (h r)))
                    (aviones f)).
  { subst s. unfold actualizar_velocidades.
    apply (bucle_lista _ ev_memoria cuerpo_velocidades
             cuerpo_velocidades_marco ev_en_vuelo_activos
             (fun a => negb (queda_en_marcha_atras a))
             cuerpo_velocidades_lista_ev).
    exact Hnd. }
  assert (Hma : ev_marcha_atras s
                = filter (fun r => queda_en_marcha_atras (h r)) (aviones f)).
  { subst s. unfold actualizar_velocidades.
    apply (bucle_lista _ ev_memoria cuerpo_velocidades
             cuerpo_velocidades_marco ev_marcha_atras
             queda_en_marcha_atras cuerpo_velocidades_lista_ma).
    exact Hnd. }
  assert (Hest : forall r, In r (aviones f) ->
            estado (ev_memoria s r)
            = if queda_en_marcha_atras (h r) then marcha_atras else en_vuelo).
  { intros r Hin. subst s.
    rewrite (actualizar_velocidades_en h f resultados r Hnd Hin
               inicializar_resultados [] []).
    apply cuerpo_velocidades_estado. }
  rewrite Hev, Hma. split; [apply filter_particion | split].
  - intros r Hr. apply filter_In in Hr. destruct Hr as [Hin Hq].
    rewrite (Hest r Hin). apply negb_true_iff in Hq. now rewrite Hq.
  - intros r Hr. apply filter_In in Hr. destruct Hr as [Hin Hq].
    rewrite (Hest r Hin). now rewrite Hq.
Qed.

Lemma actualizar_velocidades_reparte_la_fila_testigo :
  NoDup (aviones fila_ejemplo) /\
  Permutation (aviones fila_ejemplo)
    (ev_en_vuelo_activos
       (actualizar_velocidades memoria_ejemplo fila_ejemplo None)
     ++ ev_marcha_atras
          (actualizar_velocidades memoria_ejemplo fila_ejemplo None)).
Proof.
  assert (Hnd : NoDup (aviones fila_ejemplo)).
  { simpl. repeat constructor; simpl; intuition discriminate. }
  split; [exact Hnd |].
  exact (proj1 (actualizar_velocidades_reparte_la_fila memoria_ejemplo
                  fila_ejemplo None Hnd)).
Defined.

(** What an iteration leaves at the aircraft it visits differs from what
    was there in state and speed only, and a speed that respected the band
    minimum still does if the aircraft is left flying. *)
Lemma cuerpo_velocidades_cuida (s : EstadoVelocidades) (r : Ref) :
  let a := ev_memoria s r in
  let a' := ev_memoria (cuerpo_velocidades s r) r in
  salvo_estado_y_velocidad a' a /\
  (estado a' = en_vuelo -> vel_min_actual a <= velocidad_actual a ->
   vel_min_actual a' <= velocidad_actual a') /\
  (estado a <> marcha_atras -> estado a' = marcha_atras ->
   velocidad_actual a' = - VEL_MARCHA_ATRAS).
Proof.
  intros a a'. subst a'. unfold cuerpo_velocidades. fold a.
  pose proof (velocidad_permitida_positiva (posicion a)) as Hb.
  unfold vel_max_actual, vel_min_actual.
  assert (Hsalvo : forall e v,
            salvo_estado_y_velocidad (con_estado (con_velocidad a v) e) a)
    by (intros; unfold salvo_estado_y_velocidad; simpl; tauto).
  assert (Hsalvo' : forall e, salvo_estado_y_velocidad (con_estado a e) a)
    by (intros; unfold salvo_estado_y_velocidad; simpl; tauto).
  destruct (Estado_eqb (estado a) marcha_atras) eqn:He.
  - cbn [ev_memoria]. fold a. apply Estado_eqb_eq in He.
    split; [unfold salvo_estado_y_velocidad; tauto |].
    split; [intro H; congruence | intro H; contradiction].
  - assert (Hsube :
      let a' := con_estado
                  (if Qlt_bool (velocidad_actual a)
                        (fst (velocidad_permitida (posicion a)))
                   then con_velocidad a (fst (velocidad_permitida (posicion a)))
                   else a) en_vuelo in
      salvo_estado_y_velocidad a' a /\
      (estado a' = en_vuelo ->
       snd (velocidad_permitida (posicion a)) <= velocidad_actual a ->
       snd (velocidad_permitida (posicion a')) <= velocidad_actual a') /\
      (estado a <> marcha_atras -> estado a' = marcha_atras ->
       velocidad_actual a' = - VEL_MARCHA_ATRAS)).
    { destruct (Qlt_bool (velocidad_actual a) _) eqn:Ev; cbv zeta.
      - split; [apply Hsalvo |]. split; [simpl; intros; lra |].
        simpl. discriminate.
      - split; [apply Hsalvo' |]. split; [simpl; intros; lra |].
        simpl. discriminate. }
    destruct (gap_adelante a) as [g |];
      [| cbn [ev_memoria]; rewrite escribir_mismo; exact Hsube].
    destruct (tiempo_lt_bool g GAP_MIN).
    + destruct (Qlt_bool (velocidad_actual a - 20) _) eqn:Ev;
        cbn [ev_memoria]; rewrite escribir_mismo.
      * split; [apply Hsalvo |]. split; [simpl; discriminate |].
        intros; reflexivity.
      * split; [apply Hsalvo |]. a_desigualdades.
        split; [simpl; intros; lra | simpl; discriminate].
    + destruct (tiempo_ge_bool g GAP_BUFFER);
        cbn [ev_memoria]; rewrite escribir_mismo; [exact Hsube |].
      split; [apply Hsalvo' |].
      split; [simpl; intros; lra | simpl; discriminate].
Qed.

(** X13. [actualizar_velocidades] changes nothing but state and speed: an
    aircraft outside the queue is untouched, and one in the queue keeps its
    id, position, gap attributes and history.  It never leaves an aircraft
    flying under the minimum of its band if it was not under it before, and
    an aircraft that it sends around gets the speed [-200].  The queue
    holds each aircraft once. *)
Theorem actualizar_velocidades_solo_estado_y_velocidad (h : Memoria)
  (f : Fila) (resultados : option Resultados) (r : Ref) :
  NoDup (aviones f) ->
  let a := h r in
  let a' := ev_memoria (actualizar_velocidades h f resultados) r in
  (~ In r (aviones f) -> a' = a) /\
  salvo_estado_y_velocidad a' a /\
  (estado a' = en_vuelo -> vel_min_actual a <= velocidad_actual a ->
   vel_min_actual a' <= velocidad_actual a') /\
  (estado a <> marcha_atras -> estado a' = marcha_atras ->
   velocidad_actual a' = - VEL_MARCHA_ATRAS).
Proof.
  intros Hnd a a'.
  assert (Hfuera : ~ In r (aviones f) -> a' = a).
  { intro Hout. subst a' a. unfold actualizar_velocidades.
    now rewrite (bucle_fuera _ ev_memoria cuerpo_velocidades
                   cuerpo_velocidades_marco). }
  split; [exact Hfuera |].
  destruct (in_dec Nat.eq_dec r (aviones f)) as [Hin | Hout].
  - subst a'.
    rewrite (actualizar_velocidades_en h f resultados r Hnd Hin
               inicializar_resultados [] []).
    apply (cuerpo_velocidades_cuida
             (mkEstadoVelocidades h inicializar_resultados [] []) r).
  - rewrite (Hfuera Hout).
    split; [unfold salvo_estado_y_velocidad; tauto |].
    split; [intros _ H; exact H | intros H1 H2; contradiction].
Qed.

Lemma actualizar_velocidades_solo_estado_y_velocidad_testigo :
  NoDup (aviones fila_ejemplo) /\
  posicion (ev_memoria
              (actualizar_velocidades memoria_ejemplo fila_ejemplo None) 1%nat)
  = posicion (memoria_ejemplo 1%nat).
Proof.
  assert (Hnd : NoDup (aviones fila_ejemplo)).
  { simpl. repeat constructor; simpl; intuition discriminate. }
  split; [exact Hnd |].
  destruct (actualizar_velocidades_solo_estado_y_velocidad memoria_ejemplo
              fila_ejemplo None 1%nat Hnd) as (_ & Hsalvo & _).
  destruct Hsalvo as (_ & _ & Hp & _). exact Hp.
Defined.

(** ** More on the arrival generator *)

Lemma desplazar_primero_libre (ocupados : list Z) (total_min : Z) (n : nat) :
  forall minuto,
    (total_min - minuto <= Z.of_nat n)%Z ->
    (forall x, (minuto <= x < desplazar n ocupados total_min minuto)%Z ->
               In x ocupados) /\
    ((minuto <= total_min)%Z ->
     (desplazar n ocupados total_min minuto <= total_min)%Z).
Proof.
  induction n as [| n IH]; intros minuto Hn; cbn [desplazar].
  - split; intros; lia.
  - destruct (existsb (Z.eqb minuto) ocupados) eqn:Hex; cbn [andb].
    + destruct (Z.ltb_spec minuto total_min) as [Hlt | Hge].
      * destruct (IH (minuto + 1)%Z ltac:(lia)) as [Hocc Hmax].
        split; [| intros _; apply Hmax; lia].
        intros x Hx. destruct (Z.eq_dec x minuto) as [-> | Hne].
        -- apply existsb_exists in Hex. destruct Hex as (y & Hy & He).
           apply Z.eqb_eq in He. now subst.
        -- apply Hocc. lia.
      * split; intros; lia.
    + split; intros; lia.
Qed.

(** X14. The collision loop of the generator moves an arrival to the first
    free minute at or after its own: the minute it ends on is not before
    the starting one, every minute skipped is taken, the final minute is
    free when it is before the horizon, and the loop never goes past the
    horizon. *)
Theorem desplazar_al_primer_minuto_libre (ocupados : list Z)
  (total_min minuto : Z) :
  let m := desplazar (Z.to_nat (total_min - minuto)) ocupados total_min
             minuto in
  (minuto <= m)%Z /\
  (forall x, (minuto <= x < m)%Z -> In x ocupados) /\
  ((m < total_min)%Z -> ~ In m ocupados) /\
  ((minuto <= total_min)%Z -> (m <= total_min)%Z).
Proof.
  intro m.
  destruct (desplazar_libre ocupados total_min
              (Z.to_nat (total_min - minuto)) minuto ltac:(lia)) as [H1 H2].
  destruct (desplazar_primero_libre ocupados total_min
              (Z.to_nat (total_min - minuto)) minuto ltac:(lia)) as [H3 H4].
  fold m in H1, H2, H3, H4. tauto.
Qed.

(** The accepted times are not negative and lie before the horizon, for
    any rate. *)
Lemma bucle_poisson_cotas_general (exponencial : nat -> Q -> Q)
  (lambda_min : Q) (total_min : Z) (c : nat) :
  (forall k s, 0 <= exponencial k s) ->
  forall k tiempo acc l,
    tiempo_no_negativo tiempo ->
    Forall (fun t => 0 <= t /\ t < inject_Z total_min) acc ->
    bucle_poisson c exponencial lambda_min total_min k tiempo acc = Some l ->
    Forall (fun t => 0 <= t /\ t < inject_Z total_min) l.
Proof.
  intro Hdraws.
  induction c as [| c IH]; intros k tiempo acc l Ht Hacc Hrun;
    cbn [bucle_poisson] in Hrun; [discriminate |].
  destruct (tiempo_lt_bool tiempo (inject_Z total_min));
    [| now inversion Hrun; subst].
  destruct (Qlt_bool 0 lambda_min).
  - destruct tiempo as [x |]; cbn [tiempo_mas] in Hrun.
    + simpl in Ht. pose proof (Hdraws k (1 / lambda_min)) as Hd.
      apply IH in Hrun; [exact Hrun | simpl; lra |].
      destruct (Qlt_bool (x + exponencial k (1 / lambda_min)) _) eqn:E;
        [| exact Hacc].
      apply Forall_app. split; [exact Hacc |].
      constructor; [| constructor]. a_desigualdades. lra.
    + apply IH in Hrun; [exact Hrun | exact I | exact Hacc].
  - assert (Hinf : tiempo_mas tiempo Infinito = Infinito)
      by (destruct tiempo; reflexivity).
    rewrite Hinf in Hrun.
    apply IH in Hrun; [exact Hrun | exact I | exact Hacc].
Qed.

Lemma sin_repetir_en_rango (l : list Z) (n : Z) :
  NoDup l -> Forall (fun m => (0 <= m < n)%Z) l ->
  (Z.of_nat (length l) <= Z.max 0 n)%Z.
Proof.
  intros Hnd Hran.
  assert (Hincl : incl l (map Z.of_nat (seq 0 (Z.to_nat n)))).
  { intros m Hm. rewrite Forall_forall in Hran. specialize (Hran m Hm).
    apply in_map_iff. exists (Z.to_nat m). split; [lia |].
    apply in_seq. lia. }
  pose proof (NoDup_incl_length Hnd Hincl) as Hlen.
  rewrite length_map, length_seq in Hlen. lia.
Qed.

(** X15. Whatever the rate and the draws (not negative), a sequence that
    [generar_vuelos_poisson] returns holds each minute at most once, only
    minutes of [[0, int(H * 60))], and so at most [int(H * 60)] arrivals:
    continuous arrivals that find no free minute before the horizon are
    dropped. *)
Theorem a_lo_sumo_un_arribo_por_minuto (combustible : nat)
  (exponencial : nat -> Q -> Q) (lambda_hora duracion_horas : Q)
  (tiempos : list Z) :
  (forall k s, 0 <= exponencial k s) ->
  generar_vuelos_poisson combustible exponencial lambda_hora duracion_horas
  = Some tiempos ->
  NoDup tiempos /\
  Forall (fun m => (0 <= m < int_de_float (duracion_horas * 60))%Z) tiempos /\
  (Z.of_nat (length tiempos)
   <= Z.max 0 (int_de_float (duracion_horas * 60)))%Z.
Proof.
  intros Hdraws Hgen. unfold generar_vuelos_poisson in Hgen.
  set (total_min := int_de_float (duracion_horas * 60)) in *.
  destruct (bucle_poisson combustible exponencial (lambda_hora / 60) total_min
              0 (Finito 0) []) as [reales |] eqn:Hreales; [| discriminate].
  injection Hgen as <-.
  assert (Hcotas : Forall (fun t => 0 <= t /\ t < inject_Z total_min) reales).
  { eapply (bucle_poisson_cotas_general exponencial (lambda_hora / 60)
              total_min combustible Hdraws); [| | exact Hreales];
      [simpl; lra | constructor]. }
  destruct (bucle_enteros_conserva total_min reales ([], []))
    as [Hnd Hran].
  { eapply Forall_impl; [| exact Hcotas]. simpl. tauto. }
  { simpl. split; [constructor | split; [tauto | constructor]]. }
  set (enteros := fst (fold_left (cuerpo_enteros total_min) reales ([], [])))
    in *.
  assert (Hperm : Permutation enteros (ordenar_por Z.leb enteros))
    by apply ordenar_por_perm.
  assert (Hnd' : NoDup (ordenar_por Z.leb enteros))
    by (eapply Permutation_NoDup; eassumption).
  assert (Hran' : Forall (fun m => (0 <= m < total_min)%Z)
                    (ordenar_por Z.leb enteros))
    by (eapply Permutation_Forall; eassumption).
  split; [exact Hnd' | split; [exact Hran' |]].
  now apply sin_repetir_en_rango.
Qed.

Lemma a_lo_sumo_un_arribo_por_minuto_testigo :
  (forall (k : nat) (s : Q), 0 <= (fun _ _ => 25) k s) /\
  generar_vuelos_poisson 5 (fun _ _ => 25) 20 1 = Some [25%Z; 50%Z] /\
  (Z.of_nat (length [25%Z; 50%Z]) <= Z.max 0 (int_de_float (1 * 60)))%Z.
Proof.
  assert (H1 : forall (k : nat) (s : Q), 0 <= (fun _ _ => 25) k s)
    by (intros; discriminate).
  assert (H2 : generar_vuelos_poisson 5 (fun _ _ => 25) 20 1
               = Some [25%Z; 50%Z]) by reflexivity.
  split; [exact H1 | split; [exact H2 |]].
  destruct (a_lo_sumo_un_arribo_por_minuto 5 (fun _ _ => 25) 20 1
              [25%Z; 50%Z] H1 H2) as (_ & _ & Hlen).
  exact Hlen.
Defined.

(** ** More on [filtrar_aviones_a_tiempo] *)

Lemma StronglySorted_filter {A : Type} (R : A -> A -> Prop) (p : A -> bool)
  (l : list A) :
  StronglySorted R l -> StronglySorted R (filter p l).
Proof.
  induction 1 as [| x l Hs IH Hall]; simpl; [constructor |].
  destruct (p x); [| exact IH].
  constructor; [exact IH |].
  rewrite Forall_forall in *. intros y Hy. apply Hall.
  apply filter_In in Hy. tauto.
Qed.

Lemma cuerpo_filtrar_contadores (m : Z) (d : Q) (s : EstadoFiltro) (r : Ref) :
  aterrizados (ef_resultados (cuerpo_filtrar m d s r))
  = aterrizados (ef_resultados s) /\
  congestion (ef_resultados (cuerpo_filtrar m d s r))
  = congestion (ef_resultados s).
Proof.
  unfold cuerpo_filtrar. destruct (tiempo_le_bool _ _); split; reflexivity.
Qed.

(** A quantity that no iteration changes is the same after the loop. *)
Lemma bucle_constante {St X Y : Type} (cuerpo : St -> X -> St) (f : St -> Y)
  (l : list X) :
  (forall s x, f (cuerpo s x) = f s) ->
  forall s, f (fold_left cuerpo l s) = f s.
Proof.
  intro Hc. induction l as [| x l IH]; intro s; [reflexivity |].
  cbn [fold_left]. now rewrite IH.
Qed.

Lemma bucle_filtrar_contadores (m : Z) (d : Q) (l : list Ref)
  (s : EstadoFiltro) :
  aterrizados (ef_resultados (fold_left (cuerpo_filtrar m d) l s))
  = aterrizados (ef_resultados s) /\
  congestion (ef_resultados (fold_left (cuerpo_filtrar m d) l s))
  = congestion (ef_resultados s).
Proof.
  split.
  - apply (bucle_constante (cuerpo_filtrar m d)
             (fun s => aterrizados (ef_resultados s))).
    intros s' x. apply cuerpo_filtrar_contadores.
  - apply (bucle_constante (cuerpo_filtrar m d)
             (fun s => congestion (ef_resultados s))).
    intros s' x. apply cuerpo_filtrar_contadores.
Qed.

(** X16. [filtrar_aviones_a_tiempo] leaves the queue ordered by position and
    returns, in that order, the aircraft of the queue that can still land
    in time: the returned list is in ascending order of position.  Aircraft
    outside the queue are untouched, and of the counters only [desviados]
    can change.  The queue holds each aircraft once. *)
Theorem filtrar_acepta_en_orden (h : Memoria) (fila : Fila) (minuto : Z)
  (duracion_horas : Q) (resultados : Resultados) :
  NoDup (aviones fila) ->
  let sf := filtrar_aviones_a_tiempo h fila minuto duracion_horas resultados in
  snd sf = ordenar h fila /\
  ef_aviones_validos (fst sf)
  = filter (fun r => negb (llega_tarde minuto duracion_horas (h r)))
      (aviones (ordenar h fila)) /\
  StronglySorted (posicion_le h) (ef_aviones_validos (fst sf)) /\
  (forall r, ~ In r (aviones fila) -> ef_memoria (fst sf) r = h r) /\
  aterrizados (ef_resultados (fst sf)) = aterrizados resultados /\
  congestion (ef_resultados (fst sf)) = congestion resultados.
Proof.
  intros Hnd sf.
  set (todos := ordenar_por (clave_posicion_leb h) (aviones fila)).
  assert (Hperm : Permutation (aviones fila) todos) by apply ordenar_por_perm.
  assert (Hnd' : NoDup todos) by (eapply Permutation_NoDup; eassumption).
  subst sf. unfold filtrar_aviones_a_tiempo, obtener_todos, ordenar.
  cbn [fst snd aviones]. fold todos.
  assert (Hval : ef_aviones_validos
                   (fold_left (cuerpo_filtrar minuto duracion_horas) todos
                      (mkEstadoFiltro h resultados []))
                 = filter (fun x => negb (llega_tarde minuto duracion_horas (h x)))
                     todos).
  { apply (bucle_lista _ ef_memoria (cuerpo_filtrar minuto duracion_horas)
             (cuerpo_filtrar_marco minuto duracion_horas)
             ef_aviones_validos
             (fun a => negb (llega_tarde minuto duracion_horas a))
             (cuerpo_filtrar_lista minuto duracion_horas)).
    exact Hnd'. }
  split; [reflexivity |]. split; [exact Hval |].
  split; [rewrite Hval; apply StronglySorted_filter, ordenar_StronglySorted |].
  split.
  - intros r Hr.
    apply (bucle_fuera _ ef_memoria (cuerpo_filtrar minuto duracion_horas)
             (cuerpo_filtrar_marco minuto duracion_horas)).
    intro Hin. apply Hr.
    eapply Permutation_in; [apply Permutation_sym, Hperm | exact Hin].
  - apply (bucle_filtrar_contadores minuto duracion_horas todos
             (mkEstadoFiltro h resultados [])).
Qed.

Lemma filtrar_acepta_en_orden_testigo :
  NoDup (aviones fila_ejemplo) /\
  ef_aviones_validos
    (fst (filtrar_aviones_a_tiempo memoria_ejemplo fila_ejemplo 0 1
            inicializar_resultados))
  = filter (fun r => negb (llega_tarde 0 1 (memoria_ejemplo r)))
      (aviones (ordenar memoria_ejemplo fila_ejemplo)).
Proof.
  assert (Hnd : NoDup (aviones fila_ejemplo)).
  { simpl. repeat constructor; simpl; intuition discriminate. }
  split; [exact Hnd |].
  destruct (filtrar_acepta_en_orden memoria_ejemplo fila_ejemplo 0 1
              inicializar_resultados Hnd) as (_ & Hval & _).
  exact Hval.
Defined.

(** ** More on [avanzar_aviones_un_minuto] *)

Lemma cuerpo_avanzar_contadores (m : Z) (dt : Q) (s : Memoria * Resultados)
  (r : Ref) :
  aterrizados (snd (cuerpo_avanzar m dt s r)) = aterrizados (snd s) /\
  congestion (snd (cuerpo_avanzar m dt s r)) = congestion (snd s).
Proof.
  unfold cuerpo_avanzar. destruct (estado (fst s r)); try (split; reflexivity).
  destruct (Qlt_bool _ _); split; reflexivity.
Qed.

Lemma bucle_avanzar_contadores (m : Z) (dt : Q) (l : list Ref)
  (s : Memoria * Resultados) :
  aterrizados (snd (fold_left (cuerpo_avanzar m dt) l s))
  = aterrizados (snd s) /\
  congestion (snd (fold_left (cuerpo_avanzar m dt) l s))
  = congestion (snd s).
Proof.
  split.
  - apply (bucle_constante (cuerpo_avanzar m dt)
             (fun s => aterrizados (snd s))).
    intros s' x. apply cuerpo_avanzar_contadores.
  - apply (bucle_constante (cuerpo_avanzar m dt)
             (fun s => congestion (snd s))).
    intros s' x. apply cuerpo_avanzar_contadores.
Qed.

(** X17. One tick of [avanzar_aviones_un_minuto] moves a flying aircraft of
    the list just as [avanzar_minuto] does, and gives an aircraft in
    reverse flight one new history entry for the minute; an aircraft of the
    list that is [aterrizado] or [desviado] is left as it is, with no new
    history entry, and so is every aircraft outside the list.  The
    counters [aterrizados] and [congestion] are never changed: a landing is
    not counted here.  The list holds each aircraft once. *)
Theorem avanzar_aviones_un_minuto_por_estado (h : Memoria)
  (activos : list Ref) (minuto : Z) (dt : Q)
  (resultados : option Resultados) (r : Ref) :
  NoDup activos ->
  let s := avanzar_aviones_un_minuto h activos minuto dt resultados in
  let a := h r in
  let a' := fst s r in
  (~ In r activos -> a' = a) /\
  (In r activos -> estado a = en_vuelo -> a' = avanzar_minuto a minuto dt) /\
  (In r activos -> estado a = aterrizado \/ estado a = desviado -> a' = a) /\
  (In r activos -> estado a = marcha_atras ->
   historial_posiciones a'
   = historial_posiciones a
     ++ [mkRegistro minuto (posicion a') (velocidad_actual a') (estado a')
           (gap_adelante a) (lead_id a) (gap_atras a) (tail_id a)]) /\
  aterrizados (snd s)
  = match resultados with None => 0%Z | Some res => aterrizados res end /\
  congestion (snd s)
  = match resultados with None => 0%Z | Some res => congestion res end.
Proof.
  intros Hnd s a a'.
  assert (Hen : In r activos ->
                a' = fst (cuerpo_avanzar minuto dt (h, inicializar_resultados) r) r).
  { intro Hin. subst a' s. unfold avanzar_aviones_un_minuto.
    rewrite (bucle_dentro _ fst (cuerpo_avanzar minuto dt)
               (cuerpo_avanzar_marco minuto dt)
               (cuerpo_avanzar_local minuto dt)) by assumption.
    now apply cuerpo_avanzar_local. }
  unfold cuerpo_avanzar in Hen. cbn [fst snd] in Hen. fold a in Hen.
  split; [| split; [| split; [| split]]].
  - intro Hout. subst a' s a. unfold avanzar_aviones_un_minuto.
    now rewrite (bucle_fuera _ fst (cuerpo_avanzar minuto dt)
                   (cuerpo_avanzar_marco minuto dt)).
  - intros Hin He. rewrite (Hen Hin), He. cbn [fst]. apply escribir_mismo.
  - intros Hin [He | He]; rewrite (Hen Hin), He; reflexivity.
  - intros Hin He. rewrite (Hen Hin), He.
    cbn [posicion con_posicion].
    destruct (Qlt_bool _ _); cbn [fst]; rewrite escribir_mismo; reflexivity.
  - subst s. unfold avanzar_aviones_un_minuto.
    destruct (bucle_avanzar_contadores minuto dt activos
                (h, match resultados with
                    | None => mkResultados 0 0 0
                    | Some res => res
                    end)) as [Ha Hc].
    rewrite Ha, Hc. cbn [snd]. now destruct resultados.
Qed.

Lemma avanzar_aviones_un_minuto_por_estado_testigo :
  NoDup [0%nat] /\
  fst (avanzar_aviones_un_minuto
         (fun _ => marcar_desviado avion_lejano) [0%nat] 7 1 None) 0%nat
  = marcar_desviado avion_lejano.
Proof.
  assert (Hnd : NoDup [0%nat]) by (repeat constructor; simpl; tauto).
  split; [exact Hnd |].
  destruct (avanzar_aviones_un_minuto_por_estado
              (fun _ => marcar_desviado avion_lejano) [0%nat] 7 1 None 0%nat
              Hnd) as (_ & _ & Hterm & _).
  apply Hterm; [simpl; tauto | right; reflexivity].
Defined.

(** ** More on [cerrar_AEP] *)

(** One iteration of the wind check, by cases. *)
Lemma cuerpo_cerrar_casos (p : Q) (rand : nat -> Q) (h : Memoria) (k : nat)
  (r : Ref) :
  (en_vuelo_parado (h r) ->
   cuerpo_cerrar p rand (h, k) r = Lanza ZeroDivisionError) /\
  (~ en_vuelo_parado (h r) ->
   exists h1 k1,
     cuerpo_cerrar p rand (h, k) r = Normal (h1, k1) /\
     (k <= k1)%nat /\
     (forall x, x <> r -> h1 x = h x) /\
     por_el_viento (h r) (h1 r) /\
     (p <= rand k -> h1 r = h r) /\
     (rand k < p -> estado (h r) = en_vuelo ->
      posicion (h r) / velocidad_actual (h r) * 60 <= 1 ->
      h1 r = interrumpido (h r))).
Proof.
  unfold cuerpo_cerrar, en_vuelo_parado. cbn [fst snd].
  assert (Hquieto : forall k1, (k <= k1)%nat ->
            (estado (h r) = en_vuelo ->
             posicion (h r) / velocidad_actual (h r) * 60 <= 1 ->
             rand k < p -> False) ->
            exists h1 k1',
              Normal (h, k1) = Normal (h1, k1') /\ (k <= k1')%nat /\
              (forall x, x <> r -> h1 x = h x) /\
              por_el_viento (h r) (h1 r) /\
              (p <= rand k -> h1 r = h r) /\
              (rand k < p -> estado (h r) = en_vuelo ->
               posicion (h r) / velocidad_actual (h r) * 60 <= 1 ->
               h1 r = interrumpido (h r))).
  { intros k1 Hk Hno. exists h, k1.
    split; [reflexivity | split; [exact Hk | split; [reflexivity |]]].
    split; [now left | split; [reflexivity |]].
    intros H1 H2 H3. exfalso. now apply Hno. }
  destruct (estado (h r)) eqn:He.
  - destruct (Qeq_bool (velocidad_actual (h r)) 0) eqn:Hv.
    + apply Qeq_bool_iff in Hv. split; [reflexivity | tauto].
    + split; [intros [_ H0]; apply Qeq_bool_iff in H0; congruence |].
      intros _.
      destruct (Qle_bool (posicion (h r) / velocidad_actual (h r) * 60) 1)
        eqn:Hc.
      * destruct (Qlt_bool (rand k) p) eqn:Hr; a_desigualdades.
        -- exists (escribir h r (interrumpido (h r))), (S k).
           split; [reflexivity | split; [lia |]].
           split; [intros x Hx; now apply escribir_otro |].
           rewrite escribir_mismo.
           split; [right; tauto |].
           split; [intro; lra | reflexivity].
        -- apply Hquieto; [lia |]. intros _ _ H. lra.
      * apply Qle_bool_false in Hc. apply Hquieto; [lia |].
        intros _ H _. lra.
  - split; [intros [H _]; discriminate |]. intros _.
    apply Hquieto; [lia | discriminate].
  - split; [intros [H _]; discriminate |]. intros _.
    apply Hquieto; [lia | discriminate].
  - split; [intros [H _]; discriminate |]. intros _.
    apply Hquieto; [lia | discriminate].
Qed.

Lemma por_el_viento_no_para (a a' : Avion) :
  por_el_viento a a' -> ~ en_vuelo_parado a -> ~ en_vuelo_parado a'.
Proof.
  intros [-> | (_ & _ & ->)] Hno; [exact Hno |].
  intros [He _]. discriminate.
Qed.

(** X18. [cerrar_AEP] raises [ZeroDivisionError] exactly when the list holds
    an aircraft that is flying with speed zero, and it raises nothing
    else. *)
Theorem cerrar_AEP_falla_solo_por_velocidad_cero (h : Memoria)
  (l : list Ref) (p : Q) (rand : nat -> Q) (k : nat) :
  (cerrar_AEP h l p rand k = Lanza ZeroDivisionError <->
   exists r, In r l /\ en_vuelo_parado (h r)) /\
  cerrar_AEP h l p rand k <> Lanza ValueError.
Proof.
  unfold cerrar_AEP. revert h k.
  induction l as [| r l IH]; intros h k; cbn [para_cada].
  - split; [| discriminate].
    split; [discriminate | intros (r & [] & _)].
  - destruct (cuerpo_cerrar_casos p rand h k r) as [Hpara Hsigue].
    assert (Hdec : en_vuelo_parado (h r) \/ ~ en_vuelo_parado (h r)).
    { unfold en_vuelo_parado.
      destruct (estado (h r));
        try (right; intros [H _]; discriminate).
      destruct (Qeq_bool (velocidad_actual (h r)) 0) eqn:Hv.
      - left. apply Qeq_bool_iff in Hv. tauto.
      - right. intros [_ H]. apply Qeq_bool_iff in H. congruence. }
    destruct Hdec as [Hp | Hnp].
    + rewrite (Hpara Hp). cbn [ligar].
      split; [| discriminate].
      split; [intros _; exists r; split; [now left | exact Hp] | reflexivity].
    + destruct (Hsigue Hnp) as (h1 & k1 & Hrun & _ & Hotros & Hviento & _).
      rewrite Hrun. cbn [ligar].
      destruct (IH h1 k1) as [IH1 IH2].
      split; [| exact IH2].
      rewrite IH1.
      assert (Hmismo : forall x, en_vuelo_parado (h1 x) <-> en_vuelo_parado (h x)).
      { intro x. destruct (Nat.eq_dec x r) as [-> | Hne].
        - split; intro H; exfalso.
          + exact (por_el_viento_no_para _ _ Hviento Hnp H).
          + exact (Hnp H).
        - now rewrite (Hotros x Hne). }
      split.
      * intros (x & Hin & Hx). exists x.
        split; [now right | now apply Hmismo].
      * intros (x & [-> | Hin] & Hx); [contradiction |].
        exists x. split; [exact Hin | now apply Hmismo].
Qed.




(** ** Identity and history under every operation *)

Lemma historial_crece_refl (a : Avion) : historial_crece a a.
Proof.
  split; [reflexivity | split; [reflexivity |]].
  exists []. now rewrite app_nil_r.
Qed.

Lemma historial_crece_trans (a b c : Avion) :
  historial_crece a b -> historial_crece b c -> historial_crece a c.
Proof.
  intros (Hn & Ht & n1 & H1) (Hn' & Ht' & n2 & H2).
  split; [congruence | split; [congruence |]].
  exists (n1 ++ n2). now rewrite H2, H1, app_assoc.
Qed.

Lemma historial_crece_mismo_historial (a a' : Avion) :
  num a' = num a -> tiempo_radar a' = tiempo_radar a ->
  historial_posiciones a' = historial_posiciones a ->
  historial_crece a a'.
Proof.
  intros Hn Ht Hh. split; [exact Hn | split; [exact Ht |]].
  exists []. now rewrite app_nil_r.
Qed.

Lemma historial_crece_registrar_estado (a : Avion) (m : Z) (v : option Q) :
  historial_crece a (registrar_estado a m v).
Proof.
  split; [reflexivity | split; [reflexivity |]].
  now exists [instantanea a m v].
Qed.

Lemma historial_crece_avanzar_minuto (a : Avion) (m : Z) (dt : Q) :
  historial_crece a (avanzar_minuto a m dt).
Proof.
  unfold avanzar_minuto.
  destruct (estado a); try apply historial_crece_registrar_estado.
  cbn [posicion con_posicion].
  destruct (Qle_bool _ _);
    (split; [reflexivity | split; [reflexivity |]]); eexists; reflexivity.
Qed.

Lemma historial_crece_escribir (h : Memoria) (r : Ref) (a : Avion) :
  historial_crece (h r) a ->
  forall x, historial_crece (h x) (escribir h r a x).
Proof.
  intros Ha x. unfold escribir. destruct (Nat.eqb x r) eqn:E.
  - apply Nat.eqb_eq in E. now subst.
  - apply historial_crece_refl.
Qed.

(** A loop whose iterations each extend the histories extends them. *)
Lemma bucle_historial_crece {St X : Type} (mem : St -> Memoria)
  (cuerpo : St -> X -> St) (l : list X) :
  (forall s i x, historial_crece (mem s x) (mem (cuerpo s i) x)) ->
  forall s x, historial_crece (mem s x) (mem (fold_left cuerpo l s) x).
Proof.
  intro Hc. induction l as [| i l IH]; intros s x.
  - apply historial_crece_refl.
  - cbn [fold_left].
    eapply historial_crece_trans; [apply Hc | apply IH].
Qed.

Lemma cuerpo_gaps_historial_crece (avs : list Ref) (n : nat) (h : Memoria)
  (i : nat) (x : Ref) :
  historial_crece (h x) (cuerpo_gaps avs n h i x).
Proof.
  destruct (cuerpo_gaps_salvo_gaps avs n h i x)
    as (Hn & Ht & _ & _ & _ & _ & _ & Hh).
  now apply historial_crece_mismo_historial.
Qed.

Lemma cuerpo_velocidades_historial_crece (s : EstadoVelocidades) (r x : Ref) :
  historial_crece (ev_memoria s x) (ev_memoria (cuerpo_velocidades s r) x).
Proof.
  destruct (Nat.eq_dec x r) as [-> | Hne].
  - destruct (cuerpo_velocidades_cuida s r) as [Hs _].
    destruct Hs as (Hn & Ht & _ & _ & _ & _ & _ & _ & _ & Hh).
    now apply historial_crece_mismo_historial.
  - rewrite cuerpo_velocidades_marco by exact Hne.
    apply historial_crece_refl.
Qed.

Lemma cuerpo_filtrar_historial_crece (m : Z) (d : Q) (s : EstadoFiltro)
  (r x : Ref) :
  historial_crece (ef_memoria s x) (ef_memoria (cuerpo_filtrar m d s r) x).
Proof.
  destruct (Nat.eq_dec x r) as [-> | Hne].
  - rewrite cuerpo_filtrar_en.
    destruct (llega_tarde m d (ef_memoria s r));
      [| apply historial_crece_refl].
    now apply historial_crece_mismo_historial.
  - rewrite cuerpo_filtrar_marco by exact Hne.
    apply historial_crece_refl.
Qed.

Lemma cuerpo_avanzar_historial_crece (m : Z) (dt : Q)
  (s : Memoria * Resultados) (r x : Ref) :
  historial_crece (fst s x) (fst (cuerpo_avanzar m dt s r) x).
Proof.
  unfold cuerpo_avanzar.
  destruct (estado (fst s r)); try apply historial_crece_refl.
  - cbn [fst]. apply historial_crece_escribir.
    apply historial_crece_avanzar_minuto.
  - cbn [posicion con_posicion].
    destruct (Qlt_bool _ _); cbn [fst]; apply historial_crece_escribir;
      (split; [reflexivity | split; [reflexivity |]]); eexists; reflexivity.
Qed.

Lemma cerrar_AEP_historial_crece (p : Q) (rand : nat -> Q) (l : list Ref) :
  forall (h : Memoria) (k : nat) (h' : Memoria) (k' : nat),
    cerrar_AEP h l p rand k = Normal (h', k') ->
    forall x, historial_crece (h x) (h' x).
Proof.
  unfold cerrar_AEP.
  induction l as [| r l IH]; intros h k h' k' Hrun x;
    cbn [para_cada] in Hrun.
  - injection Hrun as <- <-. apply historial_crece_refl.
  - destruct (cuerpo_cerrar_casos p rand h k r) as [Hpara Hsigue].
    assert (Hnp : ~ en_vuelo_parado (h r)).
    { intro Hp. rewrite (Hpara Hp) in Hrun. discriminate. }
    destruct (Hsigue Hnp) as (h1 & k1 & Hpaso & _ & Hotros & Hviento & _).
    rewrite Hpaso in Hrun. cbn [ligar] in Hrun.
    eapply historial_crece_trans; [| apply (IH h1 k1 h' k' Hrun)].
    destruct (Nat.eq_dec x r) as [-> | Hne].
    + destruct Hviento as [-> | (_ & _ & ->)];
        [apply historial_crece_refl |].
      now apply historial_crece_mismo_historial.
    + rewrite (Hotros x Hne). apply historial_crece_refl.
Qed.

(** X21. Every mutating operation of the module (the methods of [Avion],
    both passes of [Fila], [filtrar_aviones_a_tiempo],
    [avanzar_aviones_un_minuto] and a [cerrar_AEP] that returns) leaves
    the id and the radar time of every aircraft as they are and only ever
    appends to its history: the history before is a prefix of the history
    after. *)
Theorem historial_solo_crece (h h' : Memoria) :
  paso h h' -> forall x, historial_crece (h x) (h' x).
Proof.
  intros Hpaso x.
  destruct Hpaso as [h r m v | h r m dt | h r | h r | h f | h f res
                     | h f m d res | h l m dt res | h l p rand k h' k' Hrun].
  - apply historial_crece_escribir, historial_crece_registrar_estado.
  - apply historial_crece_escribir, historial_crece_avanzar_minuto.
  - apply historial_crece_escribir.
    now apply historial_crece_mismo_historial.
  - apply historial_crece_escribir.
    now apply historial_crece_mismo_historial.
  - unfold actualizar_gaps. cbn [fst].
    apply (bucle_historial_crece (fun h : Memoria => h)).
    intros s i y. apply cuerpo_gaps_historial_crece.
  - unfold actualizar_velocidades.
    apply (bucle_historial_crece ev_memoria cuerpo_velocidades).
    intros s i y. apply cuerpo_velocidades_historial_crece.
  - unfold filtrar_aviones_a_tiempo. cbn [fst].
    apply (bucle_historial_crece ef_memoria (cuerpo_filtrar m d)).
    intros s i y. apply cuerpo_filtrar_historial_crece.
  - unfold avanzar_aviones_un_minuto.
    apply (bucle_historial_crece fst (cuerpo_avanzar m dt)).
    intros s i y. apply cuerpo_avanzar_historial_crece.
  - eapply cerrar_AEP_historial_crece. exact Hrun.
Qed.

Lemma historial_solo_crece_testigo :
  paso memoria_ejemplo
    (fst (avanzar_aviones_un_minuto memoria_ejemplo [0%nat; 1%nat] 5 1 None)) /\
  historial_crece (memoria_ejemplo 0%nat)
    (fst (avanzar_aviones_un_minuto memoria_ejemplo [0%nat; 1%nat] 5 1 None)
       0%nat).
Proof.
  assert (Hp : paso memoria_ejemplo
                 (fst (avanzar_aviones_un_minuto memoria_ejemplo
                         [0%nat; 1%nat] 5 1 None)))
    by apply paso_avanzar_aviones.
  split; [exact Hp |].
  exact (historial_solo_crece _ _ Hp 0%nat).
Defined.

(** ** The two passes of [Fila] in sequence *)

(** X22. The aircraft closest to AEP is never sent around by the speed
    control: after [actualizar_gaps] and then [actualizar_velocidades], the
    first aircraft of the sorted queue, unless it was already in reverse
    flight, is [en_vuelo], is returned in [en_vuelo_activos], and flies at
    the maximum of its band if it was slower and at its own speed
    otherwise.  The queue holds each aircraft once. *)
Theorem el_primero_no_da_la_vuelta (h : Memoria) (f : Fila)
  (resultados : option Resultados) (r : Ref) :
  NoDup (aviones f) ->
  nth_error (aviones (snd (actualizar_gaps h f))) 0 = Some r ->
  estado (h r) <> marcha_atras ->
  let s := actualizar_velocidades (fst (actualizar_gaps h f))
             (snd (actualizar_gaps h f)) resultados in
  estado (ev_memoria s r) = en_vuelo /\
  In r (ev_en_vuelo_activos s) /\
  (velocidad_actual (h r) < vel_max_actual (h r) ->
   velocidad_actual (ev_memoria s r) = vel_max_actual (h r)) /\
  (vel_max_actual (h r) <= velocidad_actual (h r) ->
   velocidad_actual (ev_memoria s r) = velocidad_actual (h r)).
Proof.
  intros Hnd Hr He s.
  destruct (actualizar_gaps_nth h f Hnd) as (Hnd1 & Hsalvo & Hen & _).
  set (h1 := fst (actualizar_gaps h f)) in *.
  set (avs := ordenar_por (clave_posicion_num_leb h) (aviones f)) in *.
  change (aviones (snd (actualizar_gaps h f))) with avs in Hr.
  assert (Hlen : (0 < length avs)%nat) by (apply nth_error_Some; congruence).
  assert (Hn0 : nth 0 avs O = r) by now apply nth_error_nth.
  assert (Hin : In r avs) by (eapply nth_error_In; exact Hr).
  assert (Hgap : gap_adelante (h1 r) = None).
  { rewrite <- Hn0. rewrite (Hen 0%nat Hlen). rewrite cuerpo_gaps_en.
    reflexivity. }
  destruct (Hsalvo r) as (_ & _ & Hp & He1 & Hv & _).
  assert (Hb : Estado_eqb (estado (h1 r)) marcha_atras = false)
    by (apply Estado_eqb_neq; rewrite He1; exact He).
  assert (Hs : ev_memoria s r
               = ev_memoria
                   (cuerpo_velocidades
                      (mkEstadoVelocidades h1 inicializar_resultados [] []) r)
                   r).
  { subst s. apply actualizar_velocidades_en; assumption. }
  unfold cuerpo_velocidades in Hs. cbn [ev_memoria] in Hs.
  rewrite Hb, Hgap in Hs. cbn [ev_memoria] in Hs.
  rewrite escribir_mismo in Hs.
  unfold vel_max_actual in *. rewrite Hp, Hv in Hs.
  split; [now rewrite Hs | split; [| split]].
  - subst s. unfold actualizar_velocidades.
    rewrite (bucle_lista _ ev_memoria cuerpo_velocidades
               cuerpo_velocidades_marco ev_en_vuelo_activos
               (fun a => negb (queda_en_marcha_atras a))
               cuerpo_velocidades_lista_ev) by exact Hnd1.
    cbn [ev_en_vuelo_activos ev_memoria app].
    apply filter_In. split; [exact Hin |].
    unfold queda_en_marcha_atras. now rewrite Hb, Hgap.
  - intro Hlt. apply Qlt_bool_iff in Hlt. rewrite Hs, Hlt. reflexivity.
  - intro Hge. apply Qlt_bool_false in Hge. rewrite Hs, Hge. simpl.
    exact Hv.
Qed.

Lemma el_primero_no_da_la_vuelta_testigo :
  NoDup (aviones fila_ejemplo) /\
  nth_error (aviones (snd (actualizar_gaps memoria_ejemplo fila_ejemplo))) 0
  = Some 1%nat /\
  estado (memoria_ejemplo 1%nat) <> marcha_atras /\
  estado (ev_memoria
            (actualizar_velocidades
               (fst (actualizar_gaps memoria_ejemplo fila_ejemplo))
               (snd (actualizar_gaps memoria_ejemplo fila_ejemplo)) None)
            1%nat) = en_vuelo.
Proof.
  assert (Hnd : NoDup (aviones fila_ejemplo)).
  { simpl. repeat constructor; simpl; intuition discriminate. }
  assert (H0 : nth_error
                 (aviones (snd (actualizar_gaps memoria_ejemplo fila_ejemplo))) 0
               = Some 1%nat) by reflexivity.
  assert (He : estado (memoria_ejemplo 1%nat) <> marcha_atras) by discriminate.
  split; [exact Hnd | split; [exact H0 | split; [exact He |]]].
  exact (proj1 (el_primero_no_da_la_vuelta memoria_ejemplo fila_ejemplo None
                  1%nat Hnd H0 He)).
Defined.

(** ** Instances *)

Lemma obtener_primero_es_el_mas_cercano_testigo :
  snd (obtener_primero memoria_ejemplo fila_ejemplo) = Some 1%nat /\
  forall s, In s (aviones fila_ejemplo) ->
            posicion (memoria_ejemplo 1%nat) <= posicion (memoria_ejemplo s).
Proof.
  assert (H : snd (obtener_primero memoria_ejemplo fila_ejemplo) = Some 1%nat)
    by reflexivity.
  split; [exact H |].
  destruct (obtener_primero_es_el_mas_cercano memoria_ejemplo fila_ejemplo)
    as [_ Hmin].
  exact (proj2 (Hmin 1%nat H)).
Defined.

Lemma desplazar_al_primer_minuto_libre_testigo :
  (desplazar (Z.to_nat (10 - 3)) [3%Z; 4%Z] 10 3 < 10)%Z /\
  ~ In (desplazar (Z.to_nat (10 - 3)) [3%Z; 4%Z] 10 3) [3%Z; 4%Z].
Proof.
  assert (H : (desplazar (Z.to_nat (10 - 3)) [3%Z; 4%Z] 10 3 < 10)%Z)
    by reflexivity.
  split; [exact H |].
  destruct (desplazar_al_primer_minuto_libre [3%Z; 4%Z] 10 3)
    as (_ & _ & Hlibre & _).
  exact (Hlibre H).
Defined.

Lemma cerrar_AEP_falla_solo_por_velocidad_cero_testigo :
  (exists r, In r [0%nat] /\ en_vuelo_parado ((fun _ => avion_parado) r)) /\
  cerrar_AEP (fun _ => avion_parado) [0%nat] (1 # 10) (fun _ => 0) 0
  = Lanza ZeroDivisionError.
Proof.
  assert (H : exists r, In r [0%nat]
                        /\ en_vuelo_parado ((fun _ => avion_parado) r)).
  { exists 0%nat. split; [simpl; tauto |]. split; reflexivity. }
  split; [exact H |].
  destruct (cerrar_AEP_falla_solo_por_velocidad_cero (fun _ => avion_parado)
              [0%nat] (1 # 10) (fun _ => 0) 0) as [Hiff _].
  exact (proj2 Hiff H).
Defined.
